(** * go-cs2-cdn: the directory-listing resolver, the command runner and the
      pipeline orchestrator, embedded in Rocq

    The first part is the model.  It follows the Go packages:
    - the parts of Go's standard library that the code calls ([strings],
      [unicode/utf8], [strconv], [fmt], [path/filepath], [bufio], [context])
      are modelled on byte strings for a Unix build with a 64-bit [int]: the
      workflow runs the program on ubuntu-latest, where
      [filepath.Separator] is the forward slash;
    - [parser] embeds [ParseVPKDir] and [MapFNumberToVPK] of
      internal/parser/parser.go, [listing] the rest of that file;
    - [cmdrunner] embeds [DefaultRunner.Run], [RunCommand] and [PipeOutput];
    - [orchestrator] embeds [main] of cmd/main.go as a function from the
      answers of the outside world to the trace of effects it performs;
    - [dependencies] embeds internal/dependencies/collect_tools.go, and
      [images] the functions that [findAndRenameFiles] and [addImagesToCDN]
      of cmd/main.go walk the directory [static] with.

    Go strings are byte sequences: they are [string]s here, one [ascii] per
    byte.  Go maps used as sets are [gset]s; the order in which Go ranges over
    a map is not specified, so a slice built by such a loop is described by a
    relation ([set_to_slice]) and not by a function.  Log lines are kept
    without the time stamp that the [log] package puts in front.

    The second part names the notions of the statements and the inputs the
    model is evaluated on; the third part holds the lemmas and the
    properties C1 to C10, and after them further properties of the same
    code, X1 to X23. *)

From Stdlib Require Import ZArith NArith Ascii String List Lia.

From stdpp Require Import base numbers option list gmap sets strings.

Local Open Scope Z_scope.

(** ** Errors

    Go errors are values carrying a message; [fmt.Errorf] with [%w] wraps a
    cause behind a prefix.  [errorString] is the method [Error()]. *)

Inductive error : Type :=
| ErrNew (msg : string)
| ErrWrap (prefix : string) (cause : error).

Fixpoint errorString (e : error) : string :=
  match e with
  | ErrNew msg => msg
  | ErrWrap prefix cause => prefix +:+ errorString cause
  end.

Global Instance error_eq_dec : EqDecision error.
Proof. solve_decision. Defined.

(** ** Bytes *)

Definition byte_val (c : ascii) : N := N_of_ascii c.

Definition in_range (lo hi b : N) : bool := ((lo <=? b) && (b <=? hi))%N.

(** ** Package unicode/utf8 and unicode *)

Module utf8.

Definition RuneSelf : N := 0x80.

Definition RuneError : N := 0xFFFD.

(** A continuation byte contributes its six low bits. *)
Definition is_cont (b : N) : bool := in_range 0x80 0xBF b.

Definition low6 (b : N) : N := N.land b 0x3F.

(** [DecodeRuneInString]: the first rune of [s] and its width in bytes.
    An invalid or truncated encoding yields [(RuneError, 1)]; the empty
    string yields [(RuneError, 0)].  The accepted ranges of the second byte
    are those of Go's [acceptRanges] table. *)
Definition DecodeRuneInString (s : string) : N * nat :=
  match s with
  | EmptyString => (RuneError, 0%nat)
  | String c0 s1 =>
    let b0 := byte_val c0 in
    if (b0 <? RuneSelf)%N then (b0, 1%nat)
    else if in_range 0xC2 0xDF b0 then
      match s1 with
      | String c1 _ =>
        let b1 := byte_val c1 in
        if is_cont b1
        then (N.lor (N.shiftl (N.land b0 0x1F) 6) (low6 b1), 2%nat)
        else (RuneError, 1%nat)
      | _ => (RuneError, 1%nat)
      end
    else if in_range 0xE0 0xEF b0 then
      match s1 with
      | String c1 (String c2 _) =>
        let b1 := byte_val c1 in
        let b2 := byte_val c2 in
        let lo := if (b0 =? 0xE0)%N then 0xA0%N else 0x80%N in
        let hi := if (b0 =? 0xED)%N then 0x9F%N else 0xBF%N in
        if in_range lo hi b1 && is_cont b2
        then (N.lor (N.shiftl (N.land b0 0x0F) 12)
                (N.lor (N.shiftl (low6 b1) 6) (low6 b2)), 3%nat)
        else (RuneError, 1%nat)
      | _ => (RuneError, 1%nat)
      end
    else if in_range 0xF0 0xF4 b0 then
      match s1 with
      | String c1 (String c2 (String c3 _)) =>
        let b1 := byte_val c1 in
        let b2 := byte_val c2 in
        let b3 := byte_val c3 in
        let lo := if (b0 =? 0xF0)%N then 0x90%N else 0x80%N in
        let hi := if (b0 =? 0xF4)%N then 0x8F%N else 0xBF%N in
        if in_range lo hi b1 && is_cont b2 && is_cont b3
        then (N.lor (N.shiftl (N.land b0 0x07) 18)
                (N.lor (N.shiftl (low6 b1) 12)
                   (N.lor (N.shiftl (low6 b2) 6) (low6 b3))), 4%nat)
        else (RuneError, 1%nat)
      | _ => (RuneError, 1%nat)
      end
    else (RuneError, 1%nat)
  end.

(** The first [n] bytes of a string. *)
Fixpoint take_bytes (n : nat) (s : string) : string :=
  match n, s with
  | S k, String c s' => String c (take_bytes k s')
  | _, _ => EmptyString
  end.

(** [for _, r := range s]: the runes of [s] in order, each with the bytes
    that encode it.  [pending] counts the bytes of the current rune that
    are still to be stepped over; a loop starts with [pending = 0]. *)
Fixpoint runes_from (pending : nat) (s : string) : list (N * string) :=
  match s with
  | EmptyString => []
  | String _ s' =>
    match pending with
    | S k => runes_from k s'
    | O =>
      let '(r, size) := DecodeRuneInString s in
      (r, take_bytes size s) :: runes_from (Nat.pred size) s'
    end
  end.

Definition runes (s : string) : list (N * string) := runes_from 0 s.

End utf8.

Module unicode.

Definition MaxLatin1 : N := 0xFF.

(** [unicode.IsSpace]: the Latin-1 spaces, then the rest of the
    [White_Space] table. *)
Definition IsSpace (r : N) : bool :=
  if (r <=? MaxLatin1)%N then
    in_range 0x09 0x0D r || (r =? 0x20)%N || (r =? 0x85)%N || (r =? 0xA0)%N
  else
    (r =? 0x1680)%N || in_range 0x2000 0x200A r || in_range 0x2028 0x2029 r
    || (r =? 0x202F)%N || (r =? 0x205F)%N || (r =? 0x3000)%N.

End unicode.

(** ** Package strings *)

Module strings.

(** [strings.HasPrefix(s, prefix)] *)
Fixpoint HasPrefix (s prefix : string) : bool :=
  match prefix, s with
  | EmptyString, _ => true
  | String p prefix', String c s' =>
    if decide (c = p) then HasPrefix s' prefix' else false
  | String _ _, EmptyString => false
  end.

(** [s[n:]] *)
Fixpoint drop_bytes (n : nat) (s : string) : string :=
  match n, s with
  | S k, String _ s' => drop_bytes k s'
  | _, _ => s
  end.

(** [strings.TrimPrefix(s, prefix)]: [s] without the prefix when it has
    it, [s] unchanged otherwise. *)
Definition TrimPrefix (s prefix : string) : string :=
  if HasPrefix s prefix then drop_bytes (String.length prefix) s else s.

(** [strings.HasSuffix] and [strings.TrimSuffix], through reversal. *)
Definition HasSuffix (s suffix : string) : bool :=
  HasPrefix (String.rev s) (String.rev suffix).

Definition TrimSuffix (s suffix : string) : string :=
  if HasSuffix s suffix
  then utf8.take_bytes (String.length s - String.length suffix) s
  else s.

Definition is_space_rune (rb : N * string) : bool := unicode.IsSpace rb.1.

Definition bytes_of (rs : list (N * string)) : string :=
  foldr (fun rb acc => rb.2 +:+ acc) EmptyString rs.

(** The runes that follow the leading white space. *)
Fixpoint drop_spaces (rs : list (N * string)) : list (N * string) :=
  match rs with
  | rb :: rs' => if is_space_rune rb then drop_spaces rs' else rs
  | [] => []
  end.

(** [strings.TrimSpace(s)]: [s] without its leading and trailing white
    space runes.  Go finds the trailing ones by decoding backwards; the
    encodings of the white space runes start with a byte that is no
    continuation byte, so both directions see the same runes there. *)
Definition TrimSpace (s : string) : string :=
  bytes_of (rev (drop_spaces (rev (drop_spaces (utf8.runes s))))).

(** The field read so far, if any. *)
Definition flush (cur : string) : list string :=
  if decide (cur = EmptyString) then [] else [cur].

(** The loop of [FieldsFunc]: [cur] is the field being read, empty
    between fields. *)
Fixpoint fields_go (cur : string) (rs : list (N * string)) : list string :=
  match rs with
  | [] => flush cur
  | rb :: rs' =>
    if is_space_rune rb then flush cur ++ fields_go EmptyString rs'
    else fields_go (cur +:+ rb.2) rs'
  end.

(** [strings.Fields(s)]: the maximal runs of runes that are not white
    space. *)
Definition Fields (s : string) : list string :=
  fields_go EmptyString (utf8.runes s).

(** [strings.Split(s, sep)] for a one-byte separator: the pieces between
    the separators; always at least one piece. *)
Fixpoint Split1 (sep : ascii) (s : string) : list string :=
  match s with
  | EmptyString => [EmptyString]
  | String c s' =>
    if decide (c = sep) then EmptyString :: Split1 sep s'
    else match Split1 sep s' with
         | piece :: rest => String c piece :: rest
         | [] => [String c EmptyString]
         end
  end.

(** [strings.Join(elems, sep)] *)
Fixpoint Join (elems : list string) (sep : string) : string :=
  match elems with
  | [] => EmptyString
  | [e] => e
  | e :: rest => e +:+ sep +:+ Join rest sep
  end.

(** The loop of [strings.Replace(s, old, new, -1)] for a non-empty [old]:
    the instances of [old] are found from left to right and do not
    overlap.  [skip] counts the bytes of the instance just replaced that
    are still to be stepped over. *)
Fixpoint replace_from (skip : nat) (old new : string) (s : string) : string :=
  match s with
  | EmptyString => EmptyString
  | String c s' =>
    match skip with
    | S k => replace_from k old new s'
    | O =>
      if HasPrefix s old
      then new +:+ replace_from (Nat.pred (String.length old)) old new s'
      else String c (replace_from 0 old new s')
    end
  end.

(** [strings.ReplaceAll(s, old, new)]; an empty [old] matches before
    every rune and at the end of the string. *)
Definition ReplaceAll (s old new : string) : string :=
  if decide (old = EmptyString)
  then foldr (fun rb acc => new +:+ rb.2 +:+ acc) new (utf8.runes s)
  else replace_from 0 old new s.

End strings.

(** ** Package strconv *)

Module strconv.

Inductive NumError : Type := ErrSyntax | ErrRange.

Definition digit_val (c : ascii) : option N :=
  let b := byte_val c in
  if in_range 48 57 b then Some (b - 48)%N else None.

Definition maxUint64 : N := 0xFFFFFFFFFFFFFFFF.

(** The digit loop of [ParseUint(s, 10, 64)], entered with the value [n]
    read so far: a byte that is not a decimal digit is a syntax error, a
    value above [maxUint64] a range error. *)
Fixpoint parse_digits (n : N) (s : string) : N + NumError :=
  match s with
  | EmptyString => inl n
  | String c s' =>
    match digit_val c with
    | None => inr ErrSyntax
    | Some d =>
      let n1 := (n * 10 + d)%N in
      if (maxUint64 <? n1)%N then inr ErrRange else parse_digits n1 s'
    end
  end.

Definition ParseUint (s : string) : N + NumError :=
  match s with
  | EmptyString => inr ErrSyntax
  | _ => parse_digits 0 s
  end.

(** [strconv.Atoi] for a 64-bit [int]: an optional sign, then decimal
    digits; the value must fit in [-2^63, 2^63 - 1]. *)
Definition Atoi (s : string) : Z + NumError :=
  match s with
  | EmptyString => inr ErrSyntax
  | String c rest =>
    let neg := bool_decide (c = "-"%char) in
    let body := if bool_decide (c = "+"%char) || neg then rest else s in
    match ParseUint body with
    | inr e => inr e
    | inl un =>
      let cutoff := (2 ^ 63)%N in
      if negb neg && (cutoff <=? un)%N then inr ErrRange
      else if neg && (cutoff <? un)%N then inr ErrRange
      else inl (if neg then - Z.of_N un else Z.of_N un)
    end
  end.

End strconv.

(** ** Package fmt: the verbs the program uses *)

Module fmt.

Definition digit_char (d : N) : ascii := ascii_of_N (48 + d).

(** The digit loop of [fmtInteger] in base 10: it writes right to left,
    one digit for each division by ten, and ends with the leading digit.
    A number has no more decimal digits than binary ones, which bounds the
    number of rounds. *)
Fixpoint digits_go (rounds : nat) (u : N) (acc : string) : string :=
  match rounds with
  | O => String (digit_char (u mod 10)) acc
  | S k =>
    if (u <? 10)%N then String (digit_char u) acc
    else digits_go k (u / 10) (String (digit_char (u mod 10)) acc)
  end.

Definition digits (u : N) : string :=
  digits_go (N.to_nat (N.log2 u)) u EmptyString.

(** Zeros in front, up to [prec] digits. *)
Fixpoint zero_pad (missing : nat) (s : string) : string :=
  match missing with
  | O => s
  | S k => String "0" (zero_pad k s)
  end.

(** [%0<wid>d] (and [%d] with [wid = 0]): the magnitude in decimal, padded
    with zeros to [wid] bytes, one of which is the sign of a negative
    number. *)
Definition fmtInteger (wid : nat) (n : Z) : string :=
  let negative := n <? 0 in
  let prec := if negative then Nat.pred wid else wid in
  let ds := digits (Z.abs_N n) in
  let padded := zero_pad (prec - String.length ds) ds in
  if negative then String "-" padded else padded.

End fmt.

(** ** Package path/filepath, Unix build *)

Module filepath.

Definition Separator : ascii := "/"%char.

Definition is_dot (e : string) : bool := bool_decide (e = ".").

Definition is_dotdot (e : string) : bool := bool_decide (e = "..").

Definition is_empty (e : string) : bool := bool_decide (e = EmptyString).

(** The element loop of [Clean].  [out] holds the elements written so
    far, last one first.  An empty element or [.] is dropped.  [..]
    removes the last element written when that is a proper name; after a
    leading run of [..] (or at the start) it is kept in a relative path
    and dropped in a rooted one. *)
Fixpoint clean_elems (rooted : bool) (out : list string) (elems : list string)
  : list string :=
  match elems with
  | [] => rev out
  | e :: rest =>
    if is_empty e || is_dot e then clean_elems rooted out rest
    else if is_dotdot e then
      match out with
      | last :: before =>
        if is_dotdot last then clean_elems rooted (e :: out) rest
        else clean_elems rooted before rest
      | [] =>
        if rooted then clean_elems rooted [] rest
        else clean_elems rooted [e] rest
      end
    else clean_elems rooted (e :: out) rest
  end.

Definition is_rooted (path : string) : bool :=
  match path with
  | String c _ => bool_decide (c = Separator)
  | EmptyString => false
  end.

(** The elements written back with slashes between them, after the
    leading slash of a rooted path; nothing at all is written as [.]. *)
Definition assemble (rooted : bool) (elems : list string) : string :=
  let out := (if rooted then "/" else EmptyString) +:+ strings.Join elems "/" in
  if is_empty out then "." else out.

(** [filepath.Clean]: the shortest path equivalent to [path] by lexical
    processing; the empty result is [.]. *)
Definition Clean (path : string) : string :=
  match path with
  | EmptyString => "."
  | _ =>
    let rooted := is_rooted path in
    assemble rooted (clean_elems rooted [] (strings.Split1 Separator path))
  end.

(** [strings.ReplaceAll] for single bytes. *)
Fixpoint replace_byte (old new : ascii) (s : string) : string :=
  match s with
  | EmptyString => EmptyString
  | String c s' => String (if decide (c = old) then new else c) (replace_byte old new s')
  end.

(** [filepath.ToSlash]: the identity where the separator is the slash. *)
Definition ToSlash (path : string) : string :=
  if decide (Separator = "/"%char) then path
  else replace_byte Separator "/"%char path.

(** [filepath.Join]: the elements from the first non-empty one on, joined
    by the separator and cleaned; the empty string when there is none. *)
Fixpoint Join (elem : list string) : string :=
  match elem with
  | [] => EmptyString
  | e :: rest =>
    if is_empty e then Join rest
    else Clean (strings.Join elem (String Separator EmptyString))
  end.

(** [path[:i+1]] for the last separator [path[i]]: the path up to and
    including its last slash, nothing when it has none. *)
Fixpoint dir_part (path : string) : string :=
  match path with
  | EmptyString => EmptyString
  | String c rest =>
    match dir_part rest with
    | EmptyString =>
      if decide (c = Separator) then String c EmptyString else EmptyString
    | dir => String c dir
    end
  end.

(** [filepath.Dir]: all but the last element of the path, cleaned. *)
Definition Dir (path : string) : string := Clean (dir_part path).

(** The path without the slashes at its end. *)
Fixpoint trim_seps (path : string) : string :=
  match path with
  | EmptyString => EmptyString
  | String c rest =>
    match trim_seps rest with
    | EmptyString =>
      if decide (c = Separator) then EmptyString else String c EmptyString
    | trimmed => String c trimmed
    end
  end.

(** What follows the last slash; the whole path when it has none. *)
Definition last_elem (path : string) : string :=
  default EmptyString (last (strings.Split1 Separator path)).

(** [filepath.Base]: the last element of the path, after the slashes at
    its end have been removed; [.] for the empty path and [/] for a path of
    slashes. *)
Definition Base (path : string) : string :=
  if is_empty path then "."
  else
    let name := last_elem (trim_seps path) in
    if is_empty name then String Separator EmptyString else name.

End filepath.

(** ** Package bufio: a [Scanner] with the default split function and buffer *)

Module bufio.

Definition MaxScanTokenSize : N := 65536.

Definition ErrTooLong : error := ErrNew "bufio.Scanner: token too long".

Definition newline : ascii := "010"%char.

Definition carriage_return : ascii := "013"%char.

(** [dropCR]: one trailing carriage return is not part of the line. *)
Fixpoint dropCR (data : string) : string :=
  match data with
  | EmptyString => EmptyString
  | String c EmptyString =>
    if decide (c = carriage_return) then EmptyString else data
  | String c rest => String c (dropCR rest)
  end.

(** The stretches between newlines; what follows the last newline counts
    as a line only when it is not empty. *)
Definition raw_lines (content : string) : list string :=
  let pieces := strings.Split1 newline content in
  match last pieces with
  | Some EmptyString => removelast pieces
  | _ => pieces
  end.

(** A line together with its newline has to fit into the buffer, which
    grows to [MaxScanTokenSize] bytes and no further. *)
Definition too_long (raw : string) : bool :=
  (MaxScanTokenSize <=? N.of_nat (String.length raw))%N.

(** The lines [Scan] and [Text] deliver one after the other, and the
    value of [Err] once [Scan] has returned false. *)
Fixpoint scan (raw : list string) : list string * option error :=
  match raw with
  | [] => ([], None)
  | data :: rest =>
    if too_long data then ([], Some ErrTooLong)
    else let '(lines, err) := scan rest in (dropCR data :: lines, err)
  end.

Definition ScanLines (content : string) : list string * option error :=
  scan (raw_lines content).

End bufio.

(** ** Go maps used as sets

    [for k := range m { s = append(s, k) }] visits every key once, in an
    order the language leaves open. *)

Definition set_to_slice {K : Type} `{Countable K} (m : gset K) (s : list K) : Prop :=
  s ≡ₚ elements m.

(** A 64-bit [int] wraps around. *)
Definition wrap_int (z : Z) : Z := (z + 2 ^ 63) mod 2 ^ 64 - 2 ^ 63.

(** ** Package parser (internal/parser/parser.go) *)

Module parser.

(** The variables [ParseVPKDir] updates in its loop, and its log output. *)
Record scan_state : Type := ScanState {
  fnumberSet : gset Z;
  matchedLines : Z;
  logged : list string
}.

Definition initial : scan_state :=
  {| fnumberSet := ∅; matchedLines := 0; logged := [] |}.

(** Lines 122-134: the loop over [fields[1:]].  It stops at the first
    field with the prefix [fnumber=], with the value when [Atoi] accepts
    the rest of the field and with a warning when it does not. *)
Fixpoint find_fnumber (line : string) (fields : list string) : Z * list string :=
  match fields with
  | [] => (0, [])
  | field :: rest =>
    if strings.HasPrefix field "fnumber=" then
      let fnumStr := strings.TrimPrefix field "fnumber=" in
      match strconv.Atoi fnumStr with
      | inr _ =>
        (0, ["Warning: Invalid fnumber '" +:+ fnumStr +:+ "' in line: " +:+ line])
      | inl fnum => (fnum, [])
      end
    else find_fnumber line rest
  end.

(** Lines 112-116: does the entry path start with the required prefix? *)
Definition matches_prefix (filePath requiredPrefix : string) : bool :=
  let cleanPath := filepath.ToSlash (filepath.Clean filePath) in
  let normalizedPrefix := filepath.ToSlash (filepath.Clean requiredPrefix) in
  strings.HasPrefix cleanPath normalizedPrefix.

(** Lines 93-140: the body of the loop, for one line. *)
Definition scan_line (requiredPrefix : string) (st : scan_state) (line : string)
  : scan_state :=
  if strings.HasPrefix line "---"
     || bool_decide (strings.TrimSpace line = EmptyString)
  then st
  else
    let fields := strings.Fields line in
    if (length fields <? 5)%nat then st
    else
      match fields with
      | [] => st
      | filePath :: others =>
        if negb (matches_prefix filePath requiredPrefix) then st
        else
          let matched := wrap_int (matchedLines st + 1) in
          let '(fnumber, warning) := find_fnumber line others in
          if decide (fnumber ≠ 0) then
            {| fnumberSet := {[fnumber]} ∪ fnumberSet st;
               matchedLines := matched;
               logged := logged st ++ warning |}
          else
            {| fnumberSet := fnumberSet st;
               matchedLines := matched;
               logged := logged st ++ warning
                           ++ ["No valid fnumber found in line: " +:+ line] |}
      end.

Definition scan_lines (requiredPrefix : string) (lines : list string) : scan_state :=
  foldl (scan_line requiredPrefix) initial lines.

(** What one call computes before the set is turned into a slice: the set
    or the error, and the log. *)
Record run : Type := Run {
  outcome : gset Z + error;
  log : list string
}.

(** Lines 92-147, from the lines the scanner delivered and its error. *)
Definition parse_lines (requiredPrefix : string) (lines : list string)
    (scanErr : option error) : run :=
  let st := scan_lines requiredPrefix lines in
  match scanErr with
  | Some err =>
    {| outcome := inr (ErrWrap "error reading VPK Dir file: " err);
       log := logged st |}
  | None =>
    {| outcome := inl (fnumberSet st);
       log := logged st
                ++ ["Total matched lines: " +:+ fmt.fmtInteger 0 (matchedLines st)] |}
  end.

(** The error of [os.Open] on a path that is not there. *)
Definition open_error (path : string) : error :=
  ErrNew ("open " +:+ path +:+ ": no such file or directory").

(** Lines 82-147.  [fs] holds the files [os.Open] can open, each with its
    content. *)
Definition ParseVPKDir_run (fs : gmap string string)
    (vpkDirPath requiredPrefix : string) : run :=
  match fs !! vpkDirPath with
  | None =>
    {| outcome := inr (ErrWrap "failed to open VPK Dir file: " (open_error vpkDirPath));
       log := [] |}
  | Some content =>
    let '(lines, scanErr) := bufio.ScanLines content in
    parse_lines requiredPrefix lines scanErr
  end.

(** [ParseVPKDir] returns [(fnumbers, err)]: the keys of the set in some
    order and no error, or no slice and the error. *)
Definition ParseVPKDir (fs : gmap string string) (vpkDirPath requiredPrefix : string)
    (fnumbers : list Z) (err : option error) : Prop :=
  match outcome (ParseVPKDir_run fs vpkDirPath requiredPrefix) with
  | inl set => set_to_slice set fnumbers ∧ err = None
  | inr e => fnumbers = [] ∧ err = Some e
  end.

(** Line 163: [fmt.Sprintf("pak01_%03d.vpk", fnum)] *)
Definition vpkName (fnum : Z) : string :=
  "pak01_" +:+ fmt.fmtInteger 3 fnum +:+ ".vpk".

Definition vpkPath (baseDir : string) (fnum : Z) : string :=
  filepath.Join [baseDir; vpkName fnum].

(** Lines 160-166: the set of paths. *)
Definition vpkSet (fnumbers : list Z) (baseDir : string) : gset string :=
  foldl (fun set fnum => {[vpkPath baseDir fnum]} ∪ set) ∅ fnumbers.

(** [MapFNumberToVPK] returns the paths of the set in some order. *)
Definition MapFNumberToVPK (fnumbers : list Z) (baseDir : string)
    (vpks : list string) : Prop :=
  set_to_slice (vpkSet fnumbers baseDir) vpks.

End parser.

Definition nl : string := String bufio.newline EmptyString.

(** ** Effects

    What the program does to the outside world, in the order it does it.
    A call of [log.Fatalf] logs and ends the process: nothing follows the
    [Exit] effect, deferred calls included. *)

Inductive effect : Type :=
| Log (msg : string)
| Exit (code : Z)
| StartProcess (deadline : option Z) (name : string) (args : list string)
| EnsureTools
| Glob (pattern : string)
| Stat (path : string)
| ReadFile (path : string)
| WriteFile (path : string) (data : string)
| CreateTemp (pattern : string)
| WriteTemp (path : string) (data : string)
| FlushTemp (path : string)
| WriteLines (path : string) (lines : gset string)
| CloseFile (path : string)
| Remove (path : string)
| WalkDir (root : string).

Global Instance effect_eq_dec : EqDecision effect.
Proof. solve_decision. Defined.

(** A computation performs effects and then either yields a value or has
    ended the process. *)
Definition action (A : Type) : Type := list effect * option A.

Definition ret {A : Type} (a : A) : action A := ([], Some a).

Definition bind {A B : Type} (m : action A) (k : A → action B) : action B :=
  match m with
  | (before, None) => (before, None)
  | (before, Some a) => let '(after, b) := k a in (before ++ after, b)
  end.

Definition perform (e : effect) : action unit := ([e], Some tt).

Definition Fatalf {A : Type} (msg : string) : action A := ([Log msg; Exit 1], None).

Definition perform_all (es : list effect) : action unit := (es, Some tt).

Global Instance action_ret : MRet action := @ret.

Global Instance action_bind : MBind action := fun A B k m => bind m k.

(** ** Package context: deadlines *)

Module context.

Inductive ctx_error : Type := Canceled | DeadlineExceeded.

Global Instance ctx_error_eq_dec : EqDecision ctx_error.
Proof. solve_decision. Defined.

(** A context is its deadline, in seconds after its creation. *)
Record Context : Type := { deadline : option Z }.

Definition Background : Context := {| deadline := None |}.

Definition WithTimeout (parent : Context) (timeout : Z) : Context :=
  {| deadline := Some (match deadline parent with
                       | Some d => Z.min d timeout
                       | None => timeout
                       end) |}.

(** [ctx.Err()] once [elapsed] seconds have passed. *)
Definition Err (ctx : Context) (elapsed : Z) : option ctx_error :=
  match deadline ctx with
  | Some d => if d <=? elapsed then Some DeadlineExceeded else None
  | None => None
  end.

End context.

(** How a started process ended: what it wrote before [cmd.Run] returned,
    the error [cmd.Run] returned, and how long that took. *)
Record process_end : Type := ProcessEnd {
  written_out : string;
  written_err : string;
  run_error : option error;
  elapsed : Z
}.

(** ** Package cmdrunner (internal/cmdrunner) *)

Module cmdrunner.

Record CommandResult : Type := {
  Stdout : string;
  Stderr : string;
  Error : option error
}.

Definition log_if_nonempty (label text : string) : list effect :=
  if decide (text = EmptyString) then [] else [Log (label +:+ text)].

(** [DefaultRunner.Run]: [p] is how the process ends. *)
Definition Run (ctx : context.Context) (name : string) (args : list string)
    (p : process_end) : action CommandResult :=
  perform (Log ("Executing command: " +:+ name +:+ " " +:+ strings.Join args " "));;
  perform (StartProcess (context.deadline ctx) name args);;
  let stdoutStr := written_out p in
  let stderrStr := written_err p in
  perform_all (log_if_nonempty "Command stdout: " stdoutStr);;
  perform_all (log_if_nonempty "Command stderr: " stderrStr);;
  match run_error p with
  | Some err =>
    if decide (context.Err ctx (elapsed p) = Some context.DeadlineExceeded) then
      mret {| Stdout := stdoutStr; Stderr := stderrStr;
             Error := Some (ErrWrap "command timed out: " err) |}
    else
      mret {| Stdout := stdoutStr; Stderr := stderrStr;
             Error := Some (ErrWrap "command execution failed: " err) |}
  | None =>
    mret {| Stdout := stdoutStr; Stderr := stderrStr; Error := None |}
  end.

(** [RunCommand]: [Run] under a deadline of 60 seconds. *)
Definition RunCommand (name : string) (args : list string) (p : process_end)
  : action CommandResult :=
  let ctx := context.WithTimeout context.Background 60 in
  Run ctx name args p.

(** How a process started by [PipeOutput] ended: one of the two pipes
    could not be made, the process could not be started, or [cmd.Wait]
    returned with or without an error. *)
Inductive pipe_end : Type :=
| NoStdoutPipe (err : error)
| NoStderrPipe (err : error)
| NotStarted (err : error)
| Waited (err : option error).

(** [PipeOutput]: [exec.Command] without a context.  The two goroutines
    that copy the output to the log line by line are not part of the
    trace. *)
Definition PipeOutput (name : string) (args : list string) (p : pipe_end)
  : action (option error) :=
  match p with
  | NoStdoutPipe err => mret (Some (ErrWrap "failed to get stdout pipe: " err))
  | NoStderrPipe err => mret (Some (ErrWrap "failed to get stderr pipe: " err))
  | NotStarted err =>
    perform (StartProcess None name args);;
    mret (Some (ErrWrap "failed to start command: " err))
  | Waited (Some err) =>
    perform (StartProcess None name args);;
    mret (Some (ErrWrap "command execution failed: " err))
  | Waited None =>
    perform (StartProcess None name args);;
    mret None
  end.

End cmdrunner.

(** [GenerateVPKList] and its helpers (internal/parser/parser.go, lines
    16-78 and 178-194), over the answers of the outside world. *)

Module listing.

(** What the world answers to [GenerateVPKList]. *)
Record answers : Type := Answers {
  temp_manifest : string + error;   (* os.CreateTemp("", "vpkdir_*.txt") *)
  dump : process_end;               (* Source2Viewer-CLI --vpk_dir *)
  list_written : option error       (* os.Create and WriteString on outFile *)
}.

(** [generateVPKDirectory]: the tool writes the listing to a temporary
    file; no context, hence no deadline. *)
Definition generateVPKDirectory (w : answers) (vpkDir : string)
  : action (string + error) :=
  perform (CreateTemp "vpkdir_*.txt");;
  match temp_manifest w with
  | inr err =>
    mret (inr (ErrWrap "failed to create temporary manifest file: " err))
  | inl tempFile =>
    perform (Log ("Running Source2Viewer-CLI to generate vpk dir at " +:+ tempFile));;
    perform (StartProcess None "tools/Source2Viewer-CLI" ["-i"; vpkDir; "--vpk_dir"]);;
    match run_error (dump w) with
    | Some err =>
      perform (CloseFile tempFile);;
      mret (inr (ErrWrap "error running Source2Viewer-CLI: " err))
    | None =>
      perform (Log ("vpk dir generated successfully at " +:+ tempFile));;
      perform (CloseFile tempFile);;
      mret (inl tempFile)
    end
  end.

(** [WriteVPKList]: one path per line; the order is that of the slice. *)
Definition WriteVPKList (w : answers) (vpks : gset string) (outFile : string)
  : action (option error) :=
  perform (WriteLines outFile vpks);;
  perform (CloseFile outFile);;
  mret (list_written w).

Definition GenerateVPKList (w : answers)
    (vpkDir requiredPrefix vpkBaseDir outFile : string) : action (option error) :=
  generated ← generateVPKDirectory w vpkDir;
  match generated with
  | inr err => mret (Some (ErrWrap "error generating manifest: " err))
  | inl manifestPath =>
    let fs : gmap string string := {[ manifestPath := written_out (dump w) ]} in
    let parsed := parser.ParseVPKDir_run fs manifestPath requiredPrefix in
    perform_all (Log <$> parser.log parsed);;
    result ←
      match parser.outcome parsed with
      | inr err => mret (Some (ErrWrap "error parsing manifest: " err))
      | inl fnumbers =>
        if decide (size fnumbers = 0%nat) then
          perform (Log "No matching image files found in the manifest.");;
          mret None
        else
          let vpks := parser.vpkSet (elements fnumbers) vpkBaseDir in
          if decide (size vpks = 0%nat) then
            perform (Log "No VPKs mapped from the extracted fnumbers.");;
            mret None
          else
            written ← WriteVPKList w vpks outFile;
            match written with
            | Some err => mret (Some (ErrWrap "error writing VPK list: " err))
            | None => mret None
            end
      end;
    perform (Remove manifestPath);;
    mret result
  end.

End listing.

(** ** The orchestrator (cmd/main.go) *)

Module orchestrator.

Definition VPKDir : string := "data/game/csgo/pak01_dir.vpk".

Definition ImageDir : string := "panorama/images/econ".

Definition BaseDir : string := "game/csgo".

Definition identityFile : string := "manifest_id.txt".

(** What the world answers at each call of [main]. *)
Record world : Type := World {
  tools : option error;                  (* dependencies.EnsureTools() *)
  manifest_fetch : process_end;          (* step 1 *)
  manifest_glob : list string + error;   (* filepath.Glob("data/manifest_*") *)
  identity_exists : bool;                (* fileExists("manifest_id.txt") *)
  identity_read : string + error;        (* os.ReadFile("manifest_id.txt") *)
  identity_written : option error;       (* os.WriteFile("manifest_id.txt", ...) *)
  temp_dir_file : string + error;        (* os.CreateTemp("", "dir-file_*.txt") *)
  dir_file_written : option error;       (* writer.WriteString *)
  dir_file_flushed : option error;       (* writer.Flush *)
  dir_fetch : process_end;               (* step 5 *)
  temp_file_list : string + error;       (* os.CreateTemp("", "filelist_*.txt") *)
  vpk_list : listing.answers;            (* step 6 *)
  segment_fetch : cmdrunner.pipe_end;    (* step 7 *)
  extraction : cmdrunner.pipe_end;       (* step 8 *)
  renamed : option error;                (* filepath.WalkDir in findAndRenameFiles *)
  cdn_read : string + error;             (* os.ReadFile("cdn.json") *)
  cdn_updated : string;                  (* the entries after the walk, as JSON *)
  cdn_written : option error             (* os.WriteFile("cdn.json", ...) *)
}.

Definition depot (extra : list string) : list string :=
  ["-app"; "730"; "-depot"; "2347770"; "-dir"; "data"] ++ extra.

Definition checkDependencies (w : world) : action unit :=
  perform EnsureTools;;
  match tools w with
  | Some err => Fatalf ("Failed to ensure tools: " +:+ errorString err)
  | None => perform (Log "All dependencies are satisfied.")
  end.

(** Steps 1 and 2: fetch the manifest and read the new identity off its
    file name. *)
Definition observeIdentity (w : world) : action string :=
  result ← cmdrunner.RunCommand "tools/DepotDownloader" (depot ["-manifest-only"])
             (manifest_fetch w);
  match cmdrunner.Error result with
  | Some err => Fatalf ("DepotDownloader encountered an error: " +:+ errorString err)
  | None =>
    perform (Log "Collecting Manifest...");;
    perform (Log "Finished collecting manifest.");;
    perform (Glob "data/manifest_*");;
    match manifest_glob w with
    | inr err => Fatalf ("Failed to find manifest file: " +:+ errorString err)
    | inl [] => Fatalf "No manifest file found in ./data/"
    | inl (manifestFile :: _) =>
      let parts := strings.Split1 "_" manifestFile in
      match parts with
      | _ :: _ :: part2 :: _ => mret (strings.TrimSuffix part2 ".txt")
      | _ => Fatalf ("Unexpected manifest file format: " +:+ manifestFile)
      end
    end
  end.

(** Step 3: the identity stored by an earlier run, empty when there is
    no such file. *)
Definition readTrackedID (w : world) : action string :=
  perform (Stat identityFile);;
  if identity_exists w then
    perform (ReadFile identityFile);;
    match identity_read w with
    | inr err => Fatalf ("Could not read manifest_id.txt: " +:+ errorString err)
    | inl data => mret (strings.TrimSpace data)
    end
  else mret EmptyString.

(** [findAndRenameFiles]: the walk over [static] renames the images; an
    error of a rename ends the walk and the process. *)
Definition findAndRenameFiles (w : world) : action unit :=
  perform (WalkDir "static");;
  match renamed w with
  | Some err => Fatalf ("Error walking the path: " +:+ errorString err)
  | None => mret tt
  end.

(** [addImagesToCDN]: read [cdn.json], add the images found under
    [static], write the file back. *)
Definition addImagesToCDN (w : world) : action unit :=
  perform (ReadFile "cdn.json");;
  match cdn_read w with
  | inr err => Fatalf ("Error reading cdn.json: " +:+ errorString err)
  | inl _ =>
    perform (WalkDir "static");;
    perform (WriteFile "cdn.json" (cdn_updated w));;
    match cdn_written w with
    | Some err => Fatalf ("Error writing cdn.json: " +:+ errorString err)
    | None => mret tt
    end
  end.

(** Steps 4 to 8, and the deferred calls of [main]. *)
Definition refresh (w : world) (newManifestID : string) : action unit :=
  perform (Log ("Manifest is new or changed. New ID: " +:+ newManifestID));;
  perform (WriteFile identityFile newManifestID);;
  match identity_written w with
  | Some err => Fatalf ("Could not write to manifest_id.txt: " +:+ errorString err)
  | None =>
  perform (Log ("New manifest ID " +:+ newManifestID +:+ " has been saved."));;
  perform (CreateTemp "dir-file_*.txt");;
  match temp_dir_file w with
  | inr err => Fatalf ("Error creating temporary file: " +:+ errorString err)
  | inl dirFile =>
  perform (WriteTemp dirFile ("game/csgo/pak01_dir.vpk" +:+ nl));;
  match dir_file_written w with
  | Some err => Fatalf ("Error writing to dir-file.txt: " +:+ errorString err)
  | None =>
  perform (FlushTemp dirFile);;
  match dir_file_flushed w with
  | Some err => Fatalf ("Error flushing to dir-file.txt: " +:+ errorString err)
  | None =>
  perform (Log "Collecting vpk_dir file...");;
  dirResult ← cmdrunner.RunCommand "tools/DepotDownloader"
                (depot ["-filelist"; dirFile]) (dir_fetch w);
  match cmdrunner.Error dirResult with
  | Some err =>
    Fatalf ("DepotDownloader encountered an error while processing filelist: "
            +:+ errorString err)
  | None =>
  perform (CreateTemp "filelist_*.txt");;
  match temp_file_list w with
  | inr err => Fatalf ("Error creating temporary file: " +:+ errorString err)
  | inl fileList =>
  generated ← listing.GenerateVPKList (vpk_list w) VPKDir ImageDir BaseDir fileList;
  match generated with
  | Some err => Fatalf ("Failed to generate VPK list: " +:+ errorString err)
  | None =>
  downloadResult ← cmdrunner.PipeOutput "tools/DepotDownloader"
                     (depot ["-filelist"; fileList]) (segment_fetch w);
  match downloadResult with
  | Some err => Fatalf ("DepotDownloader encountered an error: " +:+ errorString err)
  | None =>
  perform (Log "Downloading files...");;
  perform (Log "Finished downloading files.");;
  extractResult ← cmdrunner.PipeOutput "tools/Source2Viewer-CLI"
                    ["-i"; VPKDir; "-o"; "static"; "-d"; "--vpk_filepath"; ImageDir]
                    (extraction w);
  match extractResult with
  | Some err => Fatalf ("Source2Viewer-CLI encountered an error: " +:+ errorString err)
  | None =>
  perform (Log "Extracting files...");;
  perform (Log "Renaming files...");;
  findAndRenameFiles w;;
  perform (Log "Adding images to CDN list...");;
  addImagesToCDN w;;
  perform (CloseFile fileList);;
  perform (Remove fileList);;
  perform (CloseFile dirFile);;
  perform (Remove dirFile)
  end end end end end end end end end.

(** The comparison gate of line 78. *)
Definition unchanged (trackedID newManifestID : string) : bool :=
  bool_decide (trackedID = newManifestID) && negb (bool_decide (trackedID = EmptyString)).

Definition main (w : world) : action unit :=
  checkDependencies w;;
  newManifestID ← observeIdentity w;
  trackedID ← readTrackedID w;
  if unchanged trackedID newManifestID then
    perform (Log "Manifest ID matches the current ID. Exiting.")
  else refresh w newManifestID.

End orchestrator.

(** ** The file list, byte for byte

    [WriteVPKList] (internal/parser/parser.go, lines 187-191) writes each
    path and a newline, in the order of the slice.  [written_list] is what
    [outFile] holds once every write has succeeded. *)

Definition written_list (vpks : list string) : string :=
  foldr (λ vpk rest, (vpk +:+ nl) +:+ rest) EmptyString vpks.

(** ** File and network operations

    The provisioning of the tools and the two walks over [static] return
    their errors to the caller.  A computation of theirs is the list of the
    operations it performs, in order, together with the value it returns.
    Closing a file or a response body is not part of the list. *)

Inductive op : Type :=
| Printf (msg : string)
| LogAccessError (path : string) (err : error)
| MkdirAll (path : string) (perm : Z)
| StatPath (path : string)
| Chmod (path : string) (mode : Z)
| HTTPGet (url : string)
| ReadAll
| OpenEntry (name : string)
| Create (path : string)
| Copy (name path : string)
| Rename (oldpath newpath : string).

Global Instance op_eq_dec : EqDecision op.
Proof. solve_decision. Defined.

Definition traced (A : Type) : Type := list op * A.

Definition emit (o : op) : traced unit := ([o], tt).

Global Instance traced_ret : MRet traced := λ A a, ([], a).

Global Instance traced_bind : MBind traced :=
  λ A B k m, let '(later, b) := k m.2 in (m.1 ++ later, b).

(** What [os.Stat] answers. *)
Inductive stat_result : Type :=
| NotExist
| StatFailed (err : error)
| Info (isDir : bool).

(** ** Package dependencies (internal/dependencies/collect_tools.go) *)

Module dependencies.

Record Tool : Type := {
  Name : string;
  RepoOwner : string;
  RepoName : string;
  AssetNameSuffix : string;
  ExecutableName : string
}.

Definition tools : list Tool :=
  [ {| Name := "DepotDownloader";
       RepoOwner := "SteamRE";
       RepoName := "DepotDownloader";
       AssetNameSuffix := "DepotDownloader-linux-x64.zip";
       ExecutableName := "DepotDownloader" |};
    {| Name := "ValveResourceFormat";
       RepoOwner := "ValveResourceFormat";
       RepoName := "ValveResourceFormat";
       AssetNameSuffix := "cli-linux-x64.zip";
       ExecutableName := "Source2Viewer-CLI" |} ].

(** The JSON of a release, as far as it is decoded: the fields are named
    by their JSON keys. *)
Record Asset : Type := {
  asset_name : string;
  browser_download_url : string
}.

Record Release : Type := { assets : list Asset }.

(** [checkOS] and [checkGOARCH], of [runtime.GOOS] and [runtime.GOARCH]. *)
Definition checkOS (GOOS : string) : string :=
  if decide (GOOS = "windows") then "windows"
  else if decide (GOOS = "darwin") then "macos"
  else "linux".

Definition checkGOARCH (GOARCH : string) : string :=
  if decide (GOARCH = "amd64") then "x64"
  else if decide (GOARCH = "arm64") then "arm64"
  else if decide (GOARCH = "arm") then "arm"
  else "x64".

(** [fileExists]: there is a file, and it is no directory. *)
Definition fileExists (st : stat_result) : bool :=
  match st with
  | Info isDir => negb isDir
  | _ => false
  end.

(** One file of the archive, with the answers to the calls made for it. *)
Record zip_file : Type := {
  file_name : string;              (* file.Name *)
  file_is_dir : bool;              (* file.FileInfo().IsDir() *)
  dirs_made : option error;        (* os.MkdirAll(filepath.Dir(outPath), os.ModePerm) *)
  opened : option error;           (* file.Open() *)
  created : option error;          (* os.Create(outPath) *)
  copied : option error;           (* io.Copy(outFile, rc) *)
  made_executable : option error   (* os.Chmod(outPath, 0755) *)
}.

(** The body of the response that holds the archive. *)
Record archive : Type := {
  body_read : option error;             (* io.ReadAll(zipReader) *)
  zip_files : list zip_file + error     (* zip.NewReader and zr.File *)
}.

(** Lines 184-233: the body of the loop of [extractZip], for one file. *)
Definition extractFile (toolsDir : string) (file : zip_file) : traced (option error) :=
  if file_is_dir file then mret None
  else
    let outPath := filepath.Join [toolsDir; file_name file] in
    if negb (strings.HasPrefix outPath
               (filepath.Clean toolsDir +:+ String filepath.Separator EmptyString))
    then mret (Some (ErrNew ("illegal file path: " +:+ outPath)))
    else
      emit (MkdirAll (filepath.Dir outPath) 511);;
      match dirs_made file with
      | Some err =>
        mret (Some (ErrWrap ("failed to create directories for " +:+ outPath +:+ ": ") err))
      | None =>
        emit (OpenEntry (file_name file));;
        match opened file with
        | Some err =>
          mret (Some (ErrWrap ("failed to open zip file " +:+ file_name file +:+ ": ") err))
        | None =>
          emit (Create outPath);;
          match created file with
          | Some err =>
            mret (Some (ErrWrap ("failed to create file " +:+ outPath +:+ ": ") err))
          | None =>
            emit (Copy (file_name file) outPath);;
            match copied file with
            | Some err =>
              mret (Some (ErrWrap ("failed to extract file " +:+ outPath +:+ ": ") err))
            | None =>
              let finish :=
                emit (Printf ("Extracted " +:+ file_name file +:+ " to " +:+ outPath));;
                mret None in
              if decide (filepath.Base outPath = "DepotDownloader") then
                emit (Chmod outPath 493);;
                match made_executable file with
                | Some err =>
                  mret (Some (ErrWrap ("failed to set executable permissions for "
                                       +:+ outPath +:+ ": ") err))
                | None => finish
                end
              else finish
            end
          end
        end
      end.

(** The loop: it ends at the first file that fails. *)
Fixpoint extractFiles (toolsDir : string) (files : list zip_file) : traced (option error) :=
  match files with
  | [] => mret None
  | file :: rest =>
    failed ← extractFile toolsDir file;
    match failed with
    | Some err => mret (Some err)
    | None => extractFiles toolsDir rest
    end
  end.

(** [extractZip] *)
Definition extractZip (zipReader : archive) (toolsDir : string) : traced (option error) :=
  emit ReadAll;;
  match body_read zipReader with
  | Some err => mret (Some (ErrWrap "failed to read zip data: " err))
  | None =>
    match zip_files zipReader with
    | inr err => mret (Some (ErrWrap "failed to create zip reader: " err))
    | inl files => extractFiles toolsDir files
    end
  end.

(** What the world answers to [downloadAndInstallTool]. *)
Record download : Type := {
  request_made : option error;        (* http.NewRequest *)
  release_status : Z + error;         (* client.Do(req), resp.StatusCode *)
  release_decoded : Release + error;  (* json.NewDecoder(resp.Body).Decode(&release) *)
  asset_status : Z + error;           (* http.Get(assetURL), assetResp.StatusCode *)
  asset_body : archive                (* assetResp.Body *)
}.

Definition StatusOK : Z := 200.

(** Lines 107-108: the suffix of the asset for this platform. *)
Definition platformSuffix (GOOS GOARCH : string) (tool : Tool) : string :=
  strings.ReplaceAll
    (strings.ReplaceAll (AssetNameSuffix tool) "linux" (checkOS GOOS))
    "x64" (checkGOARCH GOARCH).

(** Lines 134-140: the download URL of the first asset whose name has the
    suffix, empty when there is none. *)
Fixpoint findAsset (release_assets : list Asset) (suffix : string) : string :=
  match release_assets with
  | [] => EmptyString
  | asset :: rest =>
    if strings.HasSuffix (asset_name asset) suffix then browser_download_url asset
    else findAsset rest suffix
  end.

Definition releaseURL (tool : Tool) : string :=
  "https://api.github.com/repos/" +:+ RepoOwner tool +:+ "/" +:+ RepoName tool
  +:+ "/releases/latest".

(** [downloadAndInstallTool] *)
Definition downloadAndInstallTool (GOOS GOARCH : string) (w : download)
    (tool : Tool) (toolsDir : string) : traced (option error) :=
  let suffix := platformSuffix GOOS GOARCH tool in
  match request_made w with
  | Some err => mret (Some (ErrWrap "failed to create request: " err))
  | None =>
    emit (HTTPGet (releaseURL tool));;
    match release_status w with
    | inr err => mret (Some (ErrWrap "failed to fetch latest release: " err))
    | inl status =>
      if decide (status ≠ StatusOK) then
        mret (Some (ErrNew ("failed to fetch latest release: status code "
                            +:+ fmt.fmtInteger 0 status)))
      else
        match release_decoded w with
        | inr err => mret (Some (ErrWrap "failed to decode release JSON: " err))
        | inl release =>
          let assetURL := findAsset (assets release) suffix in
          if decide (assetURL = EmptyString) then
            mret (Some (ErrNew ("asset with suffix " +:+ suffix
                                +:+ " not found in latest release")))
          else
            emit (Printf ("Downloading " +:+ Name tool +:+ " from " +:+ assetURL));;
            emit (HTTPGet assetURL);;
            match asset_status w with
            | inr err => mret (Some (ErrWrap "failed to download asset: " err))
            | inl assetStatus =>
              if decide (assetStatus ≠ StatusOK) then
                mret (Some (ErrNew ("failed to download asset: status code "
                                    +:+ fmt.fmtInteger 0 assetStatus)))
              else
                emit (Printf ("Extracting " +:+ Name tool +:+ "..."));;
                failed ← extractZip (asset_body w) toolsDir;
                match failed with
                | Some err => mret (Some (ErrWrap "failed to extract zip: " err))
                | None => mret None
                end
            end
        end
    end
  end.

(** What the world answers to [EnsureTools]: the platform, and for each
    tool the answers to the calls made for it. *)
Record tool_answers : Type := {
  stat : stat_result;              (* os.Stat(execPath) *)
  fetched : download;              (* downloadAndInstallTool(tool, toolsDir) *)
  permitted : option error         (* os.Chmod(execPath, 0755) *)
}.

Record provisioning : Type := {
  GOOS : string;
  GOARCH : string;
  tools_dir_made : option error;   (* os.MkdirAll(toolsDir, 0755) *)
  answers : Tool → tool_answers
}.

(** Lines 55-66: the first loop of [EnsureTools]. *)
Fixpoint ensureEach (w : provisioning) (toolsDir : string) (ts : list Tool)
  : traced (option error) :=
  match ts with
  | [] => mret None
  | tool :: rest =>
    let execPath := filepath.Join [toolsDir; ExecutableName tool] in
    emit (StatPath execPath);;
    failed ←
      (if negb (fileExists (stat (answers w tool))) then
         emit (Printf ("Tool " +:+ Name tool +:+ " not found. Downloading..."));;
         failed ← downloadAndInstallTool (GOOS w) (GOARCH w) (fetched (answers w tool))
                    tool toolsDir;
         match failed with
         | Some err =>
           mret (Some (ErrWrap ("failed to download " +:+ Name tool +:+ ": ") err))
         | None =>
           emit (Printf ("Tool " +:+ Name tool
                         +:+ " downloaded and installed successfully."));;
           mret None
         end
       else
         emit (Printf ("Tool " +:+ Name tool +:+ " already exists. Skipping download."));;
         mret None);
    match failed with
    | Some err => mret (Some err)
    | None => ensureEach w toolsDir rest
    end
  end.

(** Lines 69-74: the second loop. *)
Fixpoint permitEach (w : provisioning) (toolsDir : string) (ts : list Tool)
  : traced (option error) :=
  match ts with
  | [] => mret None
  | tool :: rest =>
    let execPath := filepath.Join [toolsDir; ExecutableName tool] in
    emit (Chmod execPath 493);;
    match permitted (answers w tool) with
    | Some err =>
      mret (Some (ErrWrap ("failed to set executable permissions for "
                           +:+ Name tool +:+ ": ") err))
    | None => permitEach w toolsDir rest
    end
  end.

(** [EnsureTools] *)
Definition EnsureTools (w : provisioning) : traced (option error) :=
  let toolsDir := "tools" in
  emit (MkdirAll toolsDir 493);;
  match tools_dir_made w with
  | Some err => mret (Some (ErrWrap "failed to create tools directory: " err))
  | None =>
    failed ← ensureEach w toolsDir tools;
    match failed with
    | Some err => mret (Some err)
    | None => permitEach w toolsDir tools
    end
  end.

End dependencies.

(** ** The two walks over [static] (cmd/main.go, lines 180-252) *)

Module images.

(** [fileExists] of cmd/main.go. *)
Definition fileExists (st : stat_result) : bool :=
  match st with
  | NotExist => false
  | StatFailed _ => false
  | Info isDir => negb isDir
  end.

(** One call of the function [filepath.WalkDir] is given: the path, the
    directory entry and the error it is called with, and the answer to the
    call of [os.Rename] it may make. *)
Record visit : Type := {
  visit_path : string;            (* path *)
  visit_name : string;            (* file.Name() *)
  visit_is_dir : bool;            (* file.IsDir() *)
  visit_error : option error;     (* err *)
  rename_done : option error      (* os.Rename(path, ...) *)
}.

(** Lines 197-213: the function [findAndRenameFiles] walks with. *)
Definition renameFile (v : visit) : traced (option error) :=
  match visit_error v with
  | Some err => emit (LogAccessError (visit_path v) err);; mret None
  | None =>
    if strings.HasSuffix (visit_name v) ".png" then
      let newName := strings.ReplaceAll (visit_name v) "_png" "" in
      emit (Rename (visit_path v)
              (filepath.Join [filepath.Dir (visit_path v); newName]));;
      mret (rename_done v)
    else mret None
  end.

(** [filepath.WalkDir] ends the walk at the first call that returns an
    error, and returns that error. *)
Fixpoint renameFiles (visits : list visit) : traced (option error) :=
  match visits with
  | [] => mret None
  | v :: rest =>
    failed ← renameFile v;
    match failed with
    | Some err => mret (Some err)
    | None => renameFiles rest
    end
  end.

Definition baseURL : string := "https://cdn.jsdelivr.net/gh/SkinDelta/go-cs2-cdn@main/".

Section published.

(** [strings.ToLower], whose Unicode tables are not modelled. *)
Variable ToLower : string → string.

(** Lines 233-242: the function [addImagesToCDN] walks with, as the
    change it makes to [entries]. *)
Definition addImage (entries : gmap string string) (v : visit) : gmap string string :=
  match visit_error v with
  | Some _ => entries
  | None =>
    if negb (visit_is_dir v) && strings.HasSuffix (ToLower (visit_name v)) ".png"
    then <[visit_path v := baseURL +:+ visit_path v]> entries
    else entries
  end.

(** The entries after the walk; the function never returns an error, so
    the walk visits every entry. *)
Definition addImages (entries : gmap string string) (visits : list visit)
  : gmap string string :=
  foldl addImage entries visits.

End published.

End images.

(** * Notions used in the statements

    None of these belongs to the program: they name the sets of strings,
    lines and effects that the properties below talk about. *)

Import orchestrator.

(** ** Byte strings *)

(** Does every byte of the string satisfy [p]? *)
Fixpoint all_bytes (p : ascii → bool) (s : string) : bool :=
  match s with
  | EmptyString => true
  | String c s' => p c && all_bytes p s'
  end.

Definition other_than (sep : ascii) (c : ascii) : bool := negb (bool_decide (c = sep)).

Definition is_digit (c : ascii) : bool := in_range 48 57 (byte_val c).

(** The bytes of a formatted integer: digits, after a minus sign if the
    number is negative. *)
Definition is_digit_or_minus (c : ascii) : bool :=
  is_digit c || bool_decide (c = "-"%char).

(** The value of a string of digits, read from the left as [Atoi] does. *)
Fixpoint dec_value (n : N) (s : string) : N :=
  match s with
  | EmptyString => n
  | String c s' => dec_value (n * 10 + (byte_val c - 48))%N s'
  end.

(** Reading a formatted integer back: the sign, then the digits. *)
Definition read_back (s : string) : Z :=
  match s with
  | EmptyString => 0
  | String c rest =>
    if bool_decide (c = "-"%char) then - Z.of_N (dec_value 0 rest)
    else Z.of_N (dec_value 0 s)
  end.

(** ** Lines and paths *)

(** The three conditions under which the loop of [ParseVPKDir] moves on
    to the next line before it looks at the entry path. *)
Definition skipped (line : string) : Prop :=
  strings.HasPrefix line "---" = true
  ∨ strings.TrimSpace line = EmptyString
  ∨ (length (strings.Fields line) < 5)%nat.

(** An entry line: no marker line and not blank, with the entry path, the
    token after it and at least three more fields. *)
Definition entry_line (line filePath token : string) (padding : list string) : Prop :=
  strings.HasPrefix line "---" = false
  ∧ strings.TrimSpace line ≠ EmptyString
  ∧ strings.Fields line = filePath :: token :: padding
  ∧ (3 ≤ length padding)%nat.

Definition no_newline (line : string) : Prop :=
  all_bytes (other_than bufio.newline) line = true.

(** The file whose lines are [lines], each ended by a newline. *)
Definition listing_of (lines : list string) : string :=
  foldr (λ line rest, line +:+ String bufio.newline rest) EmptyString lines.

(** The elements of a cleaned path, and the relation "is an ancestor
    directory of (or the same as)" between two paths. *)
Definition path_elements (path : string) : list string :=
  strings.Split1 filepath.Separator (filepath.Clean path).

Definition ancestor_directory (dir path : string) : Prop :=
  path_elements dir `prefix_of` path_elements path.

(** A plain name: one proper path element. *)
Definition plain (name : string) : Prop :=
  all_bytes (other_than filepath.Separator) name = true
  ∧ filepath.is_empty name = false
  ∧ filepath.is_dot name = false
  ∧ filepath.is_dotdot name = false.

(** The elements [Clean] keeps of a directory. *)
Definition kept (baseDir : string) : list string :=
  if filepath.is_empty baseDir then []
  else filepath.clean_elems (filepath.is_rooted baseDir) []
         (strings.Split1 filepath.Separator baseDir).

(** ** Traces *)

(** [always P m]: every effect [m] performs satisfies [P]. *)
Definition always {A : Type} (P : effect → Prop) (m : action A) : Prop :=
  Forall P m.1.

(** The effects a run may perform up to the comparison gate: logging, the
    provisioning of the tools, the manifest-only fetch, and looking for
    and reading files.  Nothing is written, no temporary file is created,
    no other process is started. *)
Definition before_gate (e : effect) : Prop :=
  match e with
  | Log _ | Exit _ | EnsureTools | Glob _ | Stat _ | ReadFile _ => True
  | StartProcess d name args =>
    d = Some 60 ∧ name = "tools/DepotDownloader" ∧ args = depot ["-manifest-only"]
  | _ => False
  end.

(** The identity file after one effect, and after a trace. *)
Definition identity_step (stored : option string) (e : effect) : option string :=
  match e with
  | WriteFile path data => if decide (path = identityFile) then Some data else stored
  | Remove path => if decide (path = identityFile) then None else stored
  | _ => stored
  end.

Definition identity_after (trace : list effect) (stored : option string)
  : option string :=
  foldl identity_step stored trace.

(** Past the comparison the identity file is written once, with the new
    identity. *)
Definition writes_only (newManifestID : string) (e : effect) : Prop :=
  ∀ data, e = WriteFile identityFile data → data = newManifestID.

(** The processes a trace starts, each with its deadline in seconds. *)
Definition process_of (e : effect) : option (option Z * string * list string) :=
  match e with
  | StartProcess d name args => Some (d, name, args)
  | _ => None
  end.

Definition processes (trace : list effect) : list (option Z * string * list string) :=
  omap process_of trace.

(** Which processes [main] starts, and under which deadline. *)
Definition deadline_rule (w : world) (e : effect) : Prop :=
  match e with
  | StartProcess d name args =>
    (d = Some 60
     ∧ name = "tools/DepotDownloader"
     ∧ (args = depot ["-manifest-only"]
        ∨ ∃ dirFile, temp_dir_file w = inl dirFile
                     ∧ args = depot ["-filelist"; dirFile]))
    ∨ (d = None
       ∧ ((name = "tools/Source2Viewer-CLI" ∧ args = ["-i"; VPKDir; "--vpk_dir"])
          ∨ (name = "tools/DepotDownloader"
             ∧ ∃ fileList, temp_file_list w = inl fileList
                           ∧ args = depot ["-filelist"; fileList])
          ∨ (name = "tools/Source2Viewer-CLI"
             ∧ args = ["-i"; VPKDir; "-o"; "static"; "-d"; "--vpk_filepath"; ImageDir])))
  | _ => True
  end.

(** ** Listings and worlds to evaluate the program on *)

Definition listing3 : string :=
  "--- header ---" +:+ nl +:+
  "a/b/img1.vtex crc=0x1 metadatasz=0 fnumber=44 ofs=0x10 sz=100" +:+ nl +:+
  "a/b/img2.vtex crc=0x2 metadatasz=0 fnumber=44 ofs=0x80 sz=100" +:+ nl +:+
  "c/d/x.vtex crc=0x3 metadatasz=0 fnumber=7 ofs=0x10 sz=100" +:+ nl.

Definition listing_with_noise : string :=
  "--- a/b/ignored.vtex crc=0 metadatasz=0 fnumber=9 ofs=0 sz=1" +:+ nl +:+
  "a/b/img1.vtex crc=0x1 metadatasz=0 fnumber=44 ofs=0x10 sz=100" +:+ nl +:+
  "a/b/short.vtex fnumber=5" +:+ nl +:+
  "   " +:+ nl.

Definition listing_without_noise : string :=
  "--- a/b/ignored.vtex crc=0 metadatasz=0 fnumber=9 ofs=0 sz=1" +:+ nl +:+
  "a/b/img1.vtex crc=0x1 metadatasz=0 fnumber=44 ofs=0x10 sz=100" +:+ nl +:+
  "   " +:+ nl.

Definition listing_with_zero : string :=
  "a/b/img0.vtex crc=0x1 metadatasz=0 fnumber=0 ofs=0x10 sz=100" +:+ nl +:+
  "a/b/img1.vtex crc=0x1 metadatasz=0 fnumber=44 ofs=0x10 sz=100" +:+ nl +:+
  "a/b/img2.vtex crc=0x2 metadatasz=0 fnumber=44 ofs=0x80 sz=100" +:+ nl.

(** The listing of the round-trip property: two entries under [a/b] in
    segment 44 and one entry elsewhere in segment 7, five fields each. *)
Definition roundtrip_listing : string :=
  "a/b/img1.vtex fnumber=44 crc=0x1 ofs=0x10 sz=100" +:+ nl +:+
  "a/b/img2.vtex fnumber=44 crc=0x2 ofs=0x80 sz=100" +:+ nl +:+
  "c/d/x.vtex fnumber=7 crc=0x3 ofs=0x10 sz=100" +:+ nl.

Definition listing_sibling : string :=
  "a/bc/x.vtex fnumber=9 crc=0x1 ofs=0x10 sz=100" +:+ nl.

(** Two worlds in which every call succeeds.  In the first the identity
    file holds the identity of the manifest; in the second it holds an
    older one. *)
Definition succeeded : process_end :=
  {| written_out := EmptyString; written_err := EmptyString;
     run_error := None; elapsed := 5 |}.

Definition econ_listing : string :=
  "panorama/images/econ/a.vtex_c crc=0x1 metadatasz=0 fnumber=44 ofs=0x10 sz=100" +:+ nl +:+
  "panorama/images/econ/b.vtex_c crc=0x2 metadatasz=0 fnumber=187 ofs=0x10 sz=100" +:+ nl +:+
  "sounds/c.vsnd_c crc=0x3 metadatasz=0 fnumber=7 ofs=0x10 sz=100" +:+ nl.

Definition world_with (storedID : string) : world :=
  {| tools := None;
     manifest_fetch := succeeded;
     manifest_glob := inl ["data/manifest_2347770_5002689339188222421.txt"];
     identity_exists := true;
     identity_read := inl (storedID +:+ nl);
     identity_written := None;
     temp_dir_file := inl "/tmp/dir-file_1.txt";
     dir_file_written := None;
     dir_file_flushed := None;
     dir_fetch := succeeded;
     temp_file_list := inl "/tmp/filelist_2.txt";
     vpk_list :=
       {| listing.temp_manifest := inl "/tmp/vpkdir_3.txt";
          listing.dump :=
            {| written_out := econ_listing; written_err := EmptyString;
               run_error := None; elapsed := 5 |};
          listing.list_written := None |};
     segment_fetch := cmdrunner.Waited None;
     extraction := cmdrunner.Waited None;
     renamed := None;
     cdn_read := inl "{}";
     cdn_updated := "{}";
     cdn_written := None |}.

Definition world_unchanged : world := world_with "5002689339188222421".

Definition world_changed : world := world_with "4000000000000000000".

(** ** What a line of the listing names

    The line is not skipped, its entry path matches the prefix, and the
    first of its later fields that starts with [fnumber=] holds the decimal
    number [n], which is not zero. *)

Definition names_segment (requiredPrefix line : string) (n : Z) : Prop :=
  ¬ skipped line
  ∧ ∃ filePath before field after,
      strings.Fields line = filePath :: before ++ field :: after
      ∧ parser.matches_prefix filePath requiredPrefix = true
      ∧ Forall (λ f, strings.HasPrefix f "fnumber=" = false) before
      ∧ strings.HasPrefix field "fnumber=" = true
      ∧ strconv.Atoi (strings.TrimPrefix field "fnumber=") = inl n
      ∧ n ≠ 0.

(** The lines of [listing3] in another order, one of them twice. *)
Definition listing3_shuffled : string :=
  "c/d/x.vtex crc=0x3 metadatasz=0 fnumber=7 ofs=0x10 sz=100" +:+ nl +:+
  "a/b/img2.vtex crc=0x2 metadatasz=0 fnumber=44 ofs=0x80 sz=100" +:+ nl +:+
  "--- header ---" +:+ nl +:+
  "a/b/img1.vtex crc=0x1 metadatasz=0 fnumber=44 ofs=0x10 sz=100" +:+ nl +:+
  "c/d/x.vtex crc=0x3 metadatasz=0 fnumber=7 ofs=0x10 sz=100" +:+ nl.

Definition listing3_lines : list string :=
  [ "--- header ---";
    "a/b/img1.vtex crc=0x1 metadatasz=0 fnumber=44 ofs=0x10 sz=100";
    "a/b/img2.vtex crc=0x2 metadatasz=0 fnumber=44 ofs=0x80 sz=100";
    "c/d/x.vtex crc=0x3 metadatasz=0 fnumber=7 ofs=0x10 sz=100" ].

Definition listing3_shuffled_lines : list string :=
  [ "c/d/x.vtex crc=0x3 metadatasz=0 fnumber=7 ofs=0x10 sz=100";
    "a/b/img2.vtex crc=0x2 metadatasz=0 fnumber=44 ofs=0x80 sz=100";
    "--- header ---";
    "a/b/img1.vtex crc=0x1 metadatasz=0 fnumber=44 ofs=0x10 sz=100";
    "c/d/x.vtex crc=0x3 metadatasz=0 fnumber=7 ofs=0x10 sz=100" ].

(** A line of 65536 bytes. *)
Definition long_line : string := Nat.iter 16 (λ s, s +:+ s) "a".


(** The world of the run that follows [world_changed]: the identity file
    holds what that run has written. *)
Definition world_second_run : world :=
  {| tools := None;
     manifest_fetch := succeeded;
     manifest_glob := inl ["data/manifest_2347770_5002689339188222421.txt"];
     identity_exists := true;
     identity_read := inl "5002689339188222421";
     identity_written := None;
     temp_dir_file := inl "/tmp/dir-file_1.txt";
     dir_file_written := None;
     dir_file_flushed := None;
     dir_fetch := succeeded;
     temp_file_list := inl "/tmp/filelist_2.txt";
     vpk_list := vpk_list world_changed;
     segment_fetch := cmdrunner.Waited None;
     extraction := cmdrunner.Waited None;
     renamed := None;
     cdn_read := inl "{}";
     cdn_updated := "{}";
     cdn_written := None |}.

(** ** Operations *)

(** [ensures P m]: every operation [m] performs satisfies [P]. *)
Definition ensures {A : Type} (P : op → Prop) (m : traced A) : Prop :=
  Forall P m.1.

(** [path] lies inside [dir]: its elements are those of the cleaned [dir],
    followed by one or more proper names. *)
Definition inside (dir path : string) : Prop :=
  ∃ names,
    names ≠ []
    ∧ Forall plain names
    ∧ strings.Split1 filepath.Separator path = path_elements dir ++ names.

(** The files an operation creates, writes or makes executable lie inside
    [dir]. *)
Definition within (dir : string) (o : op) : Prop :=
  match o with
  | Create path | Copy _ path | Chmod path _ => inside dir path
  | _ => True
  end.

(** The stack of [Clean]: proper names on top of a run of [..]. *)
Inductive stack_ok : list string → Prop :=
| stack_ups (k : nat) : stack_ok (replicate k "..")
| stack_push (e : string) (out : list string) :
    plain e → stack_ok out → stack_ok (e :: out).

(** An archive with the executable, a file in a directory of its own, the
    entry of that directory, and a file whose name leads out of the
    directory the archive is unpacked in. *)
Definition unpacked (name : string) (isDir : bool) : dependencies.zip_file :=
  {| dependencies.file_name := name;
     dependencies.file_is_dir := isDir;
     dependencies.dirs_made := None;
     dependencies.opened := None;
     dependencies.created := None;
     dependencies.copied := None;
     dependencies.made_executable := None |}.

Definition sample_archive : dependencies.archive :=
  {| dependencies.body_read := None;
     dependencies.zip_files :=
       inl [ unpacked "DepotDownloader" false;
             unpacked "lib/" true;
             unpacked "lib/steam.so" false;
             unpacked "../evil" false;
             unpacked "README.md" false ] |}.

(** Operations that fetch or unpack something. *)
Definition installs (o : op) : Prop :=
  match o with
  | HTTPGet _ | ReadAll | OpenEntry _ | Create _ | Copy _ _ => True
  | _ => False
  end.

(** A release with two assets for Linux, and the answers of a download
    that succeeds. *)
Definition sample_release : dependencies.Release :=
  {| dependencies.assets :=
       [ {| dependencies.asset_name := "DepotDownloader-framework.zip";
            dependencies.browser_download_url := "https://example.org/framework.zip" |};
         {| dependencies.asset_name := "DepotDownloader-linux-x64.zip";
            dependencies.browser_download_url := "https://example.org/linux-x64.zip" |};
         {| dependencies.asset_name := "old-DepotDownloader-linux-x64.zip";
            dependencies.browser_download_url := "https://example.org/old.zip" |} ] |}.

Definition sample_download : dependencies.download :=
  {| dependencies.request_made := None;
     dependencies.release_status := inl 200;
     dependencies.release_decoded := inl sample_release;
     dependencies.asset_status := inl 200;
     dependencies.asset_body := sample_archive |}.

(** A machine on which both tools are installed. *)
Definition provisioned : dependencies.provisioning :=
  {| dependencies.GOOS := "linux";
     dependencies.GOARCH := "amd64";
     dependencies.tools_dir_made := None;
     dependencies.answers := λ _,
       {| dependencies.stat := Info false;
          dependencies.fetched := sample_download;
          dependencies.permitted := None |} |}.

(** Operations that unpack an archive. *)
Definition unpacks (o : op) : Prop :=
  match o with
  | ReadAll | OpenEntry _ | Create _ | Copy _ _ | MkdirAll _ _ | Chmod _ _ => True
  | _ => False
  end.

(** The first of the two tools. *)
Definition depot_downloader : dependencies.Tool :=
  {| dependencies.Name := "DepotDownloader";
     dependencies.RepoOwner := "SteamRE";
     dependencies.RepoName := "DepotDownloader";
     dependencies.AssetNameSuffix := "DepotDownloader-linux-x64.zip";
     dependencies.ExecutableName := "DepotDownloader" |}.

(** ** Images *)

(** Does [addImagesToCDN] take the entry for an image? *)
Definition is_image (ToLower : string → string) (v : images.visit) : bool :=
  match images.visit_error v with
  | Some _ => false
  | None =>
    negb (images.visit_is_dir v)
    && strings.HasSuffix (ToLower (images.visit_name v)) ".png"
  end.

(** Is [path] the path of an image of the walk? *)
Definition published (ToLower : string → string) (visits : list images.visit)
    (path : string) : bool :=
  existsb (λ v, is_image ToLower v && bool_decide (images.visit_path v = path)) visits.

(** An image as the extraction leaves it. *)
Definition extracted_image : images.visit :=
  {| images.visit_path := "static/panorama/images/econ/ak47_png.png";
     images.visit_name := "ak47_png.png";
     images.visit_is_dir := false;
     images.visit_error := None;
     images.rename_done := None |}.

(** ** The stages past the comparison *)

(** The name of a temporary file that could be created. *)
Definition temp_name (created : string + error) : string :=
  match created with
  | inl name => name
  | inr _ => EmptyString
  end.



(** The only file a failing run removes is the temporary listing. *)
Definition removes_listing_only (w : world) (e : effect) : Prop :=
  ∀ path, e = Remove path → listing.temp_manifest (vpk_list w) = inl path.

(** [tidy w m]: when [m] ends the process it has removed no temporary file
    but the listing; when it returns it has removed the two temporary files
    of [main]. *)
Definition tidy {A : Type} (w : world) (m : action A) : Prop :=
  (m.2 = None → Forall (removes_listing_only w) m.1)
  ∧ (is_Some m.2 →
     Remove (temp_name (temp_file_list w)) ∈ m.1
     ∧ Remove (temp_name (temp_dir_file w)) ∈ m.1).

(** ** Counted lines *)

(** Does the loop of [ParseVPKDir] count the line as matched? *)
Definition counted (requiredPrefix line : string) : bool :=
  negb (strings.HasPrefix line "---")
  && negb (bool_decide (strings.TrimSpace line = EmptyString))
  && negb (length (strings.Fields line) <? 5)%nat
  && match strings.Fields line with
     | filePath :: _ => parser.matches_prefix filePath requiredPrefix
     | [] => false
     end.

(** A machine without the tools, on which the release of the first tool
    cannot be fetched. *)
Definition unreachable : dependencies.provisioning :=
  {| dependencies.GOOS := "linux";
     dependencies.GOARCH := "amd64";
     dependencies.tools_dir_made := None;
     dependencies.answers := λ _,
       {| dependencies.stat := NotExist;
          dependencies.fetched :=
            {| dependencies.request_made := None;
               dependencies.release_status := inl 404;
               dependencies.release_decoded := inl sample_release;
               dependencies.asset_status := inl 200;
               dependencies.asset_body := sample_archive |};
          dependencies.permitted := None |} |}.

(** * The library models on the examples of the Go documentation *)

Example Fields_ascii :
  strings.Fields "  a/b/x.vtex  crc=1	fnumber=44 " = ["a/b/x.vtex"; "crc=1"; "fnumber=44"].
Proof. reflexivity. Qed.

Example Fields_nbsp :
  strings.Fields (String "a" (String "194" (String "160" "b"))) = ["a"; "b"].
Proof. reflexivity. Qed.

Example Fields_bad_utf8 :
  strings.Fields (String "a" (String "160" "b")) = [String "a" (String "160" "b")].
Proof. reflexivity. Qed.

Example TrimSpace_ex : strings.TrimSpace "  12 34	 " = "12 34".
Proof. reflexivity. Qed.

Example TrimSuffix_ex : strings.TrimSuffix "5002689339188222421.txt" ".txt" = "5002689339188222421".
Proof. reflexivity. Qed.

Example Atoi_44 : strconv.Atoi "44" = inl 44.
Proof. reflexivity. Qed.

Example Atoi_neg : strconv.Atoi "-007" = inl (-7).
Proof. reflexivity. Qed.

Example Atoi_abc : strconv.Atoi "abc" = inr strconv.ErrSyntax.
Proof. reflexivity. Qed.

Example Atoi_empty : strconv.Atoi "" = inr strconv.ErrSyntax.
Proof. reflexivity. Qed.

Example Atoi_max : strconv.Atoi "9223372036854775807" = inl 9223372036854775807.
Proof. reflexivity. Qed.

Example Atoi_over : strconv.Atoi "9223372036854775808" = inr strconv.ErrRange.
Proof. reflexivity. Qed.

Example Atoi_min : strconv.Atoi "-9223372036854775808" = inl (-9223372036854775808).
Proof. reflexivity. Qed.

Example fmt_44 : fmt.fmtInteger 3 44 = "044".
Proof. reflexivity. Qed.

Example fmt_187 : fmt.fmtInteger 3 187 = "187".
Proof. reflexivity. Qed.

Example fmt_1234 : fmt.fmtInteger 3 1234 = "1234".
Proof. reflexivity. Qed.

Example fmt_neg5 : fmt.fmtInteger 3 (-5) = "-05".
Proof. reflexivity. Qed.

Example fmt_0 : fmt.fmtInteger 0 0 = "0".
Proof. reflexivity. Qed.

(** The table of the tests of [path/filepath] for Unix. *)
Example Clean_table :
  filepath.Clean <$>
    [ "abc"; "abc/def"; "a/b/c"; "."; ".."; "../.."; "../../abc"; "/abc"; "/";
      "";
      "abc/"; "abc/def/"; "a/b/c/"; "./"; "../"; "../../"; "/abc/";
      "abc//def//ghi"; "abc//"; "//abc"; "///abc"; "//abc//";
      "abc/./def"; "/./abc/def"; "abc/.";
      "abc/def/ghi/../jkl"; "abc/def/../ghi/../jkl"; "abc/def/.."; "abc/def/../..";
      "/abc/def/../.."; "abc/def/../../.."; "/abc/def/../../..";
      "abc/def/../../../ghi/jkl/../../../mno"; "/../abc";
      "abc/./../def"; "abc//./../def"; "abc/../../././../def" ]
  = [ "abc"; "abc/def"; "a/b/c"; "."; ".."; "../.."; "../../abc"; "/abc"; "/";
      ".";
      "abc"; "abc/def"; "a/b/c"; "."; ".."; "../.."; "/abc";
      "abc/def/ghi"; "abc"; "/abc"; "/abc"; "/abc";
      "abc/def"; "/abc/def"; "abc";
      "abc/def/jkl"; "abc/jkl"; "abc"; ".";
      "/"; ".."; "/";
      "../../mno"; "/abc";
      "def"; "def"; "../../def" ].
Proof. vm_compute. reflexivity. Qed.

(** A backslash is a byte of a name. *)
Example Clean_backslash : filepath.Clean "a\b/" = "a\b".
Proof. reflexivity. Qed.

Example Join_1 : filepath.Join ["game/csgo"; "pak01_044.vpk"] = "game/csgo/pak01_044.vpk".
Proof. reflexivity. Qed.

Example Join_2 : filepath.Join [""; "pak01_044.vpk"] = "pak01_044.vpk".
Proof. reflexivity. Qed.

Example Join_3 : filepath.Join ["a/b/"; "../c"] = "a/c".
Proof. reflexivity. Qed.

Example ScanLines_ex :
  bufio.ScanLines (String "a" (String "013" (String "010" (String "010" "b"))))
  = (["a"; ""; "b"], None).
Proof. reflexivity. Qed.

Example ScanLines_final_newline :
  bufio.ScanLines (String "a" (String "010" EmptyString)) = (["a"], None).
Proof. reflexivity. Qed.

Example ScanLines_empty : bufio.ScanLines "" = ([], None).
Proof. reflexivity. Qed.

Example listing3_run :
  parser.ParseVPKDir_run {["dir.txt" := listing3]} "dir.txt" "a/b"
  = {| parser.outcome := inl {[44]}; parser.log := ["Total matched lines: 2"] |}.
Proof. vm_compute. reflexivity. Qed.

Example listing3_elements :
  elements (parser.vpkSet [44; 44] "base") = ["base/pak01_044.vpk"].
Proof. vm_compute. reflexivity. Qed.

(** * Facts about byte strings *)

Section string_facts.

Lemma append_cons (c : ascii) (s t : string) :
  String c s +:+ t = String c (s +:+ t).
Proof. reflexivity. Qed.

Lemma append_nil_l (s : string) : EmptyString +:+ s = s.
Proof. reflexivity. Qed.

Lemma append_assoc (s t u : string) : (s +:+ t) +:+ u = s +:+ t +:+ u.
Proof. induction s as [|c s IH]; [done|]. by rewrite !append_cons, IH. Qed.

Lemma append_length (s t : string) :
  String.length (s +:+ t) = (String.length s + String.length t)%nat.
Proof. induction s as [|c s IH]; [done|]. rewrite append_cons. simpl. by rewrite IH. Qed.

Lemma append_eq_nil (s t : string) : s +:+ t = EmptyString → s = EmptyString ∧ t = EmptyString.
Proof. destruct s; [done|]. rewrite append_cons. discriminate. Qed.

(** A common suffix can be cancelled. *)
Lemma append_inv_tail (t : string) : ∀ s1 s2 : string, s1 +:+ t = s2 +:+ t → s1 = s2.
Proof.
  induction s1 as [|c1 s1 IH]; intros [|c2 s2] Heq.
  - done.
  - apply (f_equal String.length) in Heq.
    rewrite !append_length in Heq. simpl in Heq. lia.
  - apply (f_equal String.length) in Heq.
    rewrite !append_length in Heq. simpl in Heq. lia.
  - rewrite !append_cons in Heq. simplify_eq. f_equal. by apply IH.
Qed.

Lemma all_bytes_append p (s t : string) :
  all_bytes p (s +:+ t) = all_bytes p s && all_bytes p t.
Proof.
  induction s as [|c s IH]; [done|].
  rewrite append_cons. simpl. by rewrite IH, andb_assoc.
Qed.

Lemma all_bytes_impl (p q : ascii → bool) (s : string) :
  (∀ c, p c = true → q c = true) → all_bytes p s = true → all_bytes q s = true.
Proof.
  intros Hpq. induction s as [|c s IH]; simpl; [done|].
  intros [Hc Hs]%andb_prop. by rewrite (Hpq c Hc), IH.
Qed.

Lemma Split1_nonempty sep s : strings.Split1 sep s ≠ [].
Proof.
  destruct s as [|c s]; simpl; [done|].
  destruct (decide (c = sep)); [done|]. by destruct (strings.Split1 sep s).
Qed.

(** Splitting distributes over a separator. *)
Lemma Split1_append sep (s t : string) :
  strings.Split1 sep (s +:+ String sep t) = strings.Split1 sep s ++ strings.Split1 sep t.
Proof.
  induction s as [|c s IH].
  - rewrite append_nil_l. simpl. by rewrite decide_True.
  - rewrite append_cons. simpl. rewrite IH.
    destruct (decide (c = sep)); [done|].
    pose proof (Split1_nonempty sep s). by destruct (strings.Split1 sep s).
Qed.

(** A string without the separator is one piece. *)
Lemma Split1_one_piece sep s :
  all_bytes (other_than sep) s = true → strings.Split1 sep s = [s].
Proof.
  induction s as [|c s IH]; simpl; [done|].
  intros [Hc Hs]%andb_prop. rewrite (IH Hs).
  unfold other_than in Hc. apply negb_true_iff, bool_decide_eq_false in Hc.
  by rewrite decide_False.
Qed.

(** Joining ends with the last element; it can be read off again. *)
Lemma Join_snoc_inj (sep : string) (elems : list string) (a b : string) :
  strings.Join (elems ++ [a]) sep = strings.Join (elems ++ [b]) sep → a = b.
Proof.
  induction elems as [|e elems IH]; simpl; [done|].
  destruct elems as [|e' elems]; simpl in *.
  - intros Heq%(inj (String.append e)). by apply (inj (String.append sep)) in Heq.
  - intros Heq%(inj (String.append e)). apply (inj (String.append sep)) in Heq.
    by apply IH.
Qed.

Lemma Join_snoc_nonempty (sep : string) (elems : list string) (a : string) :
  a ≠ EmptyString → strings.Join (elems ++ [a]) sep ≠ EmptyString.
Proof.
  intros Ha. induction elems as [|e elems IH]; simpl; [done|].
  destruct elems as [|e' elems]; simpl in *.
  - intros [_ [_ ?]%append_eq_nil]%append_eq_nil. done.
  - intros [_ [_ ?]%append_eq_nil]%append_eq_nil. done.
Qed.

(** A prefix can be split off, and only a prefix. *)
Lemma HasPrefix_append (prefix s : string) : strings.HasPrefix (prefix +:+ s) prefix = true.
Proof.
  induction prefix as [|c prefix IH]; [by destruct s|].
  rewrite append_cons. simpl. by rewrite decide_True.
Qed.

Lemma HasPrefix_inv (prefix : string) :
  ∀ s, strings.HasPrefix s prefix = true → ∃ rest, s = prefix +:+ rest.
Proof.
  induction prefix as [|c prefix IH]; intros s Hs.
  - by exists s.
  - destruct s as [|c' s]; [done|]. simpl in Hs.
    destruct (decide (c' = c)) as [->|]; [|done].
    destruct (IH s Hs) as [rest ->]. by exists rest.
Qed.

Lemma append_nil_r (s : string) : s +:+ EmptyString = s.
Proof. induction s as [|c s IH]; [done|]. by rewrite append_cons, IH. Qed.

(** Splitting and joining undo each other. *)
Lemma Join_Split1 (sep : ascii) (s : string) :
  strings.Join (strings.Split1 sep s) (String sep EmptyString) = s.
Proof.
  induction s as [|c s IH]; [done|]. simpl.
  pose proof (Split1_nonempty sep s) as Hne.
  destruct (decide (c = sep)) as [->|Hc].
  - destruct (strings.Split1 sep s) as [|piece rest]; [done|].
    change (strings.Join (EmptyString :: piece :: rest) (String sep EmptyString))
      with (String sep (strings.Join (piece :: rest) (String sep EmptyString))).
    by rewrite IH.
  - destruct (strings.Split1 sep s) as [|piece rest]; [done|].
    destruct rest as [|piece' rest].
    + simpl in *. by rewrite IH.
    + change (strings.Join (String c piece :: piece' :: rest) (String sep EmptyString))
        with (String c (strings.Join (piece :: piece' :: rest) (String sep EmptyString))).
      by rewrite IH.
Qed.

Lemma Join_app (sep : string) (elems1 elems2 : list string) :
  elems1 ≠ [] → elems2 ≠ [] →
  strings.Join (elems1 ++ elems2) sep
  = strings.Join elems1 sep +:+ sep +:+ strings.Join elems2 sep.
Proof.
  intros Hne1 Hne2. induction elems1 as [|e elems1 IH]; [done|].
  destruct elems1 as [|e' elems1].
  - simpl. by destruct elems2.
  - change (strings.Join ((e :: e' :: elems1) ++ elems2) sep)
      with (e +:+ sep +:+ strings.Join ((e' :: elems1) ++ elems2) sep).
    rewrite IH by done.
    change (strings.Join (e :: e' :: elems1) sep)
      with (e +:+ sep +:+ strings.Join (e' :: elems1) sep).
    by rewrite !append_assoc.
Qed.

End string_facts.

(** * Facts about [filepath.Clean] *)

Section clean_facts.

(** A last empty element changes nothing. *)
Lemma clean_elems_trailing_empty rooted elems :
  ∀ out, filepath.clean_elems rooted out (elems ++ [EmptyString])
         = filepath.clean_elems rooted out elems.
Proof.
  induction elems as [|e elems IH]; intros out; simpl; [done|].
  destruct (filepath.is_empty e || filepath.is_dot e); [apply IH|].
  destruct (filepath.is_dotdot e); [|apply IH].
  destruct out as [|last before]; [destruct rooted; apply IH|].
  destruct (filepath.is_dotdot last); apply IH.
Qed.

Lemma Clean_nonempty (path : string) :
  path ≠ EmptyString →
  filepath.Clean path
  = filepath.assemble (filepath.is_rooted path)
      (filepath.clean_elems (filepath.is_rooted path) []
         (strings.Split1 filepath.Separator path)).
Proof. by destruct path. Qed.

(** A path and the same path followed by a slash clean to the same. *)
Lemma Clean_trailing_slash (path : string) :
  path ≠ EmptyString → filepath.Clean (path +:+ "/") = filepath.Clean path.
Proof.
  destruct path as [|c path]; [done|]. intros _.
  change (filepath.Clean (String c path +:+ "/"))
    with (filepath.assemble (filepath.is_rooted (String c path))
            (filepath.clean_elems (filepath.is_rooted (String c path)) []
               (strings.Split1 filepath.Separator
                  (String c path +:+ String filepath.Separator EmptyString)))).
  rewrite Split1_append.
  change (strings.Split1 filepath.Separator EmptyString) with [EmptyString].
  by rewrite clean_elems_trailing_empty.
Qed.

(** On a Unix build [ToSlash] leaves every path as it is. *)
Lemma ToSlash_id (path : string) : filepath.ToSlash path = path.
Proof. reflexivity. Qed.

Lemma is_rooted_plain (name : string) :
  all_bytes (other_than filepath.Separator) name = true →
  filepath.is_rooted name = false.
Proof.
  destruct name as [|c name]; simpl; [done|].
  intros [Hc _]%andb_prop. by apply negb_true_iff in Hc.
Qed.

Lemma is_rooted_append (s t : string) :
  s ≠ EmptyString → filepath.is_rooted (s +:+ t) = filepath.is_rooted s.
Proof. by destruct s. Qed.

(** A plain name at the end of a path stays where it is. *)
Lemma clean_elems_snoc_plain rooted name :
  plain name →
  ∀ elems out,
    filepath.clean_elems rooted out (elems ++ [name])
    = filepath.clean_elems rooted out elems ++ [name].
Proof.
  intros (_ & Hempty & Hdot & Hdotdot).
  induction elems as [|e elems IH]; intros out; simpl.
  - by rewrite Hempty, Hdot, Hdotdot.
  - destruct (filepath.is_empty e || filepath.is_dot e); [apply IH|].
    destruct (filepath.is_dotdot e); [|apply IH].
    destruct out as [|last before]; [destruct rooted; apply IH|].
    destruct (filepath.is_dotdot last); apply IH.
Qed.

Lemma Join_plain (baseDir name : string) :
  plain name →
  filepath.Join [baseDir; name]
  = filepath.assemble (filepath.is_rooted baseDir) (kept baseDir ++ [name]).
Proof.
  intros Hplain. pose proof Hplain as (Hbytes & Hempty & Hdot & Hdotdot).
  assert (name ≠ EmptyString) as Hname
    by (by apply bool_decide_eq_false in Hempty).
  unfold kept. simpl filepath.Join.
  destruct (bool_decide_reflect (baseDir = EmptyString)) as [->|Hbase];
    unfold filepath.is_empty at 1.
  - rewrite bool_decide_eq_true_2 by done. rewrite Hempty.
    simpl strings.Join. rewrite Clean_nonempty by done.
    rewrite is_rooted_plain, Split1_one_piece by done.
    simpl. by rewrite Hempty, Hdot, Hdotdot.
  - rewrite bool_decide_eq_false_2 by done.
    unfold filepath.is_empty. rewrite bool_decide_eq_false_2 by done.
    simpl strings.Join. rewrite Clean_nonempty.
    + rewrite is_rooted_append by done.
      change (String filepath.Separator EmptyString +:+ name)
        with (String filepath.Separator name).
      rewrite Split1_append, (Split1_one_piece _ name) by done.
      by rewrite clean_elems_snoc_plain.
    + by intros [? _]%append_eq_nil.
Qed.

Lemma assemble_snoc_inj rooted (elems : list string) (a b : string) :
  a ≠ EmptyString → b ≠ EmptyString →
  filepath.assemble rooted (elems ++ [a]) = filepath.assemble rooted (elems ++ [b]) →
  a = b.
Proof.
  intros Ha Hb. unfold filepath.assemble, filepath.is_empty.
  rewrite !bool_decide_eq_false_2.
  - intros Heq%(inj (String.append _)). by apply Join_snoc_inj in Heq.
  - intros [_ Hjoin]%append_eq_nil. by apply Join_snoc_nonempty in Hjoin.
  - intros [_ Hjoin]%append_eq_nil. by apply Join_snoc_nonempty in Hjoin.
Qed.

End clean_facts.

(** * Decimal formatting can be read back *)

Section decimal_facts.

Local Open Scope N_scope.

Lemma byte_val_digit_char (d : N) : d < 10 → byte_val (fmt.digit_char d) = 48 + d.
Proof.
  intros Hd. unfold byte_val, fmt.digit_char. apply N_ascii_embedding. lia.
Qed.

Lemma is_digit_digit_char (d : N) : d < 10 → is_digit (fmt.digit_char d) = true.
Proof.
  intros Hd. unfold is_digit, in_range. rewrite byte_val_digit_char by done.
  apply andb_true_intro. split; apply N.leb_le; lia.
Qed.

Lemma dec_value_snoc (s : string) (c : ascii) :
  ∀ n, dec_value n (s +:+ String c EmptyString) = dec_value n s * 10 + (byte_val c - 48).
Proof.
  induction s as [|c' s IH]; intros n; [done|].
  rewrite append_cons. simpl. apply IH.
Qed.

Lemma digits_go_acc (rounds : nat) :
  ∀ u acc, fmt.digits_go rounds u acc = fmt.digits_go rounds u EmptyString +:+ acc.
Proof.
  induction rounds as [|k IH]; intros u acc; simpl; [done|].
  destruct (u <? 10); [done|].
  rewrite IH, (IH _ (String _ EmptyString)). by rewrite append_assoc.
Qed.

Lemma dec_value_digits_go (rounds : nat) :
  ∀ u, u < 10 ^ N.of_nat (S rounds) →
       dec_value 0 (fmt.digits_go rounds u EmptyString) = u.
Proof.
  induction rounds as [|k IH]; intros u Hu.
  - change (10 ^ N.of_nat 1) with 10 in Hu. simpl.
    rewrite byte_val_digit_char by (apply N.mod_lt; lia).
    rewrite N.mod_small by done. lia.
  - simpl fmt.digits_go. destruct (N.ltb_spec u 10) as [Hsmall|Hbig].
    + simpl. rewrite byte_val_digit_char by done. lia.
    + rewrite digits_go_acc, dec_value_snoc.
      rewrite byte_val_digit_char by (apply N.mod_lt; lia).
      rewrite IH.
      * rewrite (N.add_comm 48), N.add_sub, (N.mul_comm _ 10).
        symmetry. apply N.Div0.div_mod.
      * rewrite Nat2N.inj_succ, N.pow_succ_r' in Hu.
        apply N.Div0.div_lt_upper_bound. lia.
Qed.

Lemma digits_bound (u : N) : u < 10 ^ N.of_nat (S (N.to_nat (N.log2 u))).
Proof.
  rewrite Nat2N.inj_succ, N2Nat.id.
  destruct (decide (u = 0)) as [->|Hu]; [done|].
  pose proof (N.log2_spec u) as [_ Hlog]; [lia|].
  eapply N.lt_le_trans; [exact Hlog|].
  apply N.pow_le_mono_l. lia.
Qed.

Lemma dec_value_digits (u : N) : dec_value 0 (fmt.digits u) = u.
Proof. apply dec_value_digits_go, digits_bound. Qed.

Lemma dec_value_zero_pad (missing : nat) (s : string) :
  dec_value 0 (fmt.zero_pad missing s) = dec_value 0 s.
Proof. induction missing as [|k IH]; simpl; [done|]. exact IH. Qed.

Lemma digits_go_all_digits (rounds : nat) :
  ∀ u acc, all_bytes is_digit (fmt.digits_go rounds u acc) = all_bytes is_digit acc.
Proof.
  induction rounds as [|k IH]; intros u acc; simpl.
  - by rewrite is_digit_digit_char by (apply N.mod_lt; lia).
  - destruct (N.ltb_spec u 10) as [Hsmall|Hbig]; simpl.
    + by rewrite is_digit_digit_char.
    + rewrite IH. simpl. by rewrite is_digit_digit_char by (apply N.mod_lt; lia).
Qed.

Lemma zero_pad_all_digits (missing : nat) (s : string) :
  all_bytes is_digit (fmt.zero_pad missing s) = all_bytes is_digit s.
Proof. induction missing as [|k IH]; simpl; [done|]. exact IH. Qed.

Lemma digits_go_nonempty rounds u acc : fmt.digits_go rounds u acc ≠ EmptyString.
Proof.
  revert u acc. induction rounds as [|k IH]; intros u acc; simpl; [done|].
  destruct (u <? 10); [done|apply IH].
Qed.


Lemma zero_pad_nonempty missing s : s ≠ EmptyString → fmt.zero_pad missing s ≠ EmptyString.
Proof. destruct missing; simpl; done. Qed.




End decimal_facts.

Lemma read_back_fmtInteger (wid : nat) (n : Z) : read_back (fmt.fmtInteger wid n) = n.
Proof.
  unfold fmt.fmtInteger. destruct (Z.ltb_spec n 0) as [Hneg|Hpos].
  - simpl. rewrite dec_value_zero_pad, dec_value_digits. lia.
  - set (padded := fmt.zero_pad _ _).
    assert (all_bytes is_digit padded = true) as Hdigits.
    { unfold padded. rewrite zero_pad_all_digits. unfold fmt.digits.
      by rewrite digits_go_all_digits. }
    assert (padded ≠ EmptyString) as Hne
      by apply zero_pad_nonempty, digits_go_nonempty.
    destruct padded as [|c rest] eqn:Hpadded; [done|].
    unfold read_back. simpl in Hdigits. apply andb_prop in Hdigits as [Hc _].
    rewrite bool_decide_eq_false_2.
    + rewrite <- Hpadded. unfold padded.
      rewrite dec_value_zero_pad, dec_value_digits. lia.
    + intros ->. vm_compute in Hc. discriminate.
Qed.

Global Instance fmtInteger_inj (wid : nat) : Inj (=) (=) (fmt.fmtInteger wid).
Proof.
  intros a b Heq. apply (f_equal read_back) in Heq.
  by rewrite !read_back_fmtInteger in Heq.
Qed.

Lemma fmtInteger_bytes (wid : nat) (n : Z) :
  all_bytes is_digit_or_minus (fmt.fmtInteger wid n) = true.
Proof.
  assert (∀ s, all_bytes is_digit s = true → all_bytes is_digit_or_minus s = true) as Hweak.
  { intros s. apply all_bytes_impl. intros c Hc. unfold is_digit_or_minus. by rewrite Hc. }
  assert (∀ k, all_bytes is_digit (fmt.zero_pad k (fmt.digits (Z.abs_N n))) = true) as Hpad.
  { intros k. rewrite zero_pad_all_digits. unfold fmt.digits.
    by rewrite digits_go_all_digits. }
  unfold fmt.fmtInteger. destruct (n <? 0); simpl; auto.
Qed.




(** * Segment names and paths *)

Section segment_facts.

Lemma digit_or_minus_no_separator (c : ascii) :
  is_digit_or_minus c = true → other_than filepath.Separator c = true.
Proof.
  intros Hc. unfold other_than.
  destruct (bool_decide_reflect (c = filepath.Separator)) as [->|]; [|done].
  vm_compute in Hc. discriminate.
Qed.

Lemma vpkName_plain (fnum : Z) : plain (parser.vpkName fnum).
Proof.
  unfold plain, parser.vpkName. split_and!.
  - rewrite !all_bytes_append.
    rewrite (all_bytes_impl _ _ _ digit_or_minus_no_separator (fmtInteger_bytes 3 fnum)).
    reflexivity.
  - apply bool_decide_eq_false_2. rewrite !append_cons. discriminate.
  - apply bool_decide_eq_false_2. rewrite !append_cons. discriminate.
  - apply bool_decide_eq_false_2. rewrite !append_cons. discriminate.
Qed.

Lemma vpkName_nonempty (fnum : Z) : parser.vpkName fnum ≠ EmptyString.
Proof. unfold parser.vpkName. rewrite !append_cons. discriminate. Qed.

Global Instance vpkName_inj : Inj (=) (=) parser.vpkName.
Proof.
  intros a b Heq. unfold parser.vpkName in Heq.
  apply (inj (String.append _)), append_inv_tail in Heq.
  by apply (inj (fmt.fmtInteger 3)) in Heq.
Qed.

(** Distinct fnumbers give distinct paths, whatever the base directory. *)
Global Instance vpkPath_inj (baseDir : string) : Inj (=) (=) (parser.vpkPath baseDir).
Proof.
  intros a b Heq. unfold parser.vpkPath in Heq.
  rewrite !Join_plain in Heq by apply vpkName_plain.
  apply assemble_snoc_inj in Heq; [|apply vpkName_nonempty..].
  by apply (inj parser.vpkName) in Heq.
Qed.

Lemma vpkSet_list_to_set (fnumbers : list Z) (baseDir : string) :
  parser.vpkSet fnumbers baseDir = list_to_set (parser.vpkPath baseDir <$> fnumbers).
Proof.
  unfold parser.vpkSet.
  assert (∀ acc : gset string,
            foldl (λ set fnum, {[parser.vpkPath baseDir fnum]} ∪ set) acc fnumbers
            = list_to_set (parser.vpkPath baseDir <$> fnumbers) ∪ acc) as Hfold.
  { induction fnumbers as [|n fnumbers IH]; intros acc; simpl.
    - by rewrite (left_id_L ∅ (∪)).
    - rewrite IH. rewrite (assoc_L (∪)). f_equal. apply (comm_L (∪)). }
  rewrite Hfold. apply (right_id_L ∅ (∪)).
Qed.

(** The set of paths does not depend on the order of the fnumbers. *)
Lemma vpkSet_perm (fnumbers fnumbers' : list Z) (baseDir : string) :
  fnumbers ≡ₚ fnumbers' → parser.vpkSet fnumbers baseDir = parser.vpkSet fnumbers' baseDir.
Proof.
  intros Hperm. rewrite !vpkSet_list_to_set. apply set_eq. intros p.
  rewrite !elem_of_list_to_set. by rewrite Hperm.
Qed.

Lemma vpkSet_size (fnumbers : list Z) (baseDir : string) :
  size (parser.vpkSet fnumbers baseDir) = length (remove_dups fnumbers).
Proof.
  rewrite vpkSet_list_to_set.
  assert (list_to_set (parser.vpkPath baseDir <$> fnumbers)
          =@{gset string} list_to_set (parser.vpkPath baseDir <$> remove_dups fnumbers))
    as ->.
  { apply set_eq. intros p. rewrite !elem_of_list_to_set, !list_elem_of_fmap.
    by setoid_rewrite elem_of_remove_dups. }
  rewrite size_list_to_set, length_fmap; [done|].
  apply (NoDup_fmap_2 _), NoDup_remove_dups.
Qed.

End segment_facts.

(** * Listing files, line by line *)

Section scanner_facts.

Lemma Split1_listing_of (lines : list string) :
  Forall no_newline lines →
  strings.Split1 bufio.newline (listing_of lines) = lines ++ [EmptyString].
Proof.
  induction 1 as [|line lines Hline _ IH]; simpl; [done|].
  by rewrite Split1_append, IH, Split1_one_piece.
Qed.

Lemma raw_lines_listing_of (lines : list string) :
  Forall no_newline lines → bufio.raw_lines (listing_of lines) = lines.
Proof.
  intros Hlines. unfold bufio.raw_lines.
  rewrite Split1_listing_of, last_snoc by done. apply removelast_last.
Qed.

Lemma scan_app (raw1 raw2 : list string) :
  bufio.scan (raw1 ++ raw2)
  = match bufio.scan raw1 with
    | (lines1, Some err) => (lines1, Some err)
    | (lines1, None) => (lines1 ++ (bufio.scan raw2).1, (bufio.scan raw2).2)
    end.
Proof.
  induction raw1 as [|data raw1 IH]; simpl.
  - by destruct (bufio.scan raw2).
  - destruct (bufio.too_long data); [done|]. rewrite IH.
    by destruct (bufio.scan raw1) as [lines1 [err|]].
Qed.

(** A line the scanner cannot hold ends the scan with an error. *)
Lemma scan_too_long (before : list string) (line : string) (after : list string) :
  Forall (λ data, bufio.too_long data = false) before →
  bufio.too_long line = true →
  (bufio.scan (before ++ line :: after)).2 = Some bufio.ErrTooLong.
Proof.
  intros Hbefore Hline. induction Hbefore as [|data before Hdata _ IH]; simpl.
  - by rewrite Hline.
  - rewrite Hdata. by destruct (bufio.scan (before ++ line :: after)).
Qed.

End scanner_facts.

(** * Blank lines *)

Section blank_facts.

Lemma drop_spaces_nil (rs : list (N * string)) :
  strings.drop_spaces rs = [] ↔ Forall (λ rb, strings.is_space_rune rb = true) rs.
Proof.
  induction rs as [|rb rs IH]; simpl; [by split|].
  destruct (strings.is_space_rune rb) eqn:Hrb.
  - rewrite IH. split; [by constructor|by inversion 1].
  - split; [done|]. inversion 1; congruence.
Qed.

Lemma drop_spaces_Forall (P : N * string → Prop) (rs : list (N * string)) :
  Forall P rs → Forall P (strings.drop_spaces rs).
Proof.
  induction 1 as [|rb rs Hrb Hrs IH]; simpl; [constructor|].
  destruct (strings.is_space_rune rb); [done|by constructor].
Qed.

Lemma drop_spaces_head (rs : list (N * string)) (rb : N * string) rest :
  strings.drop_spaces rs = rb :: rest → strings.is_space_rune rb = false.
Proof.
  induction rs as [|x rs IH]; simpl; [done|].
  destruct (strings.is_space_rune x) eqn:Hx; [done|]. intros. by simplify_eq.
Qed.

(** Every rune is encoded by at least one byte. *)
Lemma DecodeRuneInString_size (c : ascii) (s : string) :
  ∃ r k, utf8.DecodeRuneInString (String c s) = (r, S k).
Proof.
  unfold utf8.DecodeRuneInString.
  repeat (case_match; try by eexists _, _).
Qed.

Lemma runes_from_start (c : ascii) (s : string) :
  utf8.runes_from 0 (String c s)
  = (let '(r, size) := utf8.DecodeRuneInString (String c s) in
     (r, utf8.take_bytes size (String c s)) :: utf8.runes_from (Nat.pred size) s).
Proof. reflexivity. Qed.

Lemma runes_from_bytes (s : string) :
  ∀ pending, Forall (λ rb : N * string, rb.2 ≠ EmptyString) (utf8.runes_from pending s).
Proof.
  induction s as [|c s IH]; intros pending; [constructor|].
  destruct pending as [|k]; [|apply IH].
  rewrite runes_from_start.
  destruct (DecodeRuneInString_size c s) as (r & k & ->).
  constructor; [done|apply IH].
Qed.

Lemma bytes_of_nil (rs : list (N * string)) :
  Forall (λ rb : N * string, rb.2 ≠ EmptyString) rs →
  strings.bytes_of rs = EmptyString → rs = [].
Proof.
  destruct 1 as [|rb rs Hrb _]; [done|]. simpl.
  by intros [? _]%append_eq_nil.
Qed.

(** [TrimSpace] yields the empty string exactly on the strings that
    consist of white space runes, the empty string among them. *)
Lemma TrimSpace_blank (s : string) :
  strings.TrimSpace s = EmptyString
  ↔ Forall (λ rb, strings.is_space_rune rb = true) (utf8.runes s).
Proof.
  unfold strings.TrimSpace. rewrite <- drop_spaces_nil.
  set (rs := strings.drop_spaces (utf8.runes s)).
  split; [|by intros ->].
  intros Hnil. apply bytes_of_nil in Hnil.
  - assert (strings.drop_spaces (rev rs) = []) as Hrev.
    { destruct (strings.drop_spaces (rev rs)); [done|].
      simpl in Hnil. by apply app_eq_nil in Hnil as [_ ?]. }
    apply drop_spaces_nil, Forall_rev in Hrev. rewrite rev_involutive in Hrev.
    destruct rs as [|rb rest] eqn:Hrs; [done|].
    apply drop_spaces_head in Hrs. inversion Hrev; congruence.
  - apply Forall_rev, drop_spaces_Forall, Forall_rev, drop_spaces_Forall.
    apply runes_from_bytes.
Qed.

End blank_facts.

(** * Slices made from sets *)

Lemma set_to_slice_NoDup {K : Type} `{Countable K} (m : gset K) (s : list K) :
  set_to_slice m s → NoDup s.
Proof. intros Hs. unfold set_to_slice in Hs. rewrite Hs. apply NoDup_elements. Qed.

Lemma set_to_slice_elem_of {K : Type} `{Countable K} (m : gset K) (s : list K) (k : K) :
  set_to_slice m s → k ∈ s ↔ k ∈ m.
Proof. intros Hs. unfold set_to_slice in Hs. rewrite Hs. apply elem_of_elements. Qed.

Lemma set_to_slice_length {K : Type} `{Countable K} (m : gset K) (s : list K) :
  set_to_slice m s → length s = size m.
Proof. intros Hs. unfold set_to_slice in Hs. by rewrite Hs. Qed.

Lemma set_to_slice_elements {K : Type} `{Countable K} (m : gset K) :
  set_to_slice m (elements m).
Proof. unfold set_to_slice. reflexivity. Qed.

(** * The loop of [ParseVPKDir] *)

Section line_filter.

Variable requiredPrefix : string.

Lemma scan_line_skipped st line :
  skipped line → parser.scan_line requiredPrefix st line = st.
Proof.
  intros Hskip. unfold parser.scan_line.
  destruct (strings.HasPrefix line "---") eqn:Hdash; [done|].
  destruct (bool_decide_reflect (strings.TrimSpace line = EmptyString)) as [|Hblank];
    [done|]. simpl.
  destruct Hskip as [?|[?|Hfew]]; [congruence..|].
  apply Nat.ltb_lt in Hfew. by rewrite Hfew.
Qed.

Lemma foldl_delete_neutral {A B : Type} (f : A → B → A) (l : list B) :
  ∀ (i : nat) (x : B) (a : A),
    l !! i = Some x → (∀ a', f a' x = a') →
    foldl f a (delete i l) = foldl f a l.
Proof.
  induction l as [|y l IH]; intros [|i] x a Hi Hx; simplify_eq/=.
  - by rewrite Hx.
  - by apply IH with x.
Qed.

Lemma scan_lines_delete lines i line :
  lines !! i = Some line → skipped line →
  parser.scan_lines requiredPrefix (delete i lines)
  = parser.scan_lines requiredPrefix lines.
Proof.
  intros Hi Hskip. unfold parser.scan_lines.
  apply foldl_delete_neutral with line; [done|].
  intros st. by apply scan_line_skipped.
Qed.

(** Zero is a sentinel: the loop body never puts it into the set. *)
Lemma scan_line_nonzero st line :
  0 ∉ parser.fnumberSet st →
  0 ∉ parser.fnumberSet (parser.scan_line requiredPrefix st line).
Proof.
  intros Hst. unfold parser.scan_line.
  destruct (_ || _); [done|].
  destruct (_ <? _)%nat; [done|].
  destruct (strings.Fields line) as [|filePath others]; [done|].
  destruct (negb _); [done|].
  destruct (parser.find_fnumber line others) as [fnumber warning].
  destruct (decide (fnumber ≠ 0)) as [Hfnum|]; simpl; [|done].
  intros [Hzero%elem_of_singleton|Hold]%elem_of_union; [congruence|done].
Qed.

Lemma scan_lines_nonzero lines :
  0 ∉ parser.fnumberSet (parser.scan_lines requiredPrefix lines).
Proof.
  unfold parser.scan_lines.
  assert (∀ st, 0 ∉ parser.fnumberSet st →
                0 ∉ parser.fnumberSet (foldl (parser.scan_line requiredPrefix) st lines))
    as Hinv.
  { induction lines as [|line lines IH]; intros st Hst; simpl; [done|].
    apply IH. by apply scan_line_nonzero. }
  apply Hinv. apply not_elem_of_empty.
Qed.

End line_filter.

(** The set a successful run returns is the one the loop has built. *)
Lemma run_outcome_set fs path requiredPrefix set :
  parser.outcome (parser.ParseVPKDir_run fs path requiredPrefix) = inl set →
  ∃ content lines,
    fs !! path = Some content
    ∧ bufio.ScanLines content = (lines, None)
    ∧ set = parser.fnumberSet (parser.scan_lines requiredPrefix lines).
Proof.
  unfold parser.ParseVPKDir_run. intros Hrun.
  destruct (fs !! path) as [content|]; [|done].
  destruct (bufio.ScanLines content) as [lines [err|]] eqn:Hscan; [done|].
  exists content, lines. simpl in Hrun. by simplify_eq.
Qed.

(** [ParseVPKDir] always returns: the model is a total function up to the
    order of the slice. *)
Lemma ParseVPKDir_total fs path requiredPrefix :
  ∃ fnumbers err, parser.ParseVPKDir fs path requiredPrefix fnumbers err.
Proof.
  unfold parser.ParseVPKDir.
  destruct (parser.outcome _) as [set|e].
  - exists (elements set), None. split; [apply set_to_slice_elements|done].
  - by exists [], (Some e).
Qed.

(** * Properties of the directory-listing resolver *)

(** The run over a file is the run over its lines without a skipped one. *)
Lemma skipped_line_deleted
    (fs : gmap string string) (path content requiredPrefix : string)
    (i : nat) (line : string) :
  fs !! path = Some content →
  (bufio.ScanLines content).1 !! i = Some line →
  skipped line →
  parser.ParseVPKDir_run fs path requiredPrefix
  = parser.parse_lines requiredPrefix
      (delete i (bufio.ScanLines content).1) (bufio.ScanLines content).2.
Proof.
  intros Hopen Hline Hskip. unfold parser.ParseVPKDir_run. rewrite Hopen.
  destruct (bufio.ScanLines content) as [lines scanErr]. simpl in *.
  unfold parser.parse_lines. by rewrite (scan_lines_delete _ _ _ _ Hline Hskip).
Qed.

(** Leaving out a line that the scanner accepts leaves out the line it
    delivers for it, or changes nothing when the scan has ended before. *)
Lemma scan_delete (raw : list string) :
  ∀ (i : nat) (data : string),
    raw !! i = Some data →
    bufio.too_long data = false →
    (bufio.scan (delete i raw)).2 = (bufio.scan raw).2
    ∧ ((bufio.scan (delete i raw)).1 = (bufio.scan raw).1
       ∨ ((bufio.scan raw).1 !! i = Some (bufio.dropCR data)
          ∧ (bufio.scan (delete i raw)).1 = delete i (bufio.scan raw).1)).
Proof.
  induction raw as [|first raw IH]; intros [|i] data Hdata Hshort; simplify_eq/=.
  - rewrite Hshort. destruct (bufio.scan raw) as [lines err]. simpl.
    split; [done|]. by right.
  - destruct (bufio.too_long first); [by split; [|left]|].
    destruct (IH i data Hdata Hshort) as [Herr Hlines].
    destruct (bufio.scan (delete i raw)) as [lines' err'].
    destruct (bufio.scan raw) as [lines err]. simpl in *. subst err'.
    split; [done|]. destruct Hlines as [->|[Hline ->]]; [by left|by right].
Qed.

(** C1 as stated fails on long lines: a line of 65536 bytes has one field
    only, hence fewer than five, and yet it changes the result.  With it
    the listing is not read to its end and the call returns the error of
    the scanner; without it the fnumber of the entry is returned. *)
Lemma long_skipped_line_is_an_error :
  skipped long_line
  ∧ bufio.too_long long_line = true
  ∧ parser.ParseVPKDir
      {["dir.txt" := listing_of
          ["a/b/img1.vtex crc=0x1 metadatasz=0 fnumber=44 ofs=0x10 sz=100"; long_line]]}
      "dir.txt" "a/b" []
      (Some (ErrWrap "error reading VPK Dir file: " bufio.ErrTooLong))
  ∧ parser.ParseVPKDir
      {["dir.txt" := listing_of
          ["a/b/img1.vtex crc=0x1 metadatasz=0 fnumber=44 ofs=0x10 sz=100"]]}
      "dir.txt" "a/b" [44] None.
Proof.
  split_and!.
  - right. right. vm_compute. lia.
  - vm_compute. reflexivity.
  - vm_compute. split; reflexivity.
  - vm_compute. split; reflexivity.
Qed.

(** C1, amended.  Whatever the listing file holds, a line of it that is
    shorter than 65536 bytes and that is blank or all white space, or
    starts with the marker [---], or has fewer than five fields adds
    nothing to what [ParseVPKDir] computes, whatever else the line
    contains: the file with the same lines but that one gives the same set
    or error and the same log, hence the same results.  The lines are the
    stretches between the newlines of the file; the tests are made on the
    line as the scanner delivers it, without a carriage return at its
    end. *)
Theorem short_skipped_line_contributes_nothing
    (fs fs' : gmap string string) (path path' content content' requiredPrefix : string)
    (i : nat) (data : string) :
  fs !! path = Some content →
  fs' !! path' = Some content' →
  bufio.raw_lines content !! i = Some data →
  bufio.too_long data = false →
  skipped (bufio.dropCR data) →
  bufio.raw_lines content' = delete i (bufio.raw_lines content) →
  parser.ParseVPKDir_run fs path requiredPrefix
  = parser.ParseVPKDir_run fs' path' requiredPrefix
  ∧ ∀ fnumbers err,
      parser.ParseVPKDir fs path requiredPrefix fnumbers err
      ↔ parser.ParseVPKDir fs' path' requiredPrefix fnumbers err.
Proof.
  intros Hopen Hopen' Hdata Hshort Hskip Hlines'.
  assert (parser.ParseVPKDir_run fs path requiredPrefix
          = parser.ParseVPKDir_run fs' path' requiredPrefix) as Hrun.
  { unfold parser.ParseVPKDir_run, bufio.ScanLines. rewrite Hopen, Hopen', Hlines'.
    destruct (scan_delete (bufio.raw_lines content) i data Hdata Hshort)
      as [Herr Hlines].
    destruct (bufio.scan (delete i (bufio.raw_lines content))) as [lines' err'].
    destruct (bufio.scan (bufio.raw_lines content)) as [lines err].
    simpl in *. subst err'. unfold parser.parse_lines.
    destruct Hlines as [->|[Hline ->]]; [done|].
    by rewrite (scan_lines_delete requiredPrefix lines i _ Hline Hskip). }
  split; [exact Hrun|].
  intros fnumbers err. unfold parser.ParseVPKDir. by rewrite Hrun.
Qed.

Lemma short_skipped_line_contributes_nothing_witness :
  parser.ParseVPKDir_run {["dir.txt" := listing_with_noise]} "dir.txt" "a/b"
  = parser.ParseVPKDir_run {["dir.txt" := listing_without_noise]} "dir.txt" "a/b"
  ∧ ∀ fnumbers err,
      parser.ParseVPKDir {["dir.txt" := listing_with_noise]} "dir.txt" "a/b" fnumbers err
      ↔ parser.ParseVPKDir {["dir.txt" := listing_without_noise]} "dir.txt" "a/b"
          fnumbers err.
Proof.
  apply (short_skipped_line_contributes_nothing
           {["dir.txt" := listing_with_noise]} {["dir.txt" := listing_without_noise]}
           "dir.txt" "dir.txt" listing_with_noise listing_without_noise "a/b"
           2 "a/b/short.vtex fnumber=5").
  - vm_compute. reflexivity.
  - vm_compute. reflexivity.
  - vm_compute. reflexivity.
  - vm_compute. reflexivity.
  - right. right. vm_compute. lia.
  - vm_compute. reflexivity.
Defined.

(** The line filter, read on whole files: a listing with a skipped line
    of less than 64 KiB anywhere in it is parsed like the listing without
    that line. *)
Lemma skipped_line_in_file
    (fs : gmap string string) (path requiredPrefix : string)
    (before : list string) (line : string) (after : list string) :
  Forall no_newline (before ++ line :: after) →
  bufio.too_long line = false →
  skipped (bufio.dropCR line) →
  parser.ParseVPKDir_run (<[path := listing_of (before ++ line :: after)]> fs)
    path requiredPrefix
  = parser.ParseVPKDir_run (<[path := listing_of (before ++ after)]> fs)
      path requiredPrefix.
Proof.
  intros Hlines Hshort Hskip. unfold parser.ParseVPKDir_run, bufio.ScanLines.
  rewrite !lookup_insert_eq.
  assert (Forall no_newline (before ++ after)) as Hlines'.
  { apply Forall_app in Hlines as [? [_ ?]%Forall_cons]. by apply Forall_app. }
  rewrite !raw_lines_listing_of by done. rewrite !scan_app. simpl.
  rewrite Hshort.
  destruct (bufio.scan before) as [lines1 [err|]]; [done|].
  destruct (bufio.scan after) as [lines2 err]. simpl.
  unfold parser.parse_lines.
  rewrite <- (scan_lines_delete requiredPrefix
                (lines1 ++ bufio.dropCR line :: lines2) (length lines1)
                (bufio.dropCR line)); [|by apply list_lookup_middle|done].
  by rewrite delete_middle.
Qed.

(** The same line in a length the scanner does not accept: the call
    returns the error of the scanner and no fnumbers. *)
Lemma too_long_line_in_file
    (fs : gmap string string) (path requiredPrefix : string)
    (before : list string) (line : string) (after : list string) :
  Forall no_newline (before ++ line :: after) →
  Forall (λ data, bufio.too_long data = false) before →
  bufio.too_long line = true →
  parser.ParseVPKDir (<[path := listing_of (before ++ line :: after)]> fs)
    path requiredPrefix []
    (Some (ErrWrap "error reading VPK Dir file: " bufio.ErrTooLong)).
Proof.
  intros Hlines Hbefore Hlong.
  unfold parser.ParseVPKDir, parser.ParseVPKDir_run, bufio.ScanLines.
  rewrite lookup_insert_eq, raw_lines_listing_of by done.
  pose proof (scan_too_long before line after Hbefore Hlong) as Herr.
  destruct (bufio.scan (before ++ line :: after)) as [lines err].
  simpl in Herr. subst err. done.
Qed.

(** C2 as stated fails on slash directions: a prefix written with a
    backslash does not match the entry that the same prefix written with a
    slash, or with a slash at its end, matches. *)
Lemma backslash_prefix_differs :
  parser.matches_prefix "a/b/img1.vtex" "a/b" = true
  ∧ parser.matches_prefix "a/b/img1.vtex" "a/b/" = true
  ∧ parser.matches_prefix "a/b/img1.vtex" "a\b" = false.
Proof. vm_compute. done. Qed.

(** The empty prefix cleans to [.], the prefix [/] to itself. *)
Lemma empty_prefix_differs :
  parser.matches_prefix "/a/img1.vtex" "" = false
  ∧ parser.matches_prefix "/a/img1.vtex" "/" = true.
Proof. vm_compute. done. Qed.

(** C2, amended.  The decision of the prefix filter is the same for an
    entry path with and without a slash at its end, and for a prefix with
    and without one, as long as the path and the prefix are not empty.
    Slashes are the only separators: [ToSlash] changes nothing, and a
    backslash is a byte like any other. *)
Theorem prefix_match_ignores_trailing_slash (filePath requiredPrefix : string) :
  filePath ≠ EmptyString →
  requiredPrefix ≠ EmptyString →
  parser.matches_prefix (filePath +:+ "/") requiredPrefix
  = parser.matches_prefix filePath requiredPrefix
  ∧ parser.matches_prefix filePath (requiredPrefix +:+ "/")
    = parser.matches_prefix filePath requiredPrefix
  ∧ parser.matches_prefix filePath requiredPrefix
    = strings.HasPrefix (filepath.Clean filePath) (filepath.Clean requiredPrefix).
Proof.
  intros Hpath Hprefix. unfold parser.matches_prefix.
  rewrite !ToSlash_id, !Clean_trailing_slash by done. done.
Qed.

Lemma prefix_match_ignores_trailing_slash_witness :
  parser.matches_prefix ("a/b/img1.vtex" +:+ "/") "a/b"
  = parser.matches_prefix "a/b/img1.vtex" "a/b"
  ∧ parser.matches_prefix "a/b/img1.vtex" ("a/b" +:+ "/")
    = parser.matches_prefix "a/b/img1.vtex" "a/b"
  ∧ parser.matches_prefix "a/b/img1.vtex" "a/b"
    = strings.HasPrefix (filepath.Clean "a/b/img1.vtex") (filepath.Clean "a/b").
Proof.
  apply (prefix_match_ignores_trailing_slash "a/b/img1.vtex" "a/b"); discriminate.
Defined.

(** What the loop body does with an entry line. *)
Lemma scan_line_entry
    (requiredPrefix : string) (st : parser.scan_state)
    (line filePath token : string) (padding : list string) :
  entry_line line filePath token padding →
  parser.fnumberSet (parser.scan_line requiredPrefix st line)
  = if parser.matches_prefix filePath requiredPrefix then
      let fnumber := (parser.find_fnumber line (token :: padding)).1 in
      if decide (fnumber ≠ 0) then {[fnumber]} ∪ parser.fnumberSet st
      else parser.fnumberSet st
    else parser.fnumberSet st.
Proof.
  intros (Hdash & Hblank & Hfields & Hpad). unfold parser.scan_line.
  rewrite Hdash, bool_decide_eq_false_2 by done. cbv beta iota zeta.
  change (false || false) with false. cbv iota. rewrite Hfields.
  assert ((length (filePath :: token :: padding) <? 5)%nat = false) as ->
    by (apply Nat.ltb_ge; simpl; lia).
  destruct (parser.matches_prefix filePath requiredPrefix); [|done].
  cbv beta iota zeta. change (negb true) with false. cbv iota.
  destruct (parser.find_fnumber line (token :: padding)) as [fnumber warning].
  simpl. by destruct (decide (fnumber ≠ 0)).
Qed.

Lemma find_fnumber_head (line token : string) (rest : list string) (fnum : Z) :
  strings.HasPrefix token "fnumber=" = true →
  strconv.Atoi (strings.TrimPrefix token "fnumber=") = inl fnum →
  parser.find_fnumber line (token :: rest) = (fnum, []).
Proof. intros Htoken Hvalue. simpl. by rewrite Htoken, Hvalue. Qed.

Lemma roundtrip_paths : parser.vpkSet [44] "base" = {["base/pak01_044.vpk"]}.
Proof. vm_compute. reflexivity. Qed.

(** C3. For a listing with the three entry lines [a/b/img1.vtex
    fnumber=44], [a/b/img2.vtex fnumber=44] and [c/d/x.vtex fnumber=7],
    each followed by three or more fields of any content, and the prefix
    [a/b], the resolver yields the segment path of fnumber 44,
    [base/pak01_044.vpk], and nothing else; the path of fnumber 7 is not
    produced. *)
Theorem roundtrip_one_segment
    (fs : gmap string string) (path content : string)
    (line1 line2 line3 : string) (pad1 pad2 pad3 : list string)
    (fnumbers : list Z) (err : option error) (vpks : list string) :
  fs !! path = Some content →
  bufio.ScanLines content = ([line1; line2; line3], None) →
  entry_line line1 "a/b/img1.vtex" "fnumber=44" pad1 →
  entry_line line2 "a/b/img2.vtex" "fnumber=44" pad2 →
  entry_line line3 "c/d/x.vtex" "fnumber=7" pad3 →
  parser.ParseVPKDir fs path "a/b" fnumbers err →
  parser.MapFNumberToVPK fnumbers "base" vpks →
  err = None
  ∧ fnumbers = [44]
  ∧ vpks = ["base/pak01_044.vpk"]
  ∧ parser.vpkPath "base" 7 ∉ vpks.
Proof.
  intros Hopen Hlines Hline1 Hline2 Hline3 Hparse Hmap.
  assert (parser.fnumberSet (parser.scan_lines "a/b" [line1; line2; line3]) = {[44]})
    as Hset.
  { unfold parser.scan_lines. simpl foldl.
    rewrite (scan_line_entry _ _ _ _ _ _ Hline3).
    rewrite (scan_line_entry _ _ _ _ _ _ Hline2).
    rewrite (scan_line_entry _ _ _ _ _ _ Hline1).
    change (parser.matches_prefix "c/d/x.vtex" "a/b") with false.
    change (parser.matches_prefix "a/b/img2.vtex" "a/b") with true.
    change (parser.matches_prefix "a/b/img1.vtex" "a/b") with true.
    cbv beta iota zeta.
    rewrite (find_fnumber_head line1 "fnumber=44" pad1 44) by reflexivity.
    rewrite (find_fnumber_head line2 "fnumber=44" pad2 44) by reflexivity.
    cbn [fst]. destruct (decide (44 ≠ 0)) as [_|Hzero]; [|by destruct Hzero].
    change (parser.fnumberSet parser.initial) with (∅ : gset Z).
    apply set_eq. intros n.
    rewrite !elem_of_union, elem_of_singleton, elem_of_empty. tauto. }
  unfold parser.ParseVPKDir, parser.ParseVPKDir_run in Hparse.
  rewrite Hopen, Hlines in Hparse. unfold parser.parse_lines in Hparse.
  cbv beta iota in Hparse. simpl parser.outcome in Hparse.
  rewrite Hset in Hparse. destruct Hparse as [Hslice ->].
  unfold set_to_slice in Hslice. rewrite elements_singleton in Hslice.
  apply Permutation_singleton_r in Hslice as ->.
  unfold parser.MapFNumberToVPK, set_to_slice in Hmap.
  rewrite roundtrip_paths, elements_singleton in Hmap.
  apply Permutation_singleton_r in Hmap as ->.
  split_and!; [done..|].
  intros Hin%list_elem_of_singleton. vm_compute in Hin. discriminate.
Qed.

Lemma roundtrip_one_segment_witness :
  None = @None error
  ∧ [44] = [44]
  ∧ ["base/pak01_044.vpk"] = ["base/pak01_044.vpk"]
  ∧ parser.vpkPath "base" 7 ∉ ["base/pak01_044.vpk"].
Proof.
  apply (roundtrip_one_segment {["dir.txt" := roundtrip_listing]} "dir.txt"
           roundtrip_listing
           "a/b/img1.vtex fnumber=44 crc=0x1 ofs=0x10 sz=100"
           "a/b/img2.vtex fnumber=44 crc=0x2 ofs=0x80 sz=100"
           "c/d/x.vtex fnumber=7 crc=0x3 ofs=0x10 sz=100"
           ["crc=0x1"; "ofs=0x10"; "sz=100"]
           ["crc=0x2"; "ofs=0x80"; "sz=100"]
           ["crc=0x3"; "ofs=0x10"; "sz=100"]
           [44] None ["base/pak01_044.vpk"]).
  - vm_compute. reflexivity.
  - vm_compute. reflexivity.
  - unfold entry_line. vm_compute. split_and!; [reflexivity|discriminate|reflexivity|lia].
  - unfold entry_line. vm_compute. split_and!; [reflexivity|discriminate|reflexivity|lia].
  - unfold entry_line. vm_compute. split_and!; [reflexivity|discriminate|reflexivity|lia].
  - vm_compute. split; reflexivity.
  - vm_compute. reflexivity.
Defined.

(** C4. On a line that passes the filters, the first field after the path
    that starts with [fnumber=] decides, whatever follows it: when [Atoi]
    accepts its value, that value is the fnumber of the line (and enters
    the set unless it is zero); when it does not, the warning is logged and
    the set stays as it was, even if a later field holds a valid token. *)
Theorem first_fnumber_field_decides
    (requiredPrefix : string) (st : parser.scan_state)
    (line filePath : string) (before : list string) (field : string)
    (after : list string) :
  strings.HasPrefix line "---" = false →
  strings.TrimSpace line ≠ EmptyString →
  strings.Fields line = filePath :: before ++ field :: after →
  (5 ≤ length (strings.Fields line))%nat →
  parser.matches_prefix filePath requiredPrefix = true →
  Forall (λ f, strings.HasPrefix f "fnumber=" = false) before →
  strings.HasPrefix field "fnumber=" = true →
  let fnumStr := strings.TrimPrefix field "fnumber=" in
  let st' := parser.scan_line requiredPrefix st line in
  match strconv.Atoi fnumStr with
  | inl fnum =>
    parser.find_fnumber line (before ++ field :: after) = (fnum, [])
    ∧ parser.fnumberSet st'
      = (if decide (fnum ≠ 0) then {[fnum]} ∪ parser.fnumberSet st
         else parser.fnumberSet st)
  | inr _ =>
    parser.find_fnumber line (before ++ field :: after)
    = (0, ["Warning: Invalid fnumber '" +:+ fnumStr +:+ "' in line: " +:+ line])
    ∧ parser.fnumberSet st' = parser.fnumberSet st
    ∧ ("Warning: Invalid fnumber '" +:+ fnumStr +:+ "' in line: " +:+ line)
        ∈ parser.logged st'
  end.
Proof.
  intros Hdash Hblank Hfields Hlen Hmatch Hbefore Hfield fnumStr st'.
  assert (parser.find_fnumber line (before ++ field :: after)
          = match strconv.Atoi fnumStr with
            | inl fnum => (fnum, [])
            | inr _ =>
              (0, ["Warning: Invalid fnumber '" +:+ fnumStr +:+ "' in line: " +:+ line])
            end) as Hfind.
  { clear Hfields Hlen. induction Hbefore as [|f before Hf _ IH]; simpl.
    - rewrite Hfield. done.
    - rewrite Hf. exact IH. }
  assert ((length (strings.Fields line) <? 5)%nat = false) as Hfive
    by (apply Nat.ltb_ge; lia).
  subst st'. unfold parser.scan_line.
  rewrite Hdash. rewrite bool_decide_eq_false_2 by done. simpl.
  rewrite Hfive, Hfields, Hmatch. simpl. rewrite Hfind.
  destruct (strconv.Atoi fnumStr) as [fnum|e].
  - split; [done|]. by destruct (decide (fnum ≠ 0)).
  - split; [done|]. destruct (decide (0 ≠ 0)); [done|]. simpl.
    split; [done|]. apply elem_of_app. right. simpl. apply elem_of_cons. by left.
Qed.

Lemma first_fnumber_field_decides_witness :
  parser.find_fnumber "a/b/x.vtex crc=1 fnumber=abc fnumber=44 sz=3"
    ["crc=1"; "fnumber=abc"; "fnumber=44"; "sz=3"]
  = (0, ["Warning: Invalid fnumber 'abc' in line: a/b/x.vtex crc=1 fnumber=abc fnumber=44 sz=3"])
  ∧ parser.fnumberSet
      (parser.scan_line "a/b" parser.initial "a/b/x.vtex crc=1 fnumber=abc fnumber=44 sz=3")
    = parser.fnumberSet parser.initial
  ∧ "Warning: Invalid fnumber 'abc' in line: a/b/x.vtex crc=1 fnumber=abc fnumber=44 sz=3"
    ∈ parser.logged
        (parser.scan_line "a/b" parser.initial "a/b/x.vtex crc=1 fnumber=abc fnumber=44 sz=3").
Proof.
  apply (first_fnumber_field_decides "a/b" parser.initial
           "a/b/x.vtex crc=1 fnumber=abc fnumber=44 sz=3" "a/b/x.vtex"
           ["crc=1"] "fnumber=abc" ["fnumber=44"; "sz=3"]).
  - vm_compute. reflexivity.
  - vm_compute. discriminate.
  - vm_compute. reflexivity.
  - vm_compute. lia.
  - vm_compute. reflexivity.
  - repeat constructor.
  - vm_compute. reflexivity.
Defined.

(** C5. The slice [ParseVPKDir] returns has no duplicates and does not
    contain zero; a line whose fnumber is read as zero (the token
    [fnumber=0], or no usable token) leaves the set as it was. *)
Theorem fnumbers_unique_and_nonzero
    (fs : gmap string string) (path requiredPrefix : string)
    (fnumbers : list Z) (err : option error) :
  parser.ParseVPKDir fs path requiredPrefix fnumbers err →
  NoDup fnumbers
  ∧ (0 ∉ fnumbers)
  ∧ ∀ st line filePath others,
      strings.Fields line = filePath :: others →
      (parser.find_fnumber line others).1 = 0 →
      parser.fnumberSet (parser.scan_line requiredPrefix st line) = parser.fnumberSet st.
Proof.
  unfold parser.ParseVPKDir. intros Hret. split_and!.
  - destruct (parser.outcome _) as [set|e]; destruct Hret as [Hs _].
    + by apply set_to_slice_NoDup in Hs.
    + subst. constructor.
  - destruct (parser.outcome _) as [set|e] eqn:Hrun; destruct Hret as [Hs _].
    + apply run_outcome_set in Hrun as (content & lines & _ & _ & ->).
      rewrite (set_to_slice_elem_of _ _ 0 Hs). apply scan_lines_nonzero.
    + subst. apply not_elem_of_nil.
  - intros st line filePath others Hfields Hzero. unfold parser.scan_line.
    destruct (_ || _); [done|]. rewrite Hfields.
    destruct (_ <? _)%nat; [done|].
    destruct (negb _); [done|].
    destruct (parser.find_fnumber line others) as [fnumber warning].
    simpl in Hzero. subst fnumber. by destruct (decide (0 ≠ 0)).
Qed.

Lemma fnumbers_unique_and_nonzero_witness :
  parser.ParseVPKDir {["dir.txt" := listing_with_zero]} "dir.txt" "a/b" [44] None
  ∧ NoDup [44] ∧ 0 ∉ [44].
Proof.
  assert (parser.ParseVPKDir {["dir.txt" := listing_with_zero]} "dir.txt" "a/b" [44] None)
    as Hret.
  { vm_compute. split; reflexivity. }
  split; [exact Hret|].
  destruct (fnumbers_unique_and_nonzero _ _ _ _ _ Hret) as (Hnodup & Hzero & _).
  split; assumption.
Defined.



(** C10. The prefix filter is a test on bytes, not on path elements.  An
    entry is matched exactly when its cleaned path starts with the bytes of
    the cleaned prefix.  So every entry that has the prefix among its
    ancestor directories is matched, and others are matched too: with the
    prefix [a/b] the entry [a/bc/x.vtex] is matched, although [a/b] is not
    one of its ancestor directories, and its fnumber is returned.  An entry
    whose cleaned path starts with other bytes, such as [c/d/x.vtex], is
    not matched. *)
Theorem prefix_filter_is_bytewise :
  (∀ filePath requiredPrefix,
     parser.matches_prefix filePath requiredPrefix = true
     ↔ ∃ rest, filepath.Clean filePath = filepath.Clean requiredPrefix +:+ rest)
  ∧ (∀ dir filePath,
       ancestor_directory dir filePath → parser.matches_prefix filePath dir = true)
  ∧ parser.matches_prefix "a/bc/x.vtex" "a/b" = true
  ∧ ¬ ancestor_directory "a/b" "a/bc/x.vtex"
  ∧ parser.matches_prefix "c/d/x.vtex" "a/b" = false
  ∧ parser.ParseVPKDir {["dir.txt" := listing_sibling]} "dir.txt" "a/b" [9] None.
Proof.
  split_and!.
  - intros filePath requiredPrefix. unfold parser.matches_prefix.
    rewrite !ToSlash_id. split.
    + apply HasPrefix_inv.
    + intros [rest ->]. apply HasPrefix_append.
  - intros dir filePath [names Hnames]. unfold parser.matches_prefix.
    rewrite !ToSlash_id. unfold path_elements in Hnames.
    rewrite <- (Join_Split1 filepath.Separator (filepath.Clean filePath)), Hnames.
    destruct names as [|name names].
    + rewrite app_nil_r, Join_Split1.
      rewrite <- (append_nil_r (filepath.Clean dir)) at 1. apply HasPrefix_append.
    + rewrite Join_app by (try done; apply Split1_nonempty).
      rewrite Join_Split1. apply HasPrefix_append.
  - vm_compute. reflexivity.
  - intros [rest Hrest]. vm_compute in Hrest. discriminate.
  - vm_compute. reflexivity.
  - vm_compute. split; reflexivity.
Qed.

(** * Reasoning along a trace *)

Section always.

Context {A B : Type} (P : effect → Prop).

Lemma always_ret (a : A) : always P (mret a).
Proof. constructor. Qed.

Lemma always_perform (e : effect) : P e → always P (perform e).
Proof. intros He. repeat constructor. exact He. Qed.

Lemma always_perform_all (es : list effect) : Forall P es → always P (perform_all es).
Proof. done. Qed.

Lemma always_Fatalf (msg : string) :
  P (Log msg) → P (Exit 1) → always P (@Fatalf A msg).
Proof. intros Hlog Hexit. repeat constructor; assumption. Qed.

Lemma always_bind (m : action A) (k : A → action B) :
  always P m → (∀ a, m.2 = Some a → always P (k a)) → always P (m ≫= k).
Proof.
  unfold always, mbind, action_bind, bind. intros Hm Hk.
  destruct m as [tr [a|]]; [|done].
  specialize (Hk a eq_refl). destruct (k a) as [more b]. simpl in *.
  by apply Forall_app.
Qed.

Lemma logs_if_nonempty (label text : string) :
  (∀ msg, P (Log msg)) → Forall P (cmdrunner.log_if_nonempty label text).
Proof.
  intros Hlog. unfold cmdrunner.log_if_nonempty.
  destruct (decide _); repeat constructor. apply Hlog.
Qed.

Lemma logs_all (msgs : list string) :
  (∀ msg, P (Log msg)) → Forall P (Log <$> msgs).
Proof. intros Hlog. apply Forall_fmap, Forall_true. intros msg. apply Hlog. Qed.

End always.

(** Walks along a computation: one goal per effect it can perform. *)
Ltac walk :=
  repeat match goal with
    | |- always _ (mret _) => apply always_ret
    | |- always _ (perform _) => apply always_perform
    | |- always _ (Fatalf _) => apply always_Fatalf
    | |- always _ (perform_all _) => apply always_perform_all
    | |- always _ (_ ≫= _) => apply always_bind; [|intros ? ?]
    | |- always _ (match ?x with _ => _ end) => destruct x eqn:?
    end.

(** * Properties of the command runner *)

(** C7. [Run] returns what the process wrote to its standard output and
    standard error, whether it failed or not.  After a failure the error
    wraps the cause as a time-out when the deadline of the context has
    passed and as an execution failure otherwise, and the two read
    differently; after a success there is no error. *)
Theorem run_keeps_output_and_marks_timeout
    (ctx : context.Context) (name : string) (args : list string) (p : process_end) :
  ∃ trace result,
    cmdrunner.Run ctx name args p = (trace, Some result)
    ∧ cmdrunner.Stdout result = written_out p
    ∧ cmdrunner.Stderr result = written_err p
    ∧ cmdrunner.Error result
      = match run_error p with
        | None => None
        | Some err =>
          if decide (context.Err ctx (elapsed p) = Some context.DeadlineExceeded)
          then Some (ErrWrap "command timed out: " err)
          else Some (ErrWrap "command execution failed: " err)
        end
    ∧ ∀ err err',
        errorString (ErrWrap "command timed out: " err)
        ≠ errorString (ErrWrap "command execution failed: " err').
Proof.
  unfold cmdrunner.Run.
  destruct (run_error p) as [err|];
    [destruct (decide (context.Err ctx (elapsed p) = Some context.DeadlineExceeded))|];
    (eexists _, _; split; [reflexivity|]); simpl; split_and!; try done;
    intros e e'; cbv [errorString String.append]; discriminate.
Qed.

(** Under [RunCommand] the deadline has passed after 60 seconds. *)
Lemma RunCommand_deadline (elapsed : Z) :
  context.Err (context.WithTimeout context.Background 60) elapsed
  = if 60 <=? elapsed then Some context.DeadlineExceeded else None.
Proof. reflexivity. Qed.

(** * Properties of the orchestrator *)

Lemma before_gate_identity trace stored :
  Forall before_gate trace → identity_after trace stored = stored.
Proof.
  unfold identity_after. induction 1 as [|e trace He _ IH]; simpl; [done|].
  destruct e; simpl in *; done.
Qed.

Ltac unfold_stages :=
  unfold main, refresh, readTrackedID, observeIdentity, checkDependencies,
    findAndRenameFiles, addImagesToCDN, listing.GenerateVPKList, listing.generateVPKDirectory, listing.WriteVPKList,
    cmdrunner.RunCommand, cmdrunner.Run, cmdrunner.PipeOutput.

Lemma checkDependencies_before_gate w : always before_gate (checkDependencies w).
Proof. unfold_stages. walk; done. Qed.

Lemma observeIdentity_before_gate w : always before_gate (observeIdentity w).
Proof.
  unfold_stages. walk; try done.
  - by apply logs_if_nonempty.
  - by apply logs_if_nonempty.
Qed.

Lemma readTrackedID_before_gate w : always before_gate (readTrackedID w).
Proof. unfold_stages. walk; done. Qed.

Lemma refresh_writes w newManifestID :
  always (writes_only newManifestID) (refresh w newManifestID).
Proof.
  unfold_stages. walk;
    try (intros data Heq; by simplify_eq);
    try (apply logs_if_nonempty; intros msg data Heq; by simplify_eq);
    try (apply logs_all; intros msg data Heq; by simplify_eq).
Qed.

(** C8. When the identity read from the identity file is not empty and
    equals the identity observed on the manifest, the run performs nothing
    but the effects that lead up to the comparison: the identity file is
    not written, no temporary file is created, and no process other than
    the manifest-only fetch is started; the identity file is as it was and
    the run returns with the message that the identities match.
    Conversely a write to the identity file only occurs in a run whose
    comparison failed, and it writes the new identity. *)
Theorem identity_gate (w : world) (stored : option string) :
  (∀ id,
     (observeIdentity w).2 = Some id →
     (readTrackedID w).2 = Some id →
     id ≠ EmptyString →
     always before_gate (main w)
     ∧ identity_after (main w).1 stored = stored
     ∧ (tools w = None →
        (main w).2 = Some tt
        ∧ last (main w).1 = Some (Log "Manifest ID matches the current ID. Exiting.")))
  ∧ (∀ data,
       WriteFile identityFile data ∈ (main w).1 →
       ∃ newManifestID trackedID,
         (observeIdentity w).2 = Some newManifestID
         ∧ (readTrackedID w).2 = Some trackedID
         ∧ unchanged trackedID newManifestID = false
         ∧ data = newManifestID).
Proof.
  split.
  - intros id Hnew Hold Hid.
    assert (unchanged id id = true) as Hgate.
    { unfold unchanged. rewrite bool_decide_eq_true_2 by done.
      by rewrite bool_decide_eq_false_2 by done. }
    assert (always before_gate (main w)) as Htrace.
    { unfold main. apply always_bind; [apply checkDependencies_before_gate|].
      intros _ _. apply always_bind; [apply observeIdentity_before_gate|].
      intros newManifestID Hnew'. apply always_bind; [apply readTrackedID_before_gate|].
      intros trackedID Hold'. simplify_eq. rewrite Hgate.
      by apply always_perform. }
    split; [exact Htrace|]. split; [by apply before_gate_identity|].
    intros Htools. unfold main, checkDependencies. rewrite Htools.
    destruct (observeIdentity w) as [tr1 [id1|]]; [|done].
    destruct (readTrackedID w) as [tr2 [id2|]]; [|done].
    simpl in Hnew, Hold. simplify_eq. simpl. rewrite Hgate. simpl.
    split; [done|]. rewrite !app_assoc. exact (last_snoc _ (_ :: (tr1 ++ tr2))).
  - intros data Hin. unfold main in Hin.
    pose proof (checkDependencies_before_gate w) as Hb0.
    pose proof (observeIdentity_before_gate w) as Hb1.
    pose proof (readTrackedID_before_gate w) as Hb2.
    unfold always in Hb0, Hb1, Hb2. rewrite Forall_forall in Hb0, Hb1, Hb2.
    assert (∀ tr : list effect,
              (∀ e, e ∈ tr → before_gate e) → WriteFile identityFile data ∉ tr)
      as Hquiet.
    { intros tr Htr Hw. by apply Htr in Hw. }
    apply Hquiet in Hb0, Hb1, Hb2.
    destruct (checkDependencies w) as [tr0 [[]|]]; simpl in *; [|done].
    destruct (observeIdentity w) as [tr1 [newManifestID|]]; simpl in *.
    2: { by apply elem_of_app in Hin as [Hin|Hin]. }
    destruct (readTrackedID w) as [tr2 [trackedID|]]; simpl in *.
    2: { apply elem_of_app in Hin as [Hin|Hin]; [done|].
         by apply elem_of_app in Hin as [Hin|Hin]. }
    exists newManifestID, trackedID. split_and!; [done..| |].
    + destruct (unchanged trackedID newManifestID) eqn:Hgate; [|done].
      exfalso. simpl in Hin. rewrite !elem_of_app in Hin.
      destruct Hin as [Hin|[Hin|[Hin|Hin]]]; [done..|].
      apply list_elem_of_singleton in Hin. discriminate.
    + pose proof (refresh_writes w newManifestID) as Hr. unfold always in Hr.
      rewrite Forall_forall in Hr.
      destruct (unchanged trackedID newManifestID); simpl in Hin.
      * rewrite !elem_of_app in Hin. destruct Hin as [Hin|[Hin|[Hin|Hin]]]; [done..|].
        apply list_elem_of_singleton in Hin. discriminate.
      * destruct (refresh w newManifestID) as [tr3 r3]. simpl in *.
        rewrite !elem_of_app in Hin. destruct Hin as [Hin|[Hin|[Hin|Hin]]]; [done..|].
        by apply (Hr _ Hin).
Qed.

Lemma identity_gate_witness :
  (always before_gate (main world_unchanged)
   ∧ identity_after (main world_unchanged).1 (Some "5002689339188222421")
     = Some "5002689339188222421"
   ∧ (tools world_unchanged = None →
      (main world_unchanged).2 = Some tt
      ∧ last (main world_unchanged).1
        = Some (Log "Manifest ID matches the current ID. Exiting.")))
  ∧ ∃ newManifestID trackedID,
      (observeIdentity world_changed).2 = Some newManifestID
      ∧ (readTrackedID world_changed).2 = Some trackedID
      ∧ unchanged trackedID newManifestID = false
      ∧ "5002689339188222421" = newManifestID.
Proof.
  split.
  - apply (proj1 (identity_gate world_unchanged (Some "5002689339188222421"))
             "5002689339188222421").
    + vm_compute. reflexivity.
    + vm_compute. reflexivity.
    + discriminate.
  - apply (proj2 (identity_gate world_changed None) "5002689339188222421").
    apply list_elem_of_In. vm_compute. tauto.
Defined.

(** C9 as stated fails: a complete run starts five processes, and the
    second one, the fetch of the directory file through [RunCommand] at
    step 5, is bound to 60 seconds like the first. *)
Lemma listing_fetch_has_deadline :
  processes (main world_changed).1
  = [ (Some 60, "tools/DepotDownloader", depot ["-manifest-only"]);
      (Some 60, "tools/DepotDownloader", depot ["-filelist"; "/tmp/dir-file_1.txt"]);
      (None, "tools/Source2Viewer-CLI", ["-i"; VPKDir; "--vpk_dir"]);
      (None, "tools/DepotDownloader", depot ["-filelist"; "/tmp/filelist_2.txt"]);
      (None, "tools/Source2Viewer-CLI",
       ["-i"; VPKDir; "-o"; "static"; "-d"; "--vpk_filepath"; ImageDir]) ].
Proof. vm_compute. reflexivity. Qed.

(** C9, amended.  The two invocations made through [RunCommand], the
    manifest-only fetch of step 1 and the fetch of the directory file of
    step 5, run under a deadline of 60 seconds; the dump of the directory
    listing, the fetch of the segments and the extraction run without
    one.  [main] starts no other process. *)
Theorem deadlines_of_main (w : world) : always (deadline_rule w) (main w).
Proof.
  unfold_stages. walk;
    try done;
    try (apply logs_if_nonempty; done);
    try (apply logs_all; done);
    simpl; eauto 10.
Qed.

(** * The library models on further examples of the Go documentation *)

Example ReplaceAll_ex :
  strings.ReplaceAll "oink oink oink" "k" "ky" = "oinky oinky oinky"
  ∧ strings.ReplaceAll "oink oink oink" "oink" "moo" = "moo moo moo"
  ∧ strings.ReplaceAll "aaaa" "aa" "b" = "bb"
  ∧ strings.ReplaceAll "abc" "" "-" = "-a-b-c-"
  ∧ strings.ReplaceAll "a_p_pngng.png" "_png" "" = "a_png.png".
Proof. vm_compute. done. Qed.

Example Dir_table :
  filepath.Dir "/foo/bar/baz.js" = "/foo/bar"
  ∧ filepath.Dir "/foo/bar/baz" = "/foo/bar"
  ∧ filepath.Dir "/foo/bar/baz/" = "/foo/bar/baz"
  ∧ filepath.Dir "/dirty//path///" = "/dirty/path"
  ∧ filepath.Dir "dev.txt" = "."
  ∧ filepath.Dir "../todo.txt" = ".."
  ∧ filepath.Dir ".." = "."
  ∧ filepath.Dir "." = "."
  ∧ filepath.Dir "/" = "/"
  ∧ filepath.Dir "" = ".".
Proof. vm_compute. done. Qed.

Example Base_table :
  filepath.Base "/foo/bar/baz.js" = "baz.js"
  ∧ filepath.Base "/foo/bar/baz" = "baz"
  ∧ filepath.Base "/foo/bar/baz/" = "baz"
  ∧ filepath.Base "dev.txt" = "dev.txt"
  ∧ filepath.Base "../todo.txt" = "todo.txt"
  ∧ filepath.Base ".." = ".."
  ∧ filepath.Base "." = "."
  ∧ filepath.Base "/" = "/"
  ∧ filepath.Base "" = ".".
Proof. vm_compute. done. Qed.

(** * Further properties of the directory-listing resolver *)

Section contribution.

Variable requiredPrefix : string.

Lemma find_fnumber_first (line : string) (before : list string) (field : string)
    (after : list string) :
  Forall (λ f, strings.HasPrefix f "fnumber=" = false) before →
  strings.HasPrefix field "fnumber=" = true →
  (parser.find_fnumber line (before ++ field :: after)).1
  = match strconv.Atoi (strings.TrimPrefix field "fnumber=") with
    | inl n => n
    | inr _ => 0
    end.
Proof.
  intros Hbefore Hfield. induction Hbefore as [|f before Hf _ IH]; simpl.
  - rewrite Hfield. by destruct (strconv.Atoi _).
  - by rewrite Hf.
Qed.

Lemma find_fnumber_nonzero (line : string) (fields : list string) (n : Z) :
  (parser.find_fnumber line fields).1 = n → n ≠ 0 →
  ∃ before field after,
    fields = before ++ field :: after
    ∧ Forall (λ f, strings.HasPrefix f "fnumber=" = false) before
    ∧ strings.HasPrefix field "fnumber=" = true
    ∧ strconv.Atoi (strings.TrimPrefix field "fnumber=") = inl n.
Proof.
  induction fields as [|f fields IH]; simpl; [by intros <-|].
  destruct (strings.HasPrefix f "fnumber=") eqn:Hf.
  - destruct (strconv.Atoi _) as [m|e] eqn:Hm; simpl; intros <- Hn; [|done].
    by exists [], f, fields.
  - intros Hfind Hn.
    destruct (IH Hfind Hn) as (before & field & after & -> & ? & ? & ?).
    exists (f :: before), field, after. split_and!; [done|by constructor|done..].
Qed.

(** The loop body adds to the set what the line names, and nothing else. *)
Lemma scan_line_elem_of (st : parser.scan_state) (line : string) (n : Z) :
  n ∈ parser.fnumberSet (parser.scan_line requiredPrefix st line)
  ↔ n ∈ parser.fnumberSet st ∨ names_segment requiredPrefix line n.
Proof.
  unfold parser.scan_line, names_segment, skipped.
  destruct (strings.HasPrefix line "---") eqn:Hdash.
  { split; [by left|]. intros [?|[Hns _]]; [done|]. destruct Hns. by left. }
  destruct (bool_decide_reflect (strings.TrimSpace line = EmptyString)) as [Hblank|Hblank].
  { split; [by left|]. intros [?|[Hns _]]; [done|]. destruct Hns. right; by left. }
  change (false || false) with false. cbv iota.
  destruct (Nat.ltb_spec (length (strings.Fields line)) 5) as [Hfew|Hmany].
  { split; [by left|]. intros [?|[Hns _]]; [done|]. destruct Hns. right; by right. }
  destruct (strings.Fields line) as [|filePath others] eqn:Hfields; [simpl in Hmany; lia|].
  destruct (parser.matches_prefix filePath requiredPrefix) eqn:Hmatch.
  2: { change (negb false) with true. cbv iota. split; [by left|].
       intros [?|(_ & fp & b & f & a & Heq & Hm & _)]; [done|]. simplify_eq. congruence. }
  change (negb true) with false. cbv iota.
  destruct (parser.find_fnumber line others) as [fnumber warning] eqn:Hfind.
  assert ((parser.find_fnumber line others).1 = fnumber) as Hfst by (by rewrite Hfind).
  destruct (decide (fnumber ≠ 0)) as [Hnz|Hz]; simpl.
  - rewrite elem_of_union, elem_of_singleton. split.
    + intros [->|?]; [|by left]. right. split.
      * intros [?|[?|Hfew]]; [congruence|done|]. simpl in Hfew, Hmany. lia.
      * destruct (find_fnumber_nonzero _ _ _ Hfst Hnz) as (b & f & a & -> & ? & ? & ?).
        by exists filePath, b, f, a.
    + intros [?|(_ & fp & b & f & a & Heq & _ & Hb & Hf & Hatoi & _)]; [by right|].
      left. simplify_eq. by rewrite (find_fnumber_first _ _ _ _ Hb Hf), Hatoi.
  - split; [by left|].
    intros [?|(_ & fp & b & f & a & Heq & _ & Hb & Hf & Hatoi & Hn)]; [done|].
    simplify_eq. rewrite (find_fnumber_first _ _ _ _ Hb Hf), Hatoi in Hz.
    destruct Hz. done.
Qed.

Lemma scan_lines_elem_of (lines : list string) (n : Z) :
  n ∈ parser.fnumberSet (parser.scan_lines requiredPrefix lines)
  ↔ ∃ line, line ∈ lines ∧ names_segment requiredPrefix line n.
Proof.
  unfold parser.scan_lines.
  assert (∀ st,
            n ∈ parser.fnumberSet (foldl (parser.scan_line requiredPrefix) st lines)
            ↔ n ∈ parser.fnumberSet st
              ∨ ∃ line, line ∈ lines ∧ names_segment requiredPrefix line n) as Hfold.
  { induction lines as [|l lines IH]; intros st; simpl.
    - split; [by left|]. intros [?|(line & Hin & _)]; [done|]. by apply elem_of_nil in Hin.
    - rewrite IH, scan_line_elem_of. split.
      + intros [[?|?]|(line & ? & ?)].
        * by left.
        * right. exists l. split; [apply elem_of_cons; by left|done].
        * right. exists line. split; [apply elem_of_cons; by right|done].
      + intros [?|(line & [->|?]%elem_of_cons & ?)].
        * left. by left.
        * left. by right.
        * right. by exists line. }
  rewrite Hfold. change (parser.fnumberSet parser.initial) with (∅ : gset Z).
  rewrite elem_of_empty. tauto.
Qed.

End contribution.

(** X1. When the listing file can be read to its end, [ParseVPKDir]
    returns, each once and in some order, exactly the numbers that some line
    of the file names: the line is not skipped (no marker line, not blank,
    five fields or more), its entry path matches the prefix, and the first
    of its later fields that starts with [fnumber=] holds that number in
    decimal, not zero. *)
Theorem fnumbers_are_the_named_segments
    (fs : gmap string string) (path content requiredPrefix : string)
    (lines : list string) (fnumbers : list Z) :
  fs !! path = Some content →
  bufio.ScanLines content = (lines, None) →
  parser.ParseVPKDir fs path requiredPrefix fnumbers None
  ↔ NoDup fnumbers
    ∧ ∀ n, n ∈ fnumbers ↔ ∃ line, line ∈ lines ∧ names_segment requiredPrefix line n.
Proof.
  intros Hopen Hscan. unfold parser.ParseVPKDir, parser.ParseVPKDir_run.
  rewrite Hopen, Hscan. unfold parser.parse_lines. cbn [parser.outcome].
  split.
  - intros [Hs _]. split; [by apply set_to_slice_NoDup in Hs|].
    intros n. rewrite (set_to_slice_elem_of _ _ n Hs). apply scan_lines_elem_of.
  - intros [Hnodup Hin]. split; [|done]. unfold set_to_slice.
    apply NoDup_Permutation; [done|apply NoDup_elements|].
    intros n. by rewrite elem_of_elements, Hin, scan_lines_elem_of.
Qed.

Lemma fnumbers_are_the_named_segments_witness :
  parser.ParseVPKDir {["dir.txt" := listing3]} "dir.txt" "a/b" [44] None
  ↔ NoDup [44]
    ∧ ∀ n, n ∈ [44] ↔ ∃ line, line ∈ listing3_lines ∧ names_segment "a/b" line n.
Proof.
  apply (fnumbers_are_the_named_segments {["dir.txt" := listing3]} "dir.txt" listing3).
  - vm_compute. reflexivity.
  - vm_compute. reflexivity.
Defined.

(** X2. What [ParseVPKDir] returns depends on the set of lines of the
    listing only: two listings with the same lines, in any order and any
    number of times each, give the same results. *)
Theorem result_depends_on_the_set_of_lines
    (fs fs' : gmap string string) (path path' content content' requiredPrefix : string)
    (lines lines' : list string) (fnumbers : list Z) (err : option error) :
  fs !! path = Some content →
  bufio.ScanLines content = (lines, None) →
  fs' !! path' = Some content' →
  bufio.ScanLines content' = (lines', None) →
  (∀ line, line ∈ lines ↔ line ∈ lines') →
  parser.ParseVPKDir fs path requiredPrefix fnumbers err
  ↔ parser.ParseVPKDir fs' path' requiredPrefix fnumbers err.
Proof.
  intros Hopen Hscan Hopen' Hscan' Hsame.
  unfold parser.ParseVPKDir, parser.ParseVPKDir_run.
  rewrite Hopen, Hscan, Hopen', Hscan'. unfold parser.parse_lines. cbn [parser.outcome].
  assert (parser.fnumberSet (parser.scan_lines requiredPrefix lines)
          = parser.fnumberSet (parser.scan_lines requiredPrefix lines')) as ->; [|done].
  apply set_eq. intros n. rewrite !scan_lines_elem_of.
  split; intros (line & Hin & Hnames); exists line; (split; [by apply Hsame|done]).
Qed.

Lemma result_depends_on_the_set_of_lines_witness :
  parser.ParseVPKDir {["dir.txt" := listing3]} "dir.txt" "a/b" [44] None
  ↔ parser.ParseVPKDir {["other.txt" := listing3_shuffled]} "other.txt" "a/b" [44] None.
Proof.
  apply (result_depends_on_the_set_of_lines
           {["dir.txt" := listing3]} {["other.txt" := listing3_shuffled]}
           "dir.txt" "other.txt" listing3 listing3_shuffled "a/b"
           listing3_lines listing3_shuffled_lines).
  - vm_compute. reflexivity.
  - vm_compute. reflexivity.
  - vm_compute. reflexivity.
  - vm_compute. reflexivity.
  - intros line. unfold listing3_lines, listing3_shuffled_lines.
    rewrite !elem_of_cons, !elem_of_nil. tauto.
Defined.

Lemma remove_dups_length {A : Type} `{EqDecision A} (l : list A) :
  NoDup l → length (remove_dups l) = length l.
Proof.
  intros Hl. apply Permutation_length.
  apply NoDup_Permutation; [apply NoDup_remove_dups|done|].
  intros x. apply elem_of_remove_dups.
Qed.

(** Distinct fnumbers have distinct paths: the set of paths is as large
    as the set of fnumbers. *)
Lemma vpkSet_elements_size (fnumbers : gset Z) (baseDir : string) :
  size (parser.vpkSet (elements fnumbers) baseDir) = size fnumbers.
Proof. rewrite vpkSet_size, remove_dups_length; [done|apply NoDup_elements]. Qed.

(** * The log of [ParseVPKDir] *)

Section parser_log.

Variable requiredPrefix : string.





End parser_log.

(** Two effects differ: by their kind, or by the first bytes of their
    message. *)
Ltac differ :=
  let H := fresh in
  intros H; try discriminate H; injection H as H;
  rewrite ?append_cons in H; discriminate H.

(** * [GenerateVPKList] *)

(** What [GenerateVPKList] does once the tool has written the listing. *)
Lemma GenerateVPKList_generated (w : listing.answers)
    (vpkDir requiredPrefix vpkBaseDir outFile manifestPath : string) :
  listing.temp_manifest w = inl manifestPath →
  run_error (listing.dump w) = None →
  listing.GenerateVPKList w vpkDir requiredPrefix vpkBaseDir outFile
  = let parsed :=
      parser.ParseVPKDir_run {[ manifestPath := written_out (listing.dump w) ]}
        manifestPath requiredPrefix in
    let '(finish, result) :=
      match parser.outcome parsed with
      | inr err => ([], Some (ErrWrap "error parsing manifest: " err))
      | inl fnumbers =>
        if decide (size fnumbers = 0%nat)
        then ([Log "No matching image files found in the manifest."], None)
        else ([WriteLines outFile (parser.vpkSet (elements fnumbers) vpkBaseDir);
               CloseFile outFile],
              fmap (ErrWrap "error writing VPK list: ") (listing.list_written w))
      end in
    ([CreateTemp "vpkdir_*.txt";
      Log ("Running Source2Viewer-CLI to generate vpk dir at " +:+ manifestPath);
      StartProcess None "tools/Source2Viewer-CLI" ["-i"; vpkDir; "--vpk_dir"];
      Log ("vpk dir generated successfully at " +:+ manifestPath);
      CloseFile manifestPath]
     ++ (Log <$> parser.log parsed) ++ finish ++ [Remove manifestPath],
     Some result).
Proof.
  intros Htemp Hrun. unfold listing.GenerateVPKList.
  assert (listing.generateVPKDirectory w vpkDir
          = ([CreateTemp "vpkdir_*.txt";
              Log ("Running Source2Viewer-CLI to generate vpk dir at " +:+ manifestPath);
              StartProcess None "tools/Source2Viewer-CLI" ["-i"; vpkDir; "--vpk_dir"];
              Log ("vpk dir generated successfully at " +:+ manifestPath);
              CloseFile manifestPath], Some (inl manifestPath))) as ->.
  { unfold listing.generateVPKDirectory. rewrite Htemp, Hrun. reflexivity. }
  unfold mbind at 1. unfold action_bind at 1. unfold bind at 1. cbv beta iota.
  set (parsed := parser.ParseVPKDir_run _ _ _). cbv zeta.
  destruct (parser.outcome parsed) as [fnumbers|err]; [|reflexivity].
  destruct (decide (size fnumbers = 0%nat)) as [Hnone|Hsome]; [reflexivity|].
  destruct (decide (size (parser.vpkSet (elements fnumbers) vpkBaseDir) = 0%nat))
    as [Hzero|_].
  - exfalso. by rewrite vpkSet_elements_size in Hzero.
  - unfold listing.WriteVPKList. destruct (listing.list_written w); reflexivity.
Qed.


(** X5. The temporary listing is removed on every return of
    [GenerateVPKList] that follows its generation, whatever the parser and
    the writer did: the removal is the last thing done.  When the tool
    fails, the temporary file has been created and is not removed. *)
Theorem temporary_listing_is_removed
    (w : listing.answers) (vpkDir requiredPrefix vpkBaseDir outFile : string) :
  let m := listing.GenerateVPKList w vpkDir requiredPrefix vpkBaseDir outFile in
  match listing.temp_manifest w with
  | inr err =>
    m = ([CreateTemp "vpkdir_*.txt"],
         Some (Some (ErrWrap "error generating manifest: "
                       (ErrWrap "failed to create temporary manifest file: " err))))
  | inl manifestPath =>
    match run_error (listing.dump w) with
    | None => last m.1 = Some (Remove manifestPath)
    | Some err =>
      m.2 = Some (Some (ErrWrap "error generating manifest: "
                          (ErrWrap "error running Source2Viewer-CLI: " err)))
      ∧ CreateTemp "vpkdir_*.txt" ∈ m.1
      ∧ ∀ path, Remove path ∉ m.1
    end
  end.
Proof.
  intros m. subst m.
  destruct (listing.temp_manifest w) as [manifestPath|err] eqn:Htemp.
  - destruct (run_error (listing.dump w)) as [err|] eqn:Hrun.
    + unfold listing.GenerateVPKList, listing.generateVPKDirectory.
      rewrite Htemp, Hrun. cbn. split_and!; [done|apply elem_of_cons; by left|].
      intros path. rewrite !not_elem_of_cons. split_and!;
        try apply not_elem_of_nil; differ.
    + rewrite (GenerateVPKList_generated _ _ _ _ _ _ Htemp Hrun). cbv zeta.
      destruct (match parser.outcome _ with inl _ => _ | inr _ => _ end)
        as [finish result].
      cbn [fst]. rewrite !app_assoc. apply last_snoc.
  - unfold listing.GenerateVPKList, listing.generateVPKDirectory.
    rewrite Htemp. reflexivity.
Qed.


(** X3. The resolver from end to end: the paths [MapFNumberToVPK] makes
    of what [ParseVPKDir] returns are the paths of the segments that the
    lines of the listing name, one path for each fnumber returned. *)
Theorem resolver_end_to_end
    (fs : gmap string string) (path content requiredPrefix baseDir : string)
    (lines : list string) (fnumbers : list Z) (vpks : list string) :
  fs !! path = Some content →
  bufio.ScanLines content = (lines, None) →
  parser.ParseVPKDir fs path requiredPrefix fnumbers None →
  parser.MapFNumberToVPK fnumbers baseDir vpks →
  length vpks = length fnumbers
  ∧ ∀ vpk, vpk ∈ vpks
           ↔ ∃ line n, line ∈ lines
                       ∧ names_segment requiredPrefix line n
                       ∧ vpk = parser.vpkPath baseDir n.
Proof.
  intros Hopen Hscan Hparse Hmap.
  unfold parser.ParseVPKDir, parser.ParseVPKDir_run in Hparse.
  rewrite Hopen, Hscan in Hparse. unfold parser.parse_lines in Hparse.
  cbn [parser.outcome] in Hparse. destruct Hparse as [Hslice _].
  unfold parser.MapFNumberToVPK in Hmap. split.
  - rewrite (set_to_slice_length _ _ Hmap), vpkSet_size.
    apply remove_dups_length. by apply set_to_slice_NoDup in Hslice.
  - intros vpk. rewrite (set_to_slice_elem_of _ _ vpk Hmap).
    rewrite vpkSet_list_to_set, elem_of_list_to_set, list_elem_of_fmap. split.
    + intros (n & -> & Hn). rewrite (set_to_slice_elem_of _ _ n Hslice) in Hn.
      apply scan_lines_elem_of in Hn as (line & Hline & Hnames).
      by exists line, n.
    + intros (line & n & Hline & Hnames & ->). exists n. split; [done|].
      rewrite (set_to_slice_elem_of _ _ n Hslice). apply scan_lines_elem_of.
      by exists line.
Qed.

Lemma resolver_end_to_end_witness :
  length ["base/pak01_044.vpk"] = length [44]
  ∧ ∀ vpk, vpk ∈ ["base/pak01_044.vpk"]
           ↔ ∃ line n, line ∈ listing3_lines
                       ∧ names_segment "a/b" line n
                       ∧ vpk = parser.vpkPath "base" n.
Proof.
  apply (resolver_end_to_end {["dir.txt" := listing3]} "dir.txt" listing3 "a/b" "base"
           listing3_lines [44] ["base/pak01_044.vpk"]).
  - vm_compute. reflexivity.
  - vm_compute. reflexivity.
  - vm_compute. split; reflexivity.
  - unfold parser.MapFNumberToVPK, set_to_slice. vm_compute. reflexivity.
Defined.

(** * The file list can be read back *)

Section read_back_list.

Lemma written_list_listing_of (vpks : list string) : written_list vpks = listing_of vpks.
Proof.
  induction vpks as [|vpk vpks IH]; simpl; [done|].
  by rewrite IH, append_assoc.
Qed.

Lemma dropCR_append (s t : string) :
  t ≠ EmptyString → bufio.dropCR (s +:+ t) = s +:+ bufio.dropCR t.
Proof.
  intros Ht. induction s as [|c s IH]; [done|].
  rewrite !append_cons. simpl. rewrite IH.
  destruct (s +:+ t) eqn:Hst; [|done].
  by apply append_eq_nil in Hst as [_ ?].
Qed.

Lemma scan_short_lines (lines : list string) :
  Forall (λ line, bufio.too_long line = false ∧ bufio.dropCR line = line) lines →
  bufio.scan lines = (lines, None).
Proof.
  induction 1 as [|line lines [Hshort Hcr] _ IH]; simpl; [done|].
  by rewrite Hshort, IH, Hcr.
Qed.

Lemma all_bytes_Join (p : ascii → bool) (elems : list string) (sep : string) :
  all_bytes p sep = true →
  Forall (λ e, all_bytes p e = true) elems →
  all_bytes p (strings.Join elems sep) = true.
Proof.
  intros Hsep. induction 1 as [|e elems He Helems IH]; simpl; [done|].
  destruct elems as [|e' elems]; [done|].
  by rewrite !all_bytes_append, He, Hsep, IH.
Qed.

Lemma Split1_all_bytes (p : ascii → bool) (sep : ascii) (s : string) :
  all_bytes p s = true → Forall (λ e, all_bytes p e = true) (strings.Split1 sep s).
Proof.
  induction s as [|c s IH]; simpl; [by repeat constructor|].
  intros [Hc Hs]%andb_prop. specialize (IH Hs).
  destruct (decide (c = sep)); [by constructor|].
  destruct (strings.Split1 sep s) as [|piece rest]; [by repeat constructor; simpl; rewrite Hc|].
  apply Forall_cons in IH as [Hpiece Hrest]. constructor; [|done].
  simpl. by rewrite Hc, Hpiece.
Qed.

(** [Clean] writes elements of the path it is given, and no others. *)
Lemma clean_elems_Forall (P : string → Prop) (rooted : bool) (elems : list string) :
  ∀ out, Forall P out → Forall P elems →
         Forall P (filepath.clean_elems rooted out elems).
Proof.
  induction elems as [|e elems IH]; intros out Hout Helems; simpl.
  - by apply Forall_rev.
  - apply Forall_cons in Helems as [He Helems].
    destruct (filepath.is_empty e || filepath.is_dot e); [by apply IH|].
    destruct (filepath.is_dotdot e).
    + destruct out as [|last before].
      * destruct rooted; apply IH; by repeat constructor.
      * apply Forall_cons in Hout as [Hlast Hbefore].
        destruct (filepath.is_dotdot last); apply IH; by repeat constructor.
    + apply IH; by repeat constructor.
Qed.

Lemma kept_Forall (p : ascii → bool) (baseDir : string) :
  all_bytes p baseDir = true → Forall (λ e, all_bytes p e = true) (kept baseDir).
Proof.
  intros Hbase. unfold kept. destruct (filepath.is_empty baseDir); [constructor|].
  apply clean_elems_Forall; [constructor|]. by apply Split1_all_bytes.
Qed.

Lemma all_bytes_assemble (p : ascii → bool) (rooted : bool) (elems : list string) :
  p "/"%char = true → p "."%char = true →
  Forall (λ e, all_bytes p e = true) elems →
  all_bytes p (filepath.assemble rooted elems) = true.
Proof.
  intros Hsep Hdot Helems. unfold filepath.assemble.
  destruct (filepath.is_empty _); [simpl; by rewrite Hdot|].
  rewrite all_bytes_append, all_bytes_Join; [|simpl; by rewrite Hsep|done].
  destruct rooted; simpl; [by rewrite Hsep|done].
Qed.

(** A joined list ends with its last element. *)
Lemma Join_snoc_suffix (sep : string) (elems : list string) (a : string) :
  ∃ before, strings.Join (elems ++ [a]) sep = before +:+ a.
Proof.
  induction elems as [|e elems [before IH]]; [by exists EmptyString|].
  change ((e :: elems) ++ [a]) with (e :: (elems ++ [a])).
  exists (e +:+ sep +:+ before).
  destruct (elems ++ [a]) as [|e' rest] eqn:Hrest; [by destruct elems|].
  change (strings.Join (e :: e' :: rest) sep)
    with (e +:+ sep +:+ strings.Join (e' :: rest) sep).
  by rewrite IH, !append_assoc.
Qed.

Lemma assemble_snoc_suffix (rooted : bool) (elems : list string) (a : string) :
  a ≠ EmptyString →
  ∃ before, filepath.assemble rooted (elems ++ [a]) = before +:+ a.
Proof.
  intros Ha. unfold filepath.assemble.
  destruct (Join_snoc_suffix "/" elems a) as [before Hjoin].
  rewrite Hjoin. unfold filepath.is_empty. rewrite bool_decide_eq_false_2.
  - exists ((if rooted then "/" else EmptyString) +:+ before). by rewrite append_assoc.
  - intros [_ [_ ?]%append_eq_nil]%append_eq_nil. done.
Qed.

Lemma digit_or_minus_no_newline (c : ascii) :
  is_digit_or_minus c = true → other_than bufio.newline c = true.
Proof.
  intros Hc. unfold other_than.
  destruct (bool_decide_reflect (c = bufio.newline)) as [->|]; [|done].
  vm_compute in Hc. discriminate.
Qed.

(** A segment path under a directory whose name has no newline is a line
    of its own, and not one that ends with a carriage return. *)
Lemma vpkPath_line (baseDir : string) (fnum : Z) :
  no_newline baseDir →
  no_newline (parser.vpkPath baseDir fnum)
  ∧ bufio.dropCR (parser.vpkPath baseDir fnum) = parser.vpkPath baseDir fnum.
Proof.
  intros Hbase. unfold parser.vpkPath.
  rewrite Join_plain by apply vpkName_plain. split.
  - apply all_bytes_assemble; [done..|].
    apply Forall_app. split; [by apply kept_Forall|].
    apply Forall_singleton. unfold parser.vpkName. rewrite !all_bytes_append.
    by rewrite (all_bytes_impl _ _ _ digit_or_minus_no_newline (fmtInteger_bytes 3 fnum)).
  - destruct (assemble_snoc_suffix (filepath.is_rooted baseDir) (kept baseDir)
                (parser.vpkName fnum) (vpkName_nonempty fnum)) as [before ->].
    unfold parser.vpkName. rewrite <- !append_assoc.
    by rewrite dropCR_append.
Qed.

End read_back_list.

(** X6. The file list that [WriteVPKList] writes for the paths of
    [MapFNumberToVPK] can be read back line by line: a scanner finds the
    paths, in the order they were written, and reaches the end of the file
    without an error.  The base directory must not contain a newline, and no
    path may be of 64 KiB or more. *)
Theorem file_list_reads_back
    (fnumbers : list Z) (baseDir : string) (vpks : list string) :
  parser.MapFNumberToVPK fnumbers baseDir vpks →
  no_newline baseDir →
  Forall (λ vpk, bufio.too_long vpk = false) vpks →
  bufio.ScanLines (written_list vpks) = (vpks, None).
Proof.
  intros Hmap Hbase Hshort.
  assert (Forall (λ vpk, ∃ fnum, vpk = parser.vpkPath baseDir fnum) vpks) as Hpaths.
  { apply Forall_forall. intros vpk Hin.
    unfold parser.MapFNumberToVPK in Hmap.
    rewrite (set_to_slice_elem_of _ _ vpk Hmap) in Hin.
    rewrite vpkSet_list_to_set, elem_of_list_to_set, list_elem_of_fmap in Hin.
    destruct Hin as (fnum & -> & _). by exists fnum. }
  unfold bufio.ScanLines. rewrite written_list_listing_of, raw_lines_listing_of.
  - apply scan_short_lines. rewrite Forall_forall in Hpaths, Hshort.
    apply Forall_forall. intros vpk Hin. split; [by apply Hshort|].
    destruct (Hpaths vpk Hin) as [fnum ->]. by apply vpkPath_line.
  - eapply Forall_impl; [exact Hpaths|]. intros vpk [fnum ->]. by apply vpkPath_line.
Qed.

Lemma file_list_reads_back_witness :
  bufio.ScanLines (written_list ["game/csgo/pak01_187.vpk"; "game/csgo/pak01_044.vpk"])
  = (["game/csgo/pak01_187.vpk"; "game/csgo/pak01_044.vpk"], None).
Proof.
  apply (file_list_reads_back [44; 187; 44] "game/csgo").
  - unfold parser.MapFNumberToVPK, set_to_slice. vm_compute. reflexivity.
  - vm_compute. reflexivity.
  - repeat constructor.
Defined.

(** X7. A line of 64 KiB or more makes [ParseVPKDir] fail: the scanner
    stops there with its error, which is returned wrapped, and the fnumbers
    of the lines before it are not returned. *)
Theorem long_line_fails_the_parse
    (fs : gmap string string) (path requiredPrefix : string)
    (before : list string) (line : string) (after : list string)
    (fnumbers : list Z) (err : option error) :
  Forall no_newline (before ++ line :: after) →
  Forall (λ data, bufio.too_long data = false) before →
  bufio.too_long line = true →
  parser.ParseVPKDir (<[path := listing_of (before ++ line :: after)]> fs)
    path requiredPrefix fnumbers err →
  fnumbers = []
  ∧ err = Some (ErrWrap "error reading VPK Dir file: " bufio.ErrTooLong)
  ∧ errorString (ErrWrap "error reading VPK Dir file: " bufio.ErrTooLong)
    = "error reading VPK Dir file: bufio.Scanner: token too long".
Proof.
  intros Hlines Hbefore Hlong.
  unfold parser.ParseVPKDir, parser.ParseVPKDir_run, bufio.ScanLines.
  rewrite lookup_insert_eq, raw_lines_listing_of by done.
  pose proof (scan_too_long before line after Hbefore Hlong) as Herr.
  destruct (bufio.scan (before ++ line :: after)) as [lines scanErr].
  simpl in Herr. subst scanErr. simpl. intros [-> ->]. done.
Qed.

Lemma long_line_fails_the_parse_witness :
  [] = @nil Z
  ∧ Some (ErrWrap "error reading VPK Dir file: " bufio.ErrTooLong)
    = Some (ErrWrap "error reading VPK Dir file: " bufio.ErrTooLong)
  ∧ errorString (ErrWrap "error reading VPK Dir file: " bufio.ErrTooLong)
    = "error reading VPK Dir file: bufio.Scanner: token too long".
Proof.
  apply (long_line_fails_the_parse ∅ "dir.txt" "a/b"
           ["a/b/img1.vtex crc=0x1 metadatasz=0 fnumber=44 ofs=0x10 sz=100"]
           long_line [] [] (Some (ErrWrap "error reading VPK Dir file: " bufio.ErrTooLong))).
  - repeat constructor; vm_compute; reflexivity.
  - repeat constructor.
  - vm_compute. reflexivity.
  - unfold parser.ParseVPKDir, parser.ParseVPKDir_run.
    rewrite lookup_insert_eq. vm_compute. split; reflexivity.
Defined.

(** * Suffixes *)

Section suffix_facts.

Lemma rev_app_append (s : string) : ∀ acc, String.rev_app s acc = String.rev s +:+ acc.
Proof.
  unfold String.rev. induction s as [|c s IH]; intros acc; simpl; [done|].
  rewrite (IH (String c acc)), (IH (String c EmptyString)).
  by rewrite append_assoc.
Qed.

Lemma rev_cons (c : ascii) (s : string) :
  String.rev (String c s) = String.rev s +:+ String c EmptyString.
Proof. unfold String.rev at 1. simpl. apply rev_app_append. Qed.

Lemma rev_append (s t : string) : String.rev (s +:+ t) = String.rev t +:+ String.rev s.
Proof.
  induction s as [|c s IH].
  - by rewrite append_nil_l, append_nil_r.
  - by rewrite append_cons, !rev_cons, IH, append_assoc.
Qed.

Lemma rev_involutive (s : string) : String.rev (String.rev s) = s.
Proof.
  induction s as [|c s IH]; [done|].
  by rewrite rev_cons, rev_append, IH.
Qed.

Lemma HasSuffix_append (s suffix : string) : strings.HasSuffix (s +:+ suffix) suffix = true.
Proof. unfold strings.HasSuffix. rewrite rev_append. apply HasPrefix_append. Qed.

Lemma HasSuffix_inv (s suffix : string) :
  strings.HasSuffix s suffix = true → ∃ body, s = body +:+ suffix.
Proof.
  unfold strings.HasSuffix. intros [rest Hrest]%HasPrefix_inv.
  exists (String.rev rest).
  by rewrite <- (rev_involutive s), Hrest, rev_append, rev_involutive.
Qed.

Lemma take_bytes_append (s t : string) : utf8.take_bytes (String.length s) (s +:+ t) = s.
Proof. induction s as [|c s IH]; simpl; [by destruct t|]. by rewrite IH. Qed.

Lemma TrimSuffix_append (s suffix : string) : strings.TrimSuffix (s +:+ suffix) suffix = s.
Proof.
  unfold strings.TrimSuffix. rewrite HasSuffix_append, append_length, Nat.add_sub.
  apply take_bytes_append.
Qed.

End suffix_facts.

(** * Further properties of the orchestrator *)

Lemma Run_success (ctx : context.Context) (name : string) (args : list string)
    (p : process_end) :
  run_error p = None →
  ∃ trace,
    cmdrunner.Run ctx name args p
    = (trace, Some {| cmdrunner.Stdout := written_out p;
                      cmdrunner.Stderr := written_err p;
                      cmdrunner.Error := None |}).
Proof. intros Hrun. unfold cmdrunner.Run. rewrite Hrun. eexists. reflexivity. Qed.

(** X8. The new identity is read off the name of the manifest file: for
    the first file the glob finds, [data/manifest_<depot>_<id>.txt] with no
    underscore in the depot and the identity, it is [<id>]. *)
Theorem identity_is_read_off_the_manifest_name
    (w : world) (depotID id : string) (others : list string) :
  run_error (manifest_fetch w) = None →
  manifest_glob w = inl (("data/manifest_" +:+ depotID +:+ "_" +:+ id +:+ ".txt") :: others) →
  all_bytes (other_than "_"%char) depotID = true →
  all_bytes (other_than "_"%char) id = true →
  (observeIdentity w).2 = Some id.
Proof.
  intros Hrun Hglob Hdepot Hid. unfold observeIdentity, cmdrunner.RunCommand.
  destruct (Run_success (context.WithTimeout context.Background 60)
              "tools/DepotDownloader" (depot ["-manifest-only"]) (manifest_fetch w) Hrun)
    as [trace ->].
  rewrite Hglob.
  change ("data/manifest_" +:+ depotID +:+ "_" +:+ id +:+ ".txt")
    with ("data/manifest" +:+ String "_" (depotID +:+ String "_" (id +:+ ".txt"))).
  rewrite !Split1_append.
  rewrite (Split1_one_piece _ depotID), (Split1_one_piece _ (id +:+ ".txt")); [|by rewrite all_bytes_append, Hid|done].
  change (strings.Split1 "_" "data/manifest") with ["data/manifest"].
  cbn [app]. rewrite TrimSuffix_append. reflexivity.
Qed.

Lemma identity_is_read_off_the_manifest_name_witness :
  (observeIdentity world_changed).2 = Some "5002689339188222421".
Proof.
  apply (identity_is_read_off_the_manifest_name world_changed "2347770"
           "5002689339188222421" []); reflexivity.
Defined.

Lemma perform_bind_trace {A : Type} (e : effect) (k : unit → action A) :
  (perform e ≫= k).1 = e :: (k tt).1.
Proof. unfold mbind, action_bind, bind, perform. by destruct (k tt). Qed.

(** [refresh] begins by storing the new identity. *)
Lemma refresh_head (w : world) (newManifestID : string) :
  ∃ rest,
    (refresh w newManifestID).1
    = Log ("Manifest is new or changed. New ID: " +:+ newManifestID)
      :: WriteFile identityFile newManifestID :: rest.
Proof. unfold refresh. rewrite !perform_bind_trace. by eexists. Qed.

(** The trace of [main]: what leads up to the comparison, and then either
    the message that nothing has changed or the trace of [refresh]. *)
Lemma main_trace (w : world) :
  ∃ upto past,
    (main w).1 = upto ++ past
    ∧ Forall before_gate upto
    ∧ (Forall before_gate past
       ∨ ∃ newManifestID trackedID,
           (observeIdentity w).2 = Some newManifestID
           ∧ (readTrackedID w).2 = Some trackedID
           ∧ unchanged trackedID newManifestID = false
           ∧ past = (refresh w newManifestID).1).
Proof.
  pose proof (checkDependencies_before_gate w) as Hb0.
  pose proof (observeIdentity_before_gate w) as Hb1.
  pose proof (readTrackedID_before_gate w) as Hb2.
  unfold always in Hb0, Hb1, Hb2. unfold main.
  destruct (checkDependencies w) as [tr0 [[]|]]; simpl in *.
  2: { exists tr0, []. rewrite app_nil_r. split_and!; [done..|]. left. constructor. }
  destruct (observeIdentity w) as [tr1 [newManifestID|]]; simpl in *.
  2: { exists (tr0 ++ tr1), []. rewrite app_nil_r. split_and!; [done|by apply Forall_app|].
       left. constructor. }
  destruct (readTrackedID w) as [tr2 [trackedID|]]; simpl in *.
  2: { exists (tr0 ++ tr1 ++ tr2), []. rewrite app_nil_r.
       split_and!; [done|by rewrite !Forall_app|]. left. constructor. }
  destruct (unchanged trackedID newManifestID) eqn:Hgate; simpl.
  - exists (tr0 ++ tr1 ++ tr2), [Log "Manifest ID matches the current ID. Exiting."].
    split_and!; [by rewrite !app_assoc|by rewrite !Forall_app|].
    left. by repeat constructor.
  - exists (tr0 ++ tr1 ++ tr2), (refresh w newManifestID).1.
    destruct (refresh w newManifestID) as [tr3 r3] eqn:Hrefresh. simpl.
    split_and!; [by rewrite <- !app_assoc|by rewrite !Forall_app|].
    right. exists newManifestID, trackedID. by rewrite Hrefresh.
Qed.

(** A write to the identity file stores the identity just observed. *)
Lemma written_identity (w : world) (data : string) :
  WriteFile identityFile data ∈ (main w).1 → (observeIdentity w).2 = Some data.
Proof.
  destruct (main_trace w) as (upto & past & -> & Hupto & Hpast).
  rewrite Forall_forall in Hupto.
  intros [Hin|Hin]%elem_of_app; [by apply Hupto in Hin|].
  destruct Hpast as [Hpast|(newManifestID & trackedID & Hnew & _ & _ & ->)].
  - rewrite Forall_forall in Hpast. by apply Hpast in Hin.
  - pose proof (refresh_writes w newManifestID) as Hr. unfold always in Hr.
    rewrite Forall_forall in Hr. by rewrite (Hr _ Hin data eq_refl).
Qed.

(** A run that finds the identity it observes in the identity file stops
    at the comparison. *)
Lemma main_gated (w : world) (id : string) :
  (observeIdentity w).2 = Some id →
  (readTrackedID w).2 = Some id →
  id ≠ EmptyString →
  always before_gate (main w) ∧ (tools w = None → (main w).2 = Some tt).
Proof.
  intros Hnew Hold Hid.
  assert (unchanged id id = true) as Hgate.
  { unfold unchanged. rewrite bool_decide_eq_true_2 by done.
    by rewrite bool_decide_eq_false_2 by done. }
  split.
  - destruct (main_trace w) as (upto & past & Htrace & Hupto & Hpast).
    unfold always. rewrite Htrace. apply Forall_app. split; [done|].
    destruct Hpast as [Hpast|(newManifestID & trackedID & Hnew' & Hold' & Hgate' & _)];
      [done|].
    simplify_eq. congruence.
  - intros Htools. unfold main, checkDependencies. rewrite Htools.
    destruct (observeIdentity w) as [tr1 [id1|]]; [|done].
    destruct (readTrackedID w) as [tr2 [id2|]]; [|done].
    simpl in Hnew, Hold. simplify_eq. simpl. by rewrite Hgate.
Qed.

(** X9. Two runs in a row.  When a run has written the identity file,
    whether or not it went on to the end, the next run that observes the same
    identity on the manifest and reads the file as it was written stops at
    the comparison: it fetches the manifest and starts no other process,
    creates no temporary file and writes nothing.  This holds for an
    identity that is not empty and has no white space at its ends. *)
Theorem unchanged_manifest_is_not_fetched_again (w1 w2 : world) (id data : string) :
  (observeIdentity w1).2 = Some id →
  WriteFile identityFile data ∈ (main w1).1 →
  (observeIdentity w2).2 = Some id →
  identity_exists w2 = true →
  identity_read w2 = inl data →
  id ≠ EmptyString →
  strings.TrimSpace id = id →
  always before_gate (main w2) ∧ (tools w2 = None → (main w2).2 = Some tt).
Proof.
  intros Hnew1 Hwrite Hnew2 Hexists Hread Hid Htrim.
  apply written_identity in Hwrite. rewrite Hnew1 in Hwrite. injection Hwrite as ->.
  apply (main_gated w2 data); [done| |done].
  unfold readTrackedID. rewrite Hexists, Hread. simpl. by rewrite Htrim.
Qed.

Lemma unchanged_manifest_is_not_fetched_again_witness :
  always before_gate (main world_second_run)
  ∧ (tools world_second_run = None → (main world_second_run).2 = Some tt).
Proof.
  apply (unchanged_manifest_is_not_fetched_again world_changed world_second_run
           "5002689339188222421" "5002689339188222421").
  - reflexivity.
  - apply list_elem_of_In. vm_compute. tauto.
  - reflexivity.
  - reflexivity.
  - reflexivity.
  - discriminate.
  - vm_compute. reflexivity.
Defined.

(** X10. The identity is stored before anything is downloaded: in every
    run, whatever is done beyond what leads up to the comparison (a
    temporary file, the fetch of the directory file, the listing, the fetch
    of the segments, the extraction, the update of [cdn.json]) comes after
    the write of the new identity to the identity file.  A run that fails
    later leaves the new identity behind. *)
Theorem identity_is_stored_before_the_downloads
    (w : world) (before : list effect) (e : effect) (after : list effect) :
  (main w).1 = before ++ e :: after →
  ¬ before_gate e →
  (∀ data, e ≠ WriteFile identityFile data) →
  ∃ newManifestID,
    (observeIdentity w).2 = Some newManifestID
    ∧ WriteFile identityFile newManifestID ∈ before.
Proof.
  intros Htrace Hpast Hother.
  destruct (main_trace w) as (upto & past & Hmain & Hupto & Hrefresh).
  rewrite Hmain in Htrace. rewrite Forall_forall in Hupto.
  assert (e ∉ upto) as Hnot by (intros Hin; by apply Hupto in Hin).
  destruct Hrefresh as [Hquiet|(newManifestID & trackedID & Hnew & _ & _ & ->)].
  { exfalso. rewrite Forall_forall in Hquiet.
    assert (e ∈ upto ++ past) as [Hin|Hin]%elem_of_app; [|done|by apply Hquiet in Hin].
    rewrite Htrace. apply elem_of_app. right. apply elem_of_cons. by left. }
  exists newManifestID. split; [done|].
  destruct (refresh_head w newManifestID) as [rest Hhead]. rewrite Hhead in Htrace.
  apply app_eq_inv in Htrace as [(mid & -> & Hmid)|(mid & -> & Hmid)].
  - destruct mid as [|e0 mid]; simplify_eq/=.
    + by destruct Hpast.
    + destruct Hnot. apply elem_of_app. right. apply elem_of_cons. by left.
  - apply elem_of_app. right.
    destruct mid as [|e0 [|e1 mid]]; simplify_eq/=.
    + by destruct Hpast.
    + by destruct (Hother newManifestID).
    + apply elem_of_cons. right. apply elem_of_cons. by left.
Qed.

Lemma identity_is_stored_before_the_downloads_witness :
  ∃ newManifestID,
    (observeIdentity world_changed).2 = Some newManifestID
    ∧ WriteFile identityFile newManifestID
      ∈ take 12 (main world_changed).1.
Proof.
  apply (identity_is_stored_before_the_downloads world_changed
           (take 12 (main world_changed).1)
           (CreateTemp "dir-file_*.txt")
           (drop 13 (main world_changed).1)).
  - vm_compute. reflexivity.
  - intros [].
  - discriminate.
Defined.

(** * Reasoning along a list of operations *)

Section ensures.

Context {A B : Type} (P : op → Prop).

Lemma ensures_ret (a : A) : ensures P (mret a).
Proof. constructor. Qed.

Lemma ensures_emit (o : op) : P o → ensures P (emit o).
Proof. intros Ho. by apply Forall_singleton. Qed.

Lemma ensures_bind (m : traced A) (k : A → traced B) :
  ensures P m → ensures P (k m.2) → ensures P (m ≫= k).
Proof.
  unfold ensures, mbind, traced_bind. intros Hm Hk.
  destruct (k m.2) as [later b]. simpl in *. by apply Forall_app.
Qed.

End ensures.

Lemma bind_trace {A B : Type} (m : traced A) (k : A → traced B) :
  (m ≫= k).1 = m.1 ++ (k m.2).1.
Proof. unfold mbind, traced_bind. by destruct (k m.2). Qed.

Lemma bind_value {A B : Type} (m : traced A) (k : A → traced B) :
  (m ≫= k).2 = (k m.2).2.
Proof. unfold mbind, traced_bind. by destruct (k m.2). Qed.

(** Walks along a computation: one goal per operation it can perform. *)
Ltac stroll :=
  repeat match goal with
    | |- ensures _ (mret _) => apply ensures_ret
    | |- ensures _ (emit _) => apply ensures_emit
    | |- ensures _ (_ ≫= _) => apply ensures_bind
    | |- ensures _ (match ?x with _ => _ end) => destruct x eqn:?
    end.

(** * What [Clean] writes *)

Section clean_stack.

Lemma Split1_Join (sep : ascii) (elems : list string) :
  elems ≠ [] →
  Forall (λ e, all_bytes (other_than sep) e = true) elems →
  strings.Split1 sep (strings.Join elems (String sep EmptyString)) = elems.
Proof.
  intros Hne Helems. induction Helems as [|e elems He Helems IH]; [done|].
  destruct elems as [|e' elems]; [by apply Split1_one_piece|].
  change (strings.Join (e :: e' :: elems) (String sep EmptyString))
    with (e +:+ String sep (strings.Join (e' :: elems) (String sep EmptyString))).
  rewrite Split1_append, (Split1_one_piece _ e He), IH; done.
Qed.

Lemma plain_not_dotdot (e : string) : plain e → e ≠ "..".
Proof. intros (_ & _ & _ & Hdd) ->. done. Qed.

Lemma stack_ok_pop (last : string) (before : list string) :
  stack_ok (last :: before) → stack_ok before.
Proof.
  inversion 1 as [k Hk|]; [|done].
  destruct k as [|k]; simplify_eq/=. apply stack_ups.
Qed.

Lemma stack_ok_up (out : list string) :
  stack_ok (".." :: out) → stack_ok (".." :: ".." :: out).
Proof.
  inversion 1 as [k Hk|e out' He]; [|by apply plain_not_dotdot in He].
  destruct k as [|k]; simplify_eq/=. apply (stack_ups (S (S k))).
Qed.

(** The elements [Clean] writes: a run of [..], then proper names. *)
Lemma clean_elems_stack (rooted : bool) (elems : list string) :
  Forall (λ e, all_bytes (other_than filepath.Separator) e = true) elems →
  ∀ out, stack_ok out →
         ∃ out', filepath.clean_elems rooted out elems = rev out' ∧ stack_ok out'.
Proof.
  induction 1 as [|e elems He _ IH]; intros out Hout; simpl; [by exists out|].
  destruct (filepath.is_empty e) eqn:Hempty; [by apply IH|].
  destruct (filepath.is_dot e) eqn:Hdot; [by apply IH|]. simpl.
  destruct (filepath.is_dotdot e) eqn:Hdotdot; [|by apply IH, stack_push].
  apply bool_decide_eq_true in Hdotdot as ->.
  destruct out as [|last before].
  - destruct rooted; apply IH; [done|]. apply (stack_ups 1).
  - destruct (filepath.is_dotdot last) eqn:Hlast.
    + apply bool_decide_eq_true in Hlast as ->. by apply IH, stack_ok_up.
    + apply IH. by apply stack_ok_pop in Hout.
Qed.

(** A stack whose bottom element is a proper name holds proper names
    only. *)
Lemma stack_ok_plain (out : list string) :
  stack_ok out →
  (∀ bottom, last out = Some bottom → bottom ≠ "..") →
  Forall plain out.
Proof.
  induction 1 as [k|e out He Hout IH]; intros Hbottom.
  - destruct k as [|k]; [constructor|].
    destruct (Hbottom ".."); [|done].
    rewrite last_lookup, length_replicate. apply lookup_replicate_2. simpl. lia.
  - constructor; [done|]. apply IH. intros bottom Hlast. apply Hbottom.
    destruct out; [done|]. done.
Qed.

End clean_stack.

(** * Properties of the provisioning of the tools *)

Section zip_slip.

Lemma last_head_rev {A : Type} (l : list A) : last l = head (rev l).
Proof.
  induction l as [|x l IH]; [done|]. simpl rev. rewrite head_snoc, <- IH.
  apply last_cons.
Qed.

Lemma stack_ok_sep_free (out : list string) :
  stack_ok out →
  Forall (λ e, all_bytes (other_than filepath.Separator) e = true) out.
Proof.
  induction 1 as [k|e out (He & _) _ IH]; [|by constructor].
  apply Forall_forall. by intros e [-> _]%elem_of_replicate.
Qed.

Lemma Split1_sep_free (sep : ascii) (s : string) :
  Forall (λ e, all_bytes (other_than sep) e = true) (strings.Split1 sep s).
Proof.
  induction s as [|c s IH]; simpl; [by repeat constructor|].
  destruct (decide (c = sep)) as [|Hc]; [by constructor|].
  assert (other_than sep c = true) as Hother
    by (unfold other_than; by rewrite bool_decide_eq_false_2).
  destruct (strings.Split1 sep s) as [|piece rest].
  - repeat constructor. simpl. by rewrite Hother.
  - apply Forall_cons in IH as [Hpiece Hrest]. constructor; [|done].
    simpl. by rewrite Hother, Hpiece.
Qed.

(** A relative directory of proper names is not empty and not rooted. *)
Lemma plain_dir_relative (toolsDir : string) :
  Forall plain (path_elements toolsDir) →
  toolsDir ≠ EmptyString ∧ filepath.is_rooted toolsDir = false.
Proof.
  intros Hdir.
  assert (toolsDir ≠ EmptyString) as Hne.
  { intros ->. apply Forall_cons in Hdir as [(_ & _ & Hdot & _) _]. done. }
  split; [done|].
  destruct (filepath.is_rooted toolsDir) eqn:Hrooted; [exfalso|done].
  unfold path_elements in Hdir. rewrite Clean_nonempty, Hrooted in Hdir by done.
  unfold filepath.assemble in Hdir.
  change ("/" +:+ ?x) with (String "/" x) in Hdir. simpl in Hdir.
  apply Forall_cons in Hdir as [(_ & Hempty & _) _]. done.
Qed.

(** The test of [extractZip] on the path of a file is sound for such a
    directory: a path that passes lies inside it. *)
Lemma guard_sound (toolsDir name : string) :
  Forall plain (path_elements toolsDir) →
  strings.HasPrefix (filepath.Join [toolsDir; name])
    (filepath.Clean toolsDir +:+ String filepath.Separator EmptyString) = true →
  inside toolsDir (filepath.Join [toolsDir; name]).
Proof.
  intros Hdir Hguard.
  destruct (plain_dir_relative toolsDir Hdir) as [Hne Hrel].
  apply HasPrefix_inv in Hguard as [rest Hrest].
  rewrite append_assoc in Hrest.
  change (String filepath.Separator EmptyString +:+ rest)
    with (String filepath.Separator rest) in Hrest.
  assert (strings.Split1 filepath.Separator (filepath.Join [toolsDir; name])
          = path_elements toolsDir ++ strings.Split1 filepath.Separator rest) as Hsplit.
  { rewrite Hrest. apply Split1_append. }
  exists (strings.Split1 filepath.Separator rest).
  split; [apply Split1_nonempty|]. split; [|done].
  assert (filepath.Join [toolsDir; name]
          = filepath.Clean (toolsDir +:+ String filepath.Separator name)) as Hjoin.
  { simpl filepath.Join. unfold filepath.is_empty.
    by rewrite bool_decide_eq_false_2 by done. }
  rewrite Clean_nonempty, is_rooted_append, Hrel in Hjoin by (try done; by destruct toolsDir).
  destruct (clean_elems_stack false
              (strings.Split1 filepath.Separator (toolsDir +:+ String filepath.Separator name))
              (Split1_sep_free _ _) [] (stack_ups 0)) as (out & Hout & Hstack).
  rewrite Hout in Hjoin.
  assert (path_elements toolsDir ≠ []) as Hsome by apply Split1_nonempty.
  destruct (path_elements toolsDir) as [|first others] eqn:Helems; [done|].
  apply Forall_cons in Hdir as [Hfirst Hothers].
  assert (strings.Split1 filepath.Separator (filepath.Join [toolsDir; name]) = rev out)
    as Hout'.
  { rewrite Hjoin. unfold filepath.assemble. rewrite append_nil_l.
    destruct (filepath.is_empty (strings.Join (rev out) "/")) eqn:Hnone.
    - exfalso. rewrite Hjoin in Hsplit. unfold filepath.assemble in Hsplit.
      rewrite append_nil_l, Hnone in Hsplit.
      apply (f_equal length) in Hsplit. rewrite length_app in Hsplit.
      pose proof (Split1_nonempty filepath.Separator rest) as Hrest'.
      destruct (strings.Split1 filepath.Separator rest); [done|]. simpl in Hsplit. lia.
    - apply Split1_Join.
      + intros Hnil. rewrite Hnil in Hnone. done.
      + apply Forall_rev. by apply stack_ok_sep_free. }
  rewrite Hout' in Hsplit.
  assert (Forall plain out) as Hplain.
  { apply stack_ok_plain; [done|]. intros bottom Hbottom.
    rewrite last_head_rev, Hsplit in Hbottom. simpl in Hbottom. simplify_eq.
    by apply plain_not_dotdot. }
  apply Forall_rev in Hplain. rewrite Hsplit in Hplain.
  change (first :: others ++ strings.Split1 filepath.Separator rest)
    with ((first :: others) ++ strings.Split1 filepath.Separator rest) in Hplain.
  by apply Forall_app in Hplain as [_ ?].
Qed.

Lemma extractFile_within (toolsDir : string) (file : dependencies.zip_file) :
  Forall plain (path_elements toolsDir) →
  ensures (within toolsDir) (dependencies.extractFile toolsDir file).
Proof.
  intros Hdir. unfold dependencies.extractFile.
  destruct (dependencies.file_is_dir file); [apply ensures_ret|].
  destruct (strings.HasPrefix _ _) eqn:Hguard; [|apply ensures_ret].
  apply guard_sound in Hguard; [|done]. simpl negb. cbv iota.
  stroll; done.
Qed.

Lemma extractFiles_within (toolsDir : string) (files : list dependencies.zip_file) :
  Forall plain (path_elements toolsDir) →
  ensures (within toolsDir) (dependencies.extractFiles toolsDir files).
Proof.
  intros Hdir. induction files as [|file files IH]; simpl; [apply ensures_ret|].
  apply ensures_bind; [by apply extractFile_within|].
  destruct (dependencies.extractFile toolsDir file).2; [apply ensures_ret|done].
Qed.

End zip_slip.

Lemma extractZip_within (zipReader : dependencies.archive) (toolsDir : string) :
  Forall plain (path_elements toolsDir) →
  ensures (within toolsDir) (dependencies.extractZip zipReader toolsDir).
Proof.
  intros Hdir. unfold dependencies.extractZip.
  stroll; try done. by apply extractFiles_within.
Qed.

(** The test accepts every path that lies inside the directory. *)
Lemma guard_complete (toolsDir path : string) :
  inside toolsDir path →
  strings.HasPrefix path
    (filepath.Clean toolsDir +:+ String filepath.Separator EmptyString) = true.
Proof.
  intros (names & Hnames & _ & Hsplit).
  rewrite <- (Join_Split1 filepath.Separator path), Hsplit.
  rewrite Join_app by (try done; apply Split1_nonempty).
  unfold path_elements. rewrite Join_Split1, <- append_assoc.
  apply HasPrefix_append.
Qed.

(** X11. [extractZip] keeps to the directory it is given, whatever the
    names in the archive are: every file it creates, writes or makes
    executable has a path whose elements are those of the directory followed
    by one or more proper names, none of them [..].  Its test is exact: the
    path made of the directory and a name passes if and only if it lies
    inside the directory in this sense, so no file of the archive that
    belongs there is refused.  The directory is a relative path of proper
    names, such as [tools]. *)
Theorem extraction_stays_inside
    (zipReader : dependencies.archive) (toolsDir : string) :
  Forall plain (path_elements toolsDir) →
  ensures (within toolsDir) (dependencies.extractZip zipReader toolsDir)
  ∧ ∀ name,
      strings.HasPrefix (filepath.Join [toolsDir; name])
        (filepath.Clean toolsDir +:+ String filepath.Separator EmptyString) = true
      ↔ inside toolsDir (filepath.Join [toolsDir; name]).
Proof.
  intros Hdir. split.
  - unfold dependencies.extractZip. stroll; try done.
    by apply extractFiles_within.
  - intros name. split.
    + by apply guard_sound.
    + apply guard_complete.
Qed.

Lemma extraction_stays_inside_witness :
  ensures (within "tools") (dependencies.extractZip sample_archive "tools")
  ∧ ∀ name,
      strings.HasPrefix (filepath.Join ["tools"; name])
        (filepath.Clean "tools" +:+ String filepath.Separator EmptyString) = true
      ↔ inside "tools" (filepath.Join ["tools"; name]).
Proof.
  apply (extraction_stays_inside sample_archive "tools").
  repeat constructor.
Defined.

Lemma extractFiles_app (toolsDir : string) (files1 files2 : list dependencies.zip_file) :
  dependencies.extractFiles toolsDir (files1 ++ files2)
  = match (dependencies.extractFiles toolsDir files1).2 with
    | Some err => dependencies.extractFiles toolsDir files1
    | None =>
      ((dependencies.extractFiles toolsDir files1).1
       ++ (dependencies.extractFiles toolsDir files2).1,
       (dependencies.extractFiles toolsDir files2).2)
    end.
Proof.
  induction files1 as [|file files1 IH]; simpl.
  - by destruct (dependencies.extractFiles toolsDir files2).
  - unfold mbind, traced_bind. rewrite IH.
    destruct (dependencies.extractFile toolsDir file) as [tr [err|]]; simpl; [done|].
    destruct (dependencies.extractFiles toolsDir files1) as [tr1 [err|]]; simpl; [done|].
    by rewrite app_assoc.
Qed.

(** X12. [extractZip] stops at the first file whose path would leave
    the directory: it returns the error [illegal file path], the files
    before that one have been unpacked and stay, and no file after it is
    looked at. *)
Theorem extraction_stops_at_an_illegal_path
    (zipReader : dependencies.archive) (toolsDir : string)
    (before : list dependencies.zip_file) (file : dependencies.zip_file)
    (after : list dependencies.zip_file) :
  dependencies.body_read zipReader = None →
  dependencies.zip_files zipReader = inl (before ++ file :: after) →
  (dependencies.extractFiles toolsDir before).2 = None →
  dependencies.file_is_dir file = false →
  strings.HasPrefix (filepath.Join [toolsDir; dependencies.file_name file])
    (filepath.Clean toolsDir +:+ "/") = false →
  dependencies.extractZip zipReader toolsDir
  = (ReadAll :: (dependencies.extractFiles toolsDir before).1,
     Some (ErrNew ("illegal file path: "
                   +:+ filepath.Join [toolsDir; dependencies.file_name file]))).
Proof.
  intros Hread Hfiles Hbefore Hfile Hguard. unfold dependencies.extractZip.
  rewrite Hread, Hfiles, extractFiles_app, Hbefore.
  change (dependencies.extractFiles toolsDir (file :: after))
    with (dependencies.extractFile toolsDir file
            ≫= λ failed, match failed with
                         | Some err => mret (Some err)
                         | None => dependencies.extractFiles toolsDir after
                         end).
  unfold dependencies.extractFile. rewrite Hfile.
  change (String filepath.Separator EmptyString) with "/". rewrite Hguard.
  simpl. by rewrite app_nil_r.
Qed.

Lemma extraction_stops_at_an_illegal_path_witness :
  dependencies.extractZip sample_archive "tools"
  = (ReadAll :: (dependencies.extractFiles "tools"
                   [unpacked "DepotDownloader" false; unpacked "lib/" true;
                    unpacked "lib/steam.so" false]).1,
     Some (ErrNew ("illegal file path: " +:+ filepath.Join ["tools"; "../evil"]))).
Proof.
  apply (extraction_stops_at_an_illegal_path sample_archive "tools"
           [unpacked "DepotDownloader" false; unpacked "lib/" true;
            unpacked "lib/steam.so" false]
           (unpacked "../evil" false) [unpacked "README.md" false]).
  - reflexivity.
  - reflexivity.
  - vm_compute. reflexivity.
  - reflexivity.
  - vm_compute. reflexivity.
Defined.

Section provisioning.

Variable w : dependencies.provisioning.

Lemma downloadAndInstallTool_within (GOOS GOARCH : string) (d : dependencies.download)
    (tool : dependencies.Tool) (toolsDir : string) :
  Forall plain (path_elements toolsDir) →
  ensures (within toolsDir)
    (dependencies.downloadAndInstallTool GOOS GOARCH d tool toolsDir).
Proof.
  intros Hdir. unfold dependencies.downloadAndInstallTool.
  stroll; try done. by apply extractZip_within.
Qed.

Lemma inside_tools (name : string) :
  plain name → inside "tools" (filepath.Join ["tools"; name]).
Proof.
  intros Hname. exists [name]. split; [done|]. split; [by constructor|].
  rewrite Join_plain by done.
  change (filepath.is_rooted "tools") with false.
  change (kept "tools") with ["tools"].
  change (path_elements "tools") with ["tools"].
  unfold filepath.assemble. rewrite append_nil_l.
  change (strings.Join (["tools"] ++ [name]) "/") with ("tools" +:+ String "/" name).
  unfold filepath.is_empty. rewrite bool_decide_eq_false_2 by done.
  rewrite Split1_append. destruct Hname as (Hname & _).
  by rewrite (Split1_one_piece _ name).
Qed.

Lemma ensureEach_within (ts : list dependencies.Tool) :
  ensures (within "tools") (dependencies.ensureEach w "tools" ts).
Proof.
  induction ts as [|tool ts IH]; [apply ensures_ret|].
  cbn -[mbind mret emit filepath.Join]. stroll; try done.
  by apply downloadAndInstallTool_within; repeat constructor.
Qed.

Lemma permitEach_within (ts : list dependencies.Tool) :
  Forall (λ tool, plain (dependencies.ExecutableName tool)) ts →
  ensures (within "tools") (dependencies.permitEach w "tools" ts).
Proof.
  induction 1 as [|tool ts Htool _ IH]; [apply ensures_ret|].
  cbn -[mbind mret emit filepath.Join]. stroll; try done. by apply inside_tools.
Qed.

End provisioning.

(** X13. [EnsureTools] keeps to the directory [tools], whatever the
    releases and the archives hold: every file it creates, writes or makes
    executable lies inside [tools]. *)
Theorem tools_are_installed_inside_tools (w : dependencies.provisioning) :
  ensures (within "tools") (dependencies.EnsureTools w).
Proof.
  unfold dependencies.EnsureTools. stroll; try done.
  - apply ensureEach_within.
  - apply permitEach_within. repeat constructor.
Qed.

Lemma ensureEach_present (w : dependencies.provisioning) (ts : list dependencies.Tool) :
  Forall (λ tool, dependencies.fileExists (dependencies.stat (dependencies.answers w tool))
                  = true) ts →
  ensures (λ o, ¬ installs o) (dependencies.ensureEach w "tools" ts)
  ∧ (dependencies.ensureEach w "tools" ts).2 = None.
Proof.
  induction 1 as [|tool ts Htool _ [IHtrace IHvalue]]; [by split; [apply ensures_ret|]|].
  cbn -[mbind mret emit filepath.Join]. rewrite Htool.
  cbn -[mbind mret emit filepath.Join]. split.
  - stroll; try exact IHtrace; by intros [].
  - rewrite !bind_value. cbn -[mbind mret emit filepath.Join]. exact IHvalue.
Qed.

Lemma permitEach_quiet (w : dependencies.provisioning) (ts : list dependencies.Tool) :
  ensures (λ o, ¬ installs o) (dependencies.permitEach w "tools" ts).
Proof.
  induction ts as [|tool ts IH]; [apply ensures_ret|].
  cbn -[mbind mret emit filepath.Join]. stroll; try done; by intros [].
Qed.

(** X14. A tool that is there is not fetched again: when both
    executables exist, [EnsureTools] makes no request and unpacks nothing.
    It makes sure of the directory, looks at the two files and sets their
    permissions, and its result is that of setting the permissions. *)
Theorem present_tools_are_not_fetched (w : dependencies.provisioning) :
  (∀ tool, tool ∈ dependencies.tools →
           dependencies.fileExists (dependencies.stat (dependencies.answers w tool)) = true) →
  ensures (λ o, ¬ installs o) (dependencies.EnsureTools w)
  ∧ (dependencies.tools_dir_made w = None →
     (dependencies.EnsureTools w).2
     = (dependencies.permitEach w "tools" dependencies.tools).2).
Proof.
  intros Hpresent. apply Forall_forall in Hpresent.
  destruct (ensureEach_present w dependencies.tools Hpresent) as [Htrace Hvalue].
  unfold dependencies.EnsureTools. split.
  - stroll; try done; try (by intros []); apply permitEach_quiet.
  - intros ->. rewrite !bind_value. cbn -[mbind mret emit dependencies.tools].
    rewrite ?bind_value. by rewrite Hvalue.
Qed.

Lemma present_tools_are_not_fetched_witness :
  ensures (λ o, ¬ installs o) (dependencies.EnsureTools provisioned)
  ∧ (dependencies.tools_dir_made provisioned = None →
     (dependencies.EnsureTools provisioned).2
     = (dependencies.permitEach provisioned "tools" dependencies.tools).2).
Proof.
  apply (present_tools_are_not_fetched provisioned).
  intros tool _. reflexivity.
Defined.

Section asset_choice.

Variable suffix : string.

Lemma findAsset_first (before : list dependencies.Asset) (asset : dependencies.Asset)
    (after : list dependencies.Asset) :
  Forall (λ a, strings.HasSuffix (dependencies.asset_name a) suffix = false) before →
  strings.HasSuffix (dependencies.asset_name asset) suffix = true →
  dependencies.findAsset (before ++ asset :: after) suffix
  = dependencies.browser_download_url asset.
Proof.
  intros Hbefore Hasset. induction Hbefore as [|a before Ha _ IH]; simpl.
  - by rewrite Hasset.
  - by rewrite Ha.
Qed.

Lemma findAsset_none (release_assets : list dependencies.Asset) :
  Forall (λ a, strings.HasSuffix (dependencies.asset_name a) suffix = false) release_assets →
  dependencies.findAsset release_assets suffix = EmptyString.
Proof. induction 1 as [|a rest Ha _ IH]; simpl; [done|]. by rewrite Ha. Qed.

Lemma findAsset_elem (release_assets : list dependencies.Asset) :
  dependencies.findAsset release_assets suffix ≠ EmptyString →
  ∃ asset, asset ∈ release_assets
           ∧ strings.HasSuffix (dependencies.asset_name asset) suffix = true
           ∧ dependencies.browser_download_url asset
             = dependencies.findAsset release_assets suffix.
Proof.
  induction release_assets as [|a rest IH]; simpl; [done|].
  destruct (strings.HasSuffix (dependencies.asset_name a) suffix) eqn:Ha.
  - intros _. exists a. split; [apply elem_of_cons; by left|done].
  - intros (asset & Hin & Hasset)%IH. exists asset.
    split; [apply elem_of_cons; by right|done].
Qed.

Lemma extractFile_no_request (toolsDir : string) (file : dependencies.zip_file) :
  ensures (λ o, ∀ url, o ≠ HTTPGet url) (dependencies.extractFile toolsDir file).
Proof. unfold dependencies.extractFile. stroll; done. Qed.

Lemma extractFiles_no_request (toolsDir : string) (files : list dependencies.zip_file) :
  ensures (λ o, ∀ url, o ≠ HTTPGet url) (dependencies.extractFiles toolsDir files).
Proof.
  induction files as [|file files IH]; [apply ensures_ret|].
  cbn -[mbind mret emit dependencies.extractFile]. stroll; try done.
  apply extractFile_no_request.
Qed.

Lemma extractZip_no_request (zipReader : dependencies.archive) (toolsDir : string) :
  ensures (λ o, ∀ url, o ≠ HTTPGet url) (dependencies.extractZip zipReader toolsDir).
Proof.
  unfold dependencies.extractZip. stroll; try done.
  apply extractFiles_no_request.
Qed.

End asset_choice.

(** X15. Which asset [downloadAndInstallTool] downloads.  Once the
    latest release has been fetched and decoded, the asset is the first one
    of the release whose name ends with the suffix of the platform; assets
    after it are not considered, and no other address is requested.  When
    no name ends with the suffix, or when the first such asset has no
    download address, the call fails with the error that the asset was not
    found, after the one request for the release. *)
Theorem first_matching_asset_is_downloaded
    (GOOS GOARCH : string) (w : dependencies.download) (tool : dependencies.Tool)
    (toolsDir : string) (release : dependencies.Release) :
  dependencies.request_made w = None →
  dependencies.release_status w = inl 200 →
  dependencies.release_decoded w = inl release →
  let suffix := dependencies.platformSuffix GOOS GOARCH tool in
  let run := dependencies.downloadAndInstallTool GOOS GOARCH w tool toolsDir in
  let not_found :=
    ([HTTPGet (dependencies.releaseURL tool)],
     Some (ErrNew ("asset with suffix " +:+ suffix +:+ " not found in latest release"))) in
  (∀ before asset after,
     dependencies.assets release = before ++ asset :: after →
     Forall (λ a, strings.HasSuffix (dependencies.asset_name a) suffix = false) before →
     strings.HasSuffix (dependencies.asset_name asset) suffix = true →
     if decide (dependencies.browser_download_url asset = EmptyString)
     then run = not_found
     else
       (∃ rest,
          run.1 = HTTPGet (dependencies.releaseURL tool)
                  :: Printf ("Downloading " +:+ dependencies.Name tool +:+ " from "
                             +:+ dependencies.browser_download_url asset)
                  :: HTTPGet (dependencies.browser_download_url asset) :: rest)
       ∧ ∀ url, HTTPGet url ∈ run.1 →
                url = dependencies.releaseURL tool
                ∨ url = dependencies.browser_download_url asset)
  ∧ (Forall (λ a, strings.HasSuffix (dependencies.asset_name a) suffix = false)
       (dependencies.assets release) →
     run = not_found).
Proof.
  intros Hrequest Hstatus Hdecoded suffix run not_found. subst run not_found.
  cbv zeta.
  unfold dependencies.downloadAndInstallTool.
  rewrite Hrequest, Hstatus, Hdecoded. subst suffix.
  destruct (decide (200 ≠ dependencies.StatusOK)) as [Hcode|_]; [by destruct Hcode|].
  split.
  - intros before asset after -> Hbefore Hasset.
    rewrite (findAsset_first _ before asset after Hbefore Hasset).
    destruct (decide (dependencies.browser_download_url asset = EmptyString)) as [Hurl|Hurl];
      [reflexivity|].
    split.
    + rewrite !bind_trace. simpl. by eexists.
    + intros url Hin.
      assert (ensures (λ o, ∀ url', o = HTTPGet url' →
                            url' = dependencies.releaseURL tool
                            ∨ url' = dependencies.browser_download_url asset)
                (emit (HTTPGet (dependencies.releaseURL tool));;
                 emit (Printf ("Downloading " +:+ dependencies.Name tool +:+ " from "
                               +:+ dependencies.browser_download_url asset));;
                 emit (HTTPGet (dependencies.browser_download_url asset));;
                 match dependencies.asset_status w with
                 | inl assetStatus =>
                   if decide (assetStatus ≠ dependencies.StatusOK)
                   then mret (Some (ErrNew ("failed to download asset: status code "
                                            +:+ fmt.fmtInteger 0 assetStatus)))
                   else
                     emit (Printf ("Extracting " +:+ dependencies.Name tool +:+ "..."));;
                     failed ← dependencies.extractZip (dependencies.asset_body w) toolsDir;
                     match failed with
                     | Some err => mret (Some (ErrWrap "failed to extract zip: " err))
                     | None => mret None
                     end
                 | inr err => mret (Some (ErrWrap "failed to download asset: " err))
                 end)) as Htrace.
      { stroll; try (intros url' Heq; simplify_eq; by auto).
        eapply Forall_impl; [apply extractZip_no_request|].
        intros o Ho url' ->. by destruct (Ho url'). }
      unfold ensures in Htrace. rewrite Forall_forall in Htrace.
      by apply (Htrace _ Hin).
  - intros Hnone. rewrite (findAsset_none _ _ Hnone).
    by destruct (decide (EmptyString = EmptyString)).
Qed.

Lemma first_matching_asset_is_downloaded_witness :
  ∃ rest,
    (dependencies.downloadAndInstallTool "linux" "amd64" sample_download
       depot_downloader "tools").1
    = HTTPGet "https://api.github.com/repos/SteamRE/DepotDownloader/releases/latest"
      :: Printf "Downloading DepotDownloader from https://example.org/linux-x64.zip"
      :: HTTPGet "https://example.org/linux-x64.zip" :: rest.
Proof.
  destruct (first_matching_asset_is_downloaded "linux" "amd64" sample_download
              depot_downloader "tools" sample_release eq_refl eq_refl eq_refl)
    as [Hfirst _].
  specialize (Hfirst
    [ {| dependencies.asset_name := "DepotDownloader-framework.zip";
         dependencies.browser_download_url := "https://example.org/framework.zip" |} ]
    {| dependencies.asset_name := "DepotDownloader-linux-x64.zip";
       dependencies.browser_download_url := "https://example.org/linux-x64.zip" |}
    [ {| dependencies.asset_name := "old-DepotDownloader-linux-x64.zip";
         dependencies.browser_download_url := "https://example.org/old.zip" |} ]
    eq_refl).
  destruct (decide _) as [Hurl|_] in Hfirst; [discriminate Hurl|].
  apply Hfirst.
  - repeat constructor.
  - reflexivity.
Defined.

(** X16. Nothing is unpacked before both responses are in: whenever
    [downloadAndInstallTool] reads an archive, makes a directory or creates,
    writes or changes a file, the request for the latest release and the
    request for the asset have both been answered with status 200, the
    release has been decoded, and one of its assets has a name that ends
    with the suffix of the platform and a download address. *)
Theorem nothing_is_unpacked_before_both_responses_are_ok
    (GOOS GOARCH : string) (w : dependencies.download) (tool : dependencies.Tool)
    (toolsDir : string) (o : op) :
  o ∈ (dependencies.downloadAndInstallTool GOOS GOARCH w tool toolsDir).1 →
  unpacks o →
  dependencies.request_made w = None
  ∧ dependencies.release_status w = inl 200
  ∧ dependencies.asset_status w = inl 200
  ∧ ∃ release asset,
      dependencies.release_decoded w = inl release
      ∧ asset ∈ dependencies.assets release
      ∧ strings.HasSuffix (dependencies.asset_name asset)
          (dependencies.platformSuffix GOOS GOARCH tool) = true
      ∧ dependencies.browser_download_url asset ≠ EmptyString
      ∧ HTTPGet (dependencies.browser_download_url asset)
        ∈ (dependencies.downloadAndInstallTool GOOS GOARCH w tool toolsDir).1.
Proof.
  intros Hin Hop.
  assert (∀ A (m : traced A), o ∈ m.1 → ensures (λ o', ¬ unpacks o') m → False) as Hnot.
  { intros A m Hm Hquiet. unfold ensures in Hquiet. rewrite Forall_forall in Hquiet.
    by apply (Hquiet o). }
  unfold dependencies.downloadAndInstallTool in *.
  destruct (dependencies.request_made w) as [err|];
    [exfalso; apply (Hnot _ _ Hin); stroll; by intros []|].
  destruct (dependencies.release_status w) as [status|err];
    [|exfalso; apply (Hnot _ _ Hin); stroll; by intros []].
  destruct (decide (status ≠ dependencies.StatusOK)) as [|Hstatus%dec_stable];
    [exfalso; apply (Hnot _ _ Hin); stroll; by intros []|].
  destruct (dependencies.release_decoded w) as [release|err];
    [|exfalso; apply (Hnot _ _ Hin); stroll; by intros []].
  destruct (decide (dependencies.findAsset _ _ = EmptyString)) as [|Hurl];
    [exfalso; apply (Hnot _ _ Hin); stroll; by intros []|].
  destruct (dependencies.asset_status w) as [assetStatus|err];
    [|exfalso; apply (Hnot _ _ Hin); stroll; by intros []].
  destruct (decide (assetStatus ≠ dependencies.StatusOK)) as [|HassetStatus%dec_stable];
    [exfalso; apply (Hnot _ _ Hin); stroll; by intros []|].
  subst. split_and!; [done..|].
  destruct (findAsset_elem _ _ Hurl) as (asset & Hasset & Hsuffix & Haddress).
  exists release, asset. split_and!; [done..|by rewrite Haddress|].
  rewrite Haddress, !bind_trace. simpl.
  apply elem_of_cons. right. apply elem_of_cons. right. apply elem_of_cons. by left.
Qed.

Lemma nothing_is_unpacked_before_both_responses_are_ok_witness :
  dependencies.request_made sample_download = None
  ∧ dependencies.release_status sample_download = inl 200
  ∧ dependencies.asset_status sample_download = inl 200
  ∧ ∃ release asset,
      dependencies.release_decoded sample_download = inl release
      ∧ asset ∈ dependencies.assets release
      ∧ strings.HasSuffix (dependencies.asset_name asset)
          (dependencies.platformSuffix "linux" "amd64" depot_downloader) = true
      ∧ dependencies.browser_download_url asset ≠ EmptyString
      ∧ HTTPGet (dependencies.browser_download_url asset)
        ∈ (dependencies.downloadAndInstallTool "linux" "amd64" sample_download
             depot_downloader "tools").1.
Proof.
  apply (nothing_is_unpacked_before_both_responses_are_ok "linux" "amd64" sample_download
           depot_downloader "tools" (Create "tools/DepotDownloader")).
  - apply list_elem_of_In. vm_compute. tauto.
  - exact I.
Defined.

(** X17. The asset looked for on each platform: for every value of
    [runtime.GOOS] and [runtime.GOARCH], the suffix is that of the tool with
    [linux] replaced by the name [checkOS] gives the system ([windows],
    [macos], [linux] for any other) and [x64] by the name [checkGOARCH]
    gives the architecture ([x64], [arm64], [arm], [x64] for any other). *)
Theorem asset_suffix_of_the_platform (GOOS GOARCH : string) :
  dependencies.platformSuffix GOOS GOARCH <$> dependencies.tools
  = [ "DepotDownloader-" +:+ dependencies.checkOS GOOS +:+ "-"
        +:+ dependencies.checkGOARCH GOARCH +:+ ".zip";
      "cli-" +:+ dependencies.checkOS GOOS +:+ "-"
        +:+ dependencies.checkGOARCH GOARCH +:+ ".zip" ]
  ∧ dependencies.checkOS GOOS ∈ ["windows"; "macos"; "linux"]
  ∧ dependencies.checkGOARCH GOARCH ∈ ["x64"; "arm64"; "arm"]
  ∧ (dependencies.checkOS GOOS = "linux" → dependencies.checkGOARCH GOARCH = "x64" →
     dependencies.platformSuffix GOOS GOARCH <$> dependencies.tools
     = dependencies.AssetNameSuffix <$> dependencies.tools).
Proof.
  unfold dependencies.platformSuffix, dependencies.checkOS, dependencies.checkGOARCH.
  repeat case_decide; (split; [vm_compute; reflexivity|]);
    (split; [apply list_elem_of_In; vm_compute; tauto|]);
    (split; [apply list_elem_of_In; vm_compute; tauto|]);
    intros Hos Harch; try discriminate Hos; try discriminate Harch;
    vm_compute; reflexivity.
Qed.

(** * Properties of the two walks over [static] *)

Section renaming.

Lemma HasPrefix_png_body (c : ascii) (body : string) :
  strings.HasPrefix (String c (body +:+ ".png")) "_png"
  = strings.HasPrefix (String c body) "_png"
  ∧ (strings.HasPrefix (String c body) "_png" = true → (3 ≤ String.length body)%nat).
Proof.
  split.
  - destruct body as [|x [|y [|z body]]]; simpl; repeat case_decide; subst; try done.
    by destruct body.
  - destruct body as [|x [|y [|z body]]]; simpl; repeat case_decide; try done;
      intros _; lia.
Qed.

(** No instance of [_png] reaches into the extension. *)
Lemma replace_from_png_suffix (body : string) :
  ∀ skip, (skip ≤ String.length body)%nat →
          strings.replace_from skip "_png" "" (body +:+ ".png")
          = strings.replace_from skip "_png" "" body +:+ ".png".
Proof.
  induction body as [|c body IH]; intros skip Hskip.
  - simpl in Hskip. by replace skip with 0%nat by lia.
  - rewrite append_cons.
    destruct (HasPrefix_png_body c body) as [Hsame Hroom].
    destruct skip as [|skip].
    + cbn [strings.replace_from]. rewrite Hsame.
      destruct (strings.HasPrefix (String c body) "_png") eqn:Hhere.
      * rewrite !append_nil_l. apply IH. simpl. by apply Hroom.
      * rewrite append_cons. f_equal. apply IH. lia.
    + cbn [strings.replace_from]. apply IH. simpl in Hskip. lia.
Qed.

Lemma replace_from_shorter (old s : string) :
  ∀ skip, (String.length (strings.replace_from skip old "" s) ≤ String.length s)%nat.
Proof.
  induction s as [|c s IH]; intros skip; [done|].
  destruct skip as [|skip]; cbn [strings.replace_from].
  - destruct (strings.HasPrefix (String c s) old).
    + rewrite append_nil_l. specialize (IH (Nat.pred (String.length old))). simpl. lia.
    + specialize (IH 0%nat). simpl. lia.
  - specialize (IH skip). simpl. lia.
Qed.

Lemma replace_from_bytes (p : ascii → bool) (old s : string) :
  all_bytes p s = true →
  ∀ skip, all_bytes p (strings.replace_from skip old "" s) = true.
Proof.
  induction s as [|c s IH]; intros Hs skip; [done|].
  simpl in Hs. apply andb_prop in Hs as [Hc Hs].
  destruct skip as [|skip]; cbn [strings.replace_from].
  - destruct (strings.HasPrefix (String c s) old).
    + rewrite append_nil_l. by apply IH.
    + simpl. by rewrite Hc, IH.
  - by apply IH.
Qed.

Lemma replace_from_absent (old new s : string) :
  (∀ before after, s ≠ before +:+ old +:+ after) →
  strings.replace_from 0 old new s = s.
Proof.
  induction s as [|c s IH]; intros Habsent; [done|].
  cbn [strings.replace_from].
  destruct (strings.HasPrefix (String c s) old) eqn:Hhere.
  - apply HasPrefix_inv in Hhere as [rest Hrest]. by destruct (Habsent EmptyString rest).
  - f_equal. apply IH. intros before after ->.
    by destruct (Habsent (String c before) after).
Qed.

Lemma trim_seps_plain (name : string) :
  all_bytes (other_than filepath.Separator) name = true →
  filepath.trim_seps name = name.
Proof.
  induction name as [|c name IH]; [done|]. simpl.
  intros [Hc Hname]%andb_prop. rewrite (IH Hname).
  unfold other_than in Hc. apply negb_true_iff, bool_decide_eq_false in Hc.
  destruct name; [by rewrite decide_False|done].
Qed.

Lemma trim_seps_append (s t : string) :
  t ≠ EmptyString → filepath.trim_seps t = t →
  filepath.trim_seps (s +:+ t) = s +:+ t.
Proof.
  intros Hne Ht. induction s as [|c s IH]; [done|].
  rewrite append_cons. simpl. rewrite IH.
  destruct (s +:+ t) eqn:Hst; [|done].
  by apply append_eq_nil in Hst as [_ ?].
Qed.

Lemma kept_sep_free (dir : string) :
  Forall (λ e, all_bytes (other_than filepath.Separator) e = true) (kept dir).
Proof.
  unfold kept. destruct (filepath.is_empty dir); [constructor|].
  apply clean_elems_Forall; [constructor|apply Split1_sep_free].
Qed.

(** The last element of a path joined from a directory and a proper name
    is that name. *)
Lemma Base_Join_plain (dir name : string) :
  plain name → filepath.Base (filepath.Join [dir; name]) = name.
Proof.
  intros Hplain. pose proof Hplain as (Hfree & Hempty & _).
  assert (name ≠ EmptyString) as Hname by (by apply bool_decide_eq_false in Hempty).
  rewrite Join_plain by done.
  destruct (assemble_snoc_suffix (filepath.is_rooted dir) (kept dir) name Hname)
    as [before Hbefore].
  unfold filepath.Base. rewrite Hbefore.
  unfold filepath.is_empty at 1. rewrite bool_decide_eq_false_2
    by (intros [_ ?]%append_eq_nil; done).
  rewrite trim_seps_append by (try done; by apply trim_seps_plain).
  rewrite <- Hbefore.
  assert (filepath.last_elem (filepath.assemble (filepath.is_rooted dir) (kept dir ++ [name]))
          = name) as ->; [|by rewrite Hempty].
  unfold filepath.assemble, filepath.last_elem.
  assert (strings.Split1 filepath.Separator (strings.Join (kept dir ++ [name]) "/")
          = kept dir ++ [name]) as Hsplit.
  { apply Split1_Join; [by destruct (kept dir)|].
    apply Forall_app. split; [apply kept_sep_free|by constructor]. }
  unfold filepath.is_empty. rewrite bool_decide_eq_false_2.
  - destruct (filepath.is_rooted dir).
    + change ("/" +:+ ?x) with (EmptyString +:+ String filepath.Separator x).
      rewrite Split1_append, Hsplit. simpl. by rewrite last_cons, last_snoc.
    + rewrite append_nil_l, Hsplit. by rewrite last_snoc.
  - intros [_ Hjoin]%append_eq_nil. by apply Join_snoc_nonempty in Hjoin.
Qed.

End renaming.

(** X18. What [findAndRenameFiles] renames.  An entry is renamed when
    its name ends with [.png], file or directory, and only then; it stays in
    its directory, and its new name is the old one without the instances of
    [_png], found from left to right.  The new name still ends with [.png],
    is not longer than the old one, and is the old one when that does not
    contain [_png]. *)
Theorem renamed_images_keep_their_extension
    (v : images.visit) (oldpath newpath : string) :
  Rename oldpath newpath ∈ (images.renameFile v).1 →
  all_bytes (other_than filepath.Separator) (images.visit_name v) = true →
  let newName := strings.ReplaceAll (images.visit_name v) "_png" "" in
  oldpath = images.visit_path v
  ∧ images.visit_error v = None
  ∧ strings.HasSuffix (images.visit_name v) ".png" = true
  ∧ newpath = filepath.Join [filepath.Dir oldpath; newName]
  ∧ filepath.Base newpath = newName
  ∧ strings.HasSuffix newName ".png" = true
  ∧ (String.length newName ≤ String.length (images.visit_name v))%nat
  ∧ ((∀ before after, images.visit_name v ≠ before +:+ "_png" +:+ after) →
     newName = images.visit_name v).
Proof.
  intros Hin Hname newName. unfold images.renameFile in Hin.
  destruct (images.visit_error v) as [err|].
  { rewrite bind_trace in Hin. simpl in Hin.
    apply list_elem_of_singleton in Hin. discriminate. }
  destruct (strings.HasSuffix (images.visit_name v) ".png") eqn:Hpng;
    [|by apply elem_of_nil in Hin].
  rewrite bind_trace in Hin. simpl in Hin. apply list_elem_of_singleton in Hin.
  injection Hin as -> ->. fold newName.
  assert (strings.HasSuffix newName ".png" = true) as Hkept.
  { apply HasSuffix_inv in Hpng as [body Hbody]. subst newName. rewrite Hbody.
    unfold strings.ReplaceAll. rewrite decide_False by done.
    rewrite replace_from_png_suffix by lia. apply HasSuffix_append. }
  assert (plain newName) as Hplain.
  { unfold plain. split_and!.
    - subst newName. unfold strings.ReplaceAll. rewrite decide_False by done.
      by apply replace_from_bytes.
    - apply bool_decide_eq_false_2. intros Heq. by rewrite Heq in Hkept.
    - apply bool_decide_eq_false_2. intros Heq. by rewrite Heq in Hkept.
    - apply bool_decide_eq_false_2. intros Heq. by rewrite Heq in Hkept. }
  split_and!; try done.
  - by apply Base_Join_plain.
  - subst newName. unfold strings.ReplaceAll. rewrite decide_False by done.
    apply replace_from_shorter.
  - intros Habsent. subst newName. unfold strings.ReplaceAll.
    rewrite decide_False by done. by apply replace_from_absent.
Qed.

Lemma renamed_images_keep_their_extension_witness :
  "static/panorama/images/econ/ak47_png.png" = images.visit_path extracted_image
  ∧ filepath.Base "static/panorama/images/econ/ak47.png"
    = strings.ReplaceAll (images.visit_name extracted_image) "_png" ""
  ∧ strings.HasSuffix (strings.ReplaceAll (images.visit_name extracted_image) "_png" "")
      ".png" = true.
Proof.
  destruct (renamed_images_keep_their_extension extracted_image
              "static/panorama/images/econ/ak47_png.png"
              "static/panorama/images/econ/ak47.png")
    as (Hold & _ & _ & _ & Hbase & Hsuffix & _).
  - apply list_elem_of_In. vm_compute. tauto.
  - vm_compute. reflexivity.
  - split_and!; assumption.
Defined.

Section publishing.

Variable ToLower : string → string.

Lemma addImage_lookup (entries : gmap string string) (v : images.visit) (path : string) :
  images.addImage ToLower entries v !! path
  = if is_image ToLower v && bool_decide (images.visit_path v = path)
    then Some (images.baseURL +:+ path)
    else entries !! path.
Proof.
  unfold images.addImage, is_image.
  destruct (images.visit_error v); [done|].
  destruct (negb _ && _); [|done]. simpl.
  destruct (bool_decide_reflect (images.visit_path v = path)) as [->|Hother].
  - by rewrite lookup_insert_eq.
  - by rewrite lookup_insert_ne.
Qed.

(** The entries after the walk: the images of the walk with their
    addresses, every other path as before. *)
Lemma addImages_lookup (visits : list images.visit) (path : string) :
  ∀ entries,
    images.addImages ToLower entries visits !! path
    = if published ToLower visits path
      then Some (images.baseURL +:+ path)
      else entries !! path.
Proof.
  unfold images.addImages.
  induction visits as [|v visits IH]; intros entries; simpl; [done|].
  rewrite IH, addImage_lookup.
  destruct (published ToLower visits path); [by rewrite orb_true_r|].
  by rewrite orb_false_r.
Qed.

End publishing.

(** X19. What [addImagesToCDN] does to the entries of [cdn.json].
    Every image found by the walk (no directory, no entry that could not be
    read, a name whose lower-case form ends with [.png]) is entered under
    its path with the address of the CDN followed by that path.  Every
    other entry stays as it was; none is removed.  To update the entries
    again over the same walk changes nothing. *)
Theorem published_entries_are_merged
    (ToLower : string → string) (entries : gmap string string)
    (visits : list images.visit) :
  let updated := images.addImages ToLower entries visits in
  (∀ v, v ∈ visits → is_image ToLower v = true →
        updated !! images.visit_path v
        = Some (images.baseURL +:+ images.visit_path v))
  ∧ (∀ path, (∀ v, v ∈ visits → is_image ToLower v = true → images.visit_path v ≠ path) →
             updated !! path = entries !! path)
  ∧ dom entries ⊆ dom updated
  ∧ images.addImages ToLower updated visits = updated.
Proof.
  intros updated. subst updated.
  assert (∀ path, published ToLower visits path = true
                  ↔ ∃ v, v ∈ visits ∧ is_image ToLower v = true
                         ∧ images.visit_path v = path) as Hpublished.
  { intros path. unfold published. rewrite existsb_exists. split.
    - intros (v & Hin%list_elem_of_In & [Himage Hpath%bool_decide_eq_true]%andb_prop).
      by exists v.
    - intros (v & Hin & Himage & Hpath). exists v.
      split; [by apply list_elem_of_In|]. rewrite Himage. by apply bool_decide_eq_true. }
  split_and!.
  - intros v Hin Himage. rewrite addImages_lookup.
    destruct (published ToLower visits (images.visit_path v)) eqn:Hfound; [done|].
    assert (published ToLower visits (images.visit_path v) = true) as Htrue
      by (apply Hpublished; by exists v).
    congruence.
  - intros path Hother. rewrite addImages_lookup.
    destruct (published ToLower visits path) eqn:Hfound; [|done].
    apply Hpublished in Hfound as (v & Hin & Himage & Hpath).
    by destruct (Hother v Hin Himage).
  - intros path. rewrite !elem_of_dom, addImages_lookup.
    by destruct (published ToLower visits path).
  - apply map_eq. intros path. rewrite !addImages_lookup.
    by destruct (published ToLower visits path).
Qed.

(** * The stages of a run, one after the other *)

Section steps.

Context {A B C : Type}.

Lemma bind_assoc (m : action A) (k1 : A → action B) (k2 : B → action C) :
  (m ≫= k1) ≫= k2 = m ≫= (λ a, k1 a ≫= k2).
Proof.
  unfold mbind, action_bind, bind. destruct m as [tr [a|]]; [|done].
  destruct (k1 a) as [tr1 [b|]]; [|done].
  destruct (k2 b) as [tr2 c]. by rewrite app_assoc.
Qed.

Lemma ret_bind (a : A) (k : A → action B) : mret a ≫= k = k a.
Proof. unfold mbind, action_bind, bind, mret, action_ret, ret. by destruct (k a). Qed.

Lemma Fatalf_bind (msg : string) (k : A → action B) : Fatalf msg ≫= k = Fatalf msg.
Proof. reflexivity. Qed.

Lemma perform_bind (e : effect) (k : unit → action B) :
  perform e ≫= k = (e :: (k tt).1, (k tt).2).
Proof. unfold mbind, action_bind, bind, perform. by destruct (k tt). Qed.

Lemma perform_all_bind (es : list effect) (k : unit → action B) :
  perform_all es ≫= k = (es ++ (k tt).1, (k tt).2).
Proof. unfold mbind, action_bind, bind, perform_all. by destruct (k tt). Qed.

End steps.




Section in_order.

Context {B : Type}.







End in_order.



Section tidy.

Context {B : Type} (w : world).

Lemma tidy_Fatalf (msg : string) : tidy w (@Fatalf B msg).
Proof.
  split; [|by intros [? ?]]. intros _.
  repeat constructor; intros path Hpath; discriminate Hpath.
Qed.

Lemma tidy_step (e : effect) (k : unit → action B) :
  removes_listing_only w e → tidy w (k tt) → tidy w (perform e ≫= k).
Proof.
  intros He [Hfail Hreturn]. rewrite perform_bind. split; simpl.
  - intros Hnone. constructor; [done|by apply Hfail].
  - intros Hsome. destruct (Hreturn Hsome). split; apply elem_of_cons; by right.
Qed.

Lemma tidy_steps (es : list effect) (k : unit → action B) :
  Forall (removes_listing_only w) es → tidy w (k tt) → tidy w (perform_all es ≫= k).
Proof.
  intros Hes [Hfail Hreturn]. rewrite perform_all_bind. split; simpl.
  - intros Hnone. apply Forall_app. split; [done|by apply Hfail].
  - intros Hsome. destruct (Hreturn Hsome). split; apply elem_of_app; by right.
Qed.

Lemma logs_remove_nothing (msgs : list string) :
  Forall (removes_listing_only w) (Log <$> msgs).
Proof.
  apply Forall_fmap, Forall_true. intros msg path Hpath. discriminate Hpath.
Qed.

Lemma log_if_nonempty_removes_nothing (label text : string) :
  Forall (removes_listing_only w) (cmdrunner.log_if_nonempty label text).
Proof.
  unfold cmdrunner.log_if_nonempty. destruct (decide _); repeat constructor.
  intros path Hpath. discriminate Hpath.
Qed.

End tidy.

(** One step along a computation whose binds are nested to the right. *)
Ltac step_tidy :=
  match goal with
  | |- tidy _ ((_ ≫= _) ≫= _) => rewrite bind_assoc
  | |- tidy _ (mret _ ≫= _) => rewrite ret_bind
  | |- tidy _ (Fatalf _ ≫= _) => apply tidy_Fatalf
  | |- tidy _ (Fatalf _) => apply tidy_Fatalf
  | |- tidy _ (perform (Remove _) ≫= _) =>
    first
      [ apply tidy_step; [intros ? [= <-]; assumption|]
      | split;
        [ intros Hnone; vm_compute in Hnone; discriminate Hnone
        | intros _;
          repeat match goal with
            | H : ?x = inl _ |- context [temp_name ?x] => rewrite H
            end;
          split; apply list_elem_of_In; vm_compute; tauto ] ]
  | |- tidy _ (perform _ ≫= _) =>
    apply tidy_step; [intros ? [=]|]
  | |- tidy _ (perform_all (cmdrunner.log_if_nonempty _ _) ≫= _) =>
    apply tidy_steps; [apply log_if_nonempty_removes_nothing|]
  | |- tidy _ (perform_all (Log <$> _) ≫= _) =>
    apply tidy_steps; [apply logs_remove_nothing|]
  | |- tidy _ (match ?x with _ => _ end ≫= _) => destruct x eqn:?
  | |- tidy _ (match ?x with _ => _ end) => destruct x eqn:?
  end; cbv beta zeta; cbn [cmdrunner.Error temp_name].

(** X21. The temporary files of a run.  A run that ends the process
    past the comparison, at whatever stage, has removed none of its two
    temporary files: the calls deferred in [main] do not run, and the only
    file removed is the temporary listing of [GenerateVPKList].  A run that
    returns has removed both. *)
Theorem failed_run_leaves_its_temporary_files (w : world) (newManifestID : string) :
  tidy w (refresh w newManifestID).
Proof.
  unfold_stages.
  repeat step_tidy.
Qed.

(** * The count of matched lines *)

Section counting.

Variable requiredPrefix : string.

Lemma wrap_int_small (z : Z) : - 2 ^ 63 ≤ z < 2 ^ 63 → wrap_int z = z.
Proof. intros Hz. unfold wrap_int. rewrite Z.mod_small; lia. Qed.

Lemma scan_line_matched (st : parser.scan_state) (line : string) :
  parser.matchedLines (parser.scan_line requiredPrefix st line)
  = if counted requiredPrefix line
    then wrap_int (parser.matchedLines st + 1)
    else parser.matchedLines st.
Proof.
  unfold parser.scan_line, counted.
  destruct (strings.HasPrefix line "---"); [done|].
  destruct (bool_decide (strings.TrimSpace line = EmptyString)); [done|].
  change (false || false) with false. cbv iota.
  destruct (length (strings.Fields line) <? 5)%nat; [done|].
  destruct (strings.Fields line) as [|filePath others]; [done|].
  destruct (parser.matches_prefix filePath requiredPrefix); [|done].
  change (negb true) with false. cbv iota.
  destruct (parser.find_fnumber line others) as [fnumber warning].
  by destruct (decide (fnumber ≠ 0)).
Qed.

Lemma scan_lines_matched (lines : list string) :
  ∀ st, 0 ≤ parser.matchedLines st →
        parser.matchedLines st + Z.of_nat (length lines) < 2 ^ 63 →
        parser.matchedLines (foldl (parser.scan_line requiredPrefix) st lines)
        = parser.matchedLines st
          + Z.of_nat (length (filter (λ line, counted requiredPrefix line = true) lines)).
Proof.
  induction lines as [|line lines IH]; intros st Hpos Hroom; simpl; [lia|].
  simpl in Hroom. rewrite filter_cons.
  pose proof (scan_line_matched st line) as Hline.
  destruct (counted requiredPrefix line) eqn:Hcounted.
  - rewrite wrap_int_small in Hline by lia.
    rewrite decide_True by done. rewrite IH; rewrite Hline; simpl length; lia.
  - rewrite decide_False by done. rewrite IH; rewrite Hline; lia.
Qed.

End counting.

(** X22. The last line [ParseVPKDir] logs after a complete read is
    [Total matched lines:] with the number of lines that passed the filters
    and whose entry path matched the prefix, whether or not a fnumber was
    found on them.  The count is exact for a listing of less than 2^63
    lines. *)
Theorem matched_lines_are_counted
    (fs : gmap string string) (path content requiredPrefix : string)
    (lines : list string) :
  fs !! path = Some content →
  bufio.ScanLines content = (lines, None) →
  Z.of_nat (length lines) < 2 ^ 63 →
  last (parser.log (parser.ParseVPKDir_run fs path requiredPrefix))
  = Some ("Total matched lines: "
          +:+ fmt.fmtInteger 0
                (Z.of_nat (length (filter (λ line, counted requiredPrefix line = true)
                                     lines)))).
Proof.
  intros Hopen Hscan Hroom. unfold parser.ParseVPKDir_run.
  rewrite Hopen, Hscan. unfold parser.parse_lines. cbn [parser.log].
  rewrite last_snoc. unfold parser.scan_lines.
  rewrite scan_lines_matched; [done|done|]. simpl. lia.
Qed.

Lemma matched_lines_are_counted_witness :
  last (parser.log (parser.ParseVPKDir_run {["dir.txt" := listing_with_zero]}
                      "dir.txt" "a/b"))
  = Some ("Total matched lines: "
          +:+ fmt.fmtInteger 0
                (Z.of_nat (length (filter (λ line, counted "a/b" line = true)
                                     [ "a/b/img0.vtex crc=0x1 metadatasz=0 fnumber=0 ofs=0x10 sz=100";
                                       "a/b/img1.vtex crc=0x1 metadatasz=0 fnumber=44 ofs=0x10 sz=100";
                                       "a/b/img2.vtex crc=0x2 metadatasz=0 fnumber=44 ofs=0x80 sz=100" ])))).
Proof.
  apply (matched_lines_are_counted {["dir.txt" := listing_with_zero]} "dir.txt"
           listing_with_zero "a/b").
  - vm_compute. reflexivity.
  - vm_compute. reflexivity.
  - vm_compute. reflexivity.
Defined.

(** The two helpers named [fileExists] agree: a path exists for them when
    [os.Stat] succeeds on it and finds no directory. *)
Lemma fileExists_agree (st : stat_result) :
  images.fileExists st = dependencies.fileExists st
  ∧ (images.fileExists st = true ↔ st = Info false).
Proof. destruct st as [| |[]]; simpl; split; try done; split; done. Qed.

(** X23. A tool that cannot be installed ends [EnsureTools].  When the
    first tool is missing and its installation fails, the error is returned
    with the name of the tool in front; nothing is done for the second tool
    (its file is not looked at), and no permission is set outside the
    installation that failed. *)
Theorem failed_installation_ends_the_provisioning
    (w : dependencies.provisioning) (err : error) :
  dependencies.tools_dir_made w = None →
  dependencies.fileExists (dependencies.stat (dependencies.answers w depot_downloader))
  = false →
  let installation :=
    dependencies.downloadAndInstallTool (dependencies.GOOS w) (dependencies.GOARCH w)
      (dependencies.fetched (dependencies.answers w depot_downloader))
      depot_downloader "tools" in
  installation.2 = Some err →
  dependencies.EnsureTools w
  = (MkdirAll "tools" 493
     :: StatPath "tools/DepotDownloader"
     :: Printf "Tool DepotDownloader not found. Downloading..."
     :: installation.1,
     Some (ErrWrap "failed to download DepotDownloader: " err)).
Proof.
  intros Hdir Hmissing installation Hfailed.
  unfold dependencies.EnsureTools. rewrite Hdir.
  change dependencies.tools
    with [depot_downloader;
          {| dependencies.Name := "ValveResourceFormat";
             dependencies.RepoOwner := "ValveResourceFormat";
             dependencies.RepoName := "ValveResourceFormat";
             dependencies.AssetNameSuffix := "cli-linux-x64.zip";
             dependencies.ExecutableName := "Source2Viewer-CLI" |}].
  cbn -[mbind mret emit dependencies.downloadAndInstallTool depot_downloader
        filepath.Join].
  rewrite Hmissing. fold installation.
  unfold mbind, traced_bind, emit, mret, traced_ret.
  destruct installation as [trace failed]. simpl in Hfailed. subst failed.
  cbn. by rewrite !app_nil_r.
Qed.

Lemma failed_installation_ends_the_provisioning_witness :
  dependencies.EnsureTools unreachable
  = ([MkdirAll "tools" 493;
      StatPath "tools/DepotDownloader";
      Printf "Tool DepotDownloader not found. Downloading...";
      HTTPGet "https://api.github.com/repos/SteamRE/DepotDownloader/releases/latest"],
     Some (ErrWrap "failed to download DepotDownloader: "
             (ErrNew "failed to fetch latest release: status code 404"))).
Proof.
  apply (failed_installation_ends_the_provisioning unreachable
           (ErrNew "failed to fetch latest release: status code 404")).
  - reflexivity.
  - reflexivity.
  - vm_compute. reflexivity.
Defined.
